(** * Verification of the tono-bot conversational commerce engine

    Shallow embedding of the Python sources under [src/tono-bot/src]:
    - [main.py]: [BoundedOrderedSet], [GlobalState] and [process_single_event];
    - [monday_service.py]: the stage hierarchy and [create_or_update_lead];
    - [conversation_logic.py]: [handle_message] and its helpers;
    - [inventory_service.py]: [_clean_price], [_clean_cell] and the row loop
      of [InventoryService.load].

    Python [str] values are lists of Unicode code points ([pystr]).  String
    literals are written as UTF-8 Rocq strings and decoded with [u]. *)

From Stdlib Require Import ZArith List String Ascii Bool Lia.
Import ListNotations.
Open Scope Z_scope.
Set Warnings "-register-all,-abstract-large-number".


(* ================================================================== *)
(** ** Python strings as code-point lists *)
Module PyStr.

Definition pystr := list Z.

(** UTF-8 decoding of a Rocq string literal into code points. *)
Fixpoint utf8 (l : list ascii) : pystr :=
  match l with
  | [] => []
  | a :: r =>
      let x := Z.of_N (N_of_ascii a) in
      if x <? 128 then x :: utf8 r
      else if x <? 224 then
        match r with
        | b :: r' =>
            (Z.land x 31 * 64 + Z.land (Z.of_N (N_of_ascii b)) 63) :: utf8 r'
        | [] => [x]
        end
      else if x <? 240 then
        match r with
        | b :: c :: r' =>
            (Z.land x 15 * 4096 + Z.land (Z.of_N (N_of_ascii b)) 63 * 64
             + Z.land (Z.of_N (N_of_ascii c)) 63) :: utf8 r'
        | _ => [x]
        end
      else
        match r with
        | b :: c :: d :: r' =>
            (Z.land x 7 * 262144 + Z.land (Z.of_N (N_of_ascii b)) 63 * 4096
             + Z.land (Z.of_N (N_of_ascii c)) 63 * 64
             + Z.land (Z.of_N (N_of_ascii d)) 63) :: utf8 r'
        | _ => [x]
        end
  end.

Definition u (s : string) : pystr := utf8 (list_ascii_of_string s).
Arguments u s%_string.

Definition seqb (a b : pystr) : bool :=
  if list_eq_dec Z.eq_dec a b then true else false.

Definition inb (x : pystr) (l : list pystr) : bool := existsb (seqb x) l.

Definition in_range (c lo hi : Z) : bool := (lo <=? c) && (c <=? hi).

(** [str.isspace] on one code point (also the class of [\s] in [re]). *)
Definition isspace (c : Z) : bool :=
  in_range c 9 13 || in_range c 28 32 || (c =? 133) || (c =? 160)
  || (c =? 5760) || in_range c 8192 8202 || (c =? 8232) || (c =? 8233)
  || (c =? 8239) || (c =? 8287) || (c =? 12288).

(** ASCII decimal digit (the class [\d] of [re] restricted to ASCII;
    the other Unicode decimal digits are not modelled). *)
Definition isdigit (c : Z) : bool := in_range c 48 57.

(** Word characters of [re] ([\w], used by [\b]): exact on Latin-1;
    beyond it, punctuation, symbol and emoji blocks count as non-word and
    the rest as word characters. *)
Definition is_word (c : Z) : bool :=
  if c <? 256 then
    in_range c 48 57 || in_range c 65 90 || in_range c 97 122 || (c =? 95)
    || (c =? 170) || (c =? 178) || (c =? 179) || (c =? 181) || (c =? 185)
    || (c =? 186) || in_range c 188 190 || in_range c 192 214
    || in_range c 216 246 || in_range c 248 255
  else
    negb (isspace c || in_range c 8192 8303 || in_range c 8592 11263
          || in_range c 12288 12351 || in_range c 65024 65039
          || (126976 <=? c)).

(** [str.lower] / [str.upper] on one code point: exact on Latin-1, identity
    elsewhere (except the two Latin-1 letters whose upper case lies beyond). *)
Definition lower_c (c : Z) : Z :=
  if in_range c 65 90 || (in_range c 192 222 && negb (c =? 215)) then c + 32
  else c.

Definition upper_c (c : Z) : Z :=
  if in_range c 97 122 || (in_range c 224 254 && negb (c =? 247)) then c - 32
  else if c =? 255 then 376
  else if c =? 181 then 924
  else c.

Definition lower (s : pystr) : pystr := map lower_c s.

(** [str.capitalize]: first character upper case, the rest lower case. *)
Definition capitalize (s : pystr) : pystr :=
  match s with
  | [] => []
  | c :: r => upper_c c :: lower r
  end.

Fixpoint lstrip (s : pystr) : pystr :=
  match s with
  | c :: r => if isspace c then lstrip r else s
  | [] => []
  end.

Definition rstrip (s : pystr) : pystr := rev (lstrip (rev s)).

(** [str.strip()] *)
Definition strip (s : pystr) : pystr := rstrip (lstrip s).

Fixpoint prefixb (p s : pystr) : bool :=
  match p, s with
  | [], _ => true
  | a :: p', b :: s' => (a =? b) && prefixb p' s'
  | _ :: _, [] => false
  end.

(** [sub in s] *)
Fixpoint contains (sub s : pystr) : bool :=
  prefixb sub s || match s with [] => false | _ :: r => contains sub r end.

Definition any_in (subs : list pystr) (s : pystr) : bool :=
  existsb (fun k => contains k s) subs.

(** [s.replace(old, new)] for a non-empty [old]. *)
Fixpoint replace_fuel (fuel : nat) (old new s : pystr) : pystr :=
  match fuel with
  | O => s
  | S f =>
      match s with
      | [] => []
      | c :: r =>
          if prefixb old s then new ++ replace_fuel f old new (skipn (List.length old) s)
          else c :: replace_fuel f old new r
      end
  end.

Definition replace (old new s : pystr) : pystr :=
  match old with
  | [] => s
  | _ => replace_fuel (S (List.length s)) old new s
  end.

(** [str.split()] with no separator: runs of whitespace separate words. *)
Fixpoint split_ws_acc (cur : pystr) (s : pystr) : list pystr :=
  match s with
  | [] => match cur with [] => [] | _ => [rev cur] end
  | c :: r =>
      if isspace c then
        match cur with
        | [] => split_ws_acc [] r
        | _ => rev cur :: split_ws_acc [] r
        end
      else split_ws_acc (c :: cur) r
  end.

Definition split_ws (s : pystr) : list pystr := split_ws_acc [] s.

(** [s.split(sep)] for a single-character separator. *)
Fixpoint split_char_acc (sep : Z) (cur : pystr) (s : pystr) : list pystr :=
  match s with
  | [] => [rev cur]
  | c :: r =>
      if c =? sep then rev cur :: split_char_acc sep [] r
      else split_char_acc sep (c :: cur) r
  end.

Definition split_char (sep : Z) (s : pystr) : list pystr :=
  split_char_acc sep [] s.

(** [sep.join(l)] *)
Fixpoint join (sep : pystr) (l : list pystr) : pystr :=
  match l with
  | [] => []
  | [x] => x
  | x :: r => x ++ sep ++ join sep r
  end.

(** [s[-n:]] for [n > 0]. *)
Definition lastn (n : nat) (s : pystr) : pystr :=
  skipn (List.length s - n) s.

(** [int(s)] on a string of ASCII digits. *)
Fixpoint digits_val_acc (acc : Z) (s : pystr) : Z :=
  match s with
  | [] => acc
  | c :: r => digits_val_acc (acc * 10 + (c - 48)) r
  end.

Definition digits_val (s : pystr) : Z := digits_val_acc 0 s.

(** [str(n)] for an integer. *)
Fixpoint nat_digits (fuel : nat) (n : Z) (acc : pystr) : pystr :=
  match fuel with
  | O => acc
  | S f =>
      let acc' := (48 + n mod 10) :: acc in
      if n <? 10 then acc' else nat_digits f (n / 10) acc'
  end.

Definition z_str (n : Z) : pystr :=
  if n <? 0 then 45 :: nat_digits 64 (- n) [] else nat_digits 64 n [].

(** [f"{n:02d}"] for [0 <= n]. *)
Definition z_str02 (n : Z) : pystr :=
  if n <? 10 then 48 :: z_str n else z_str n.

End PyStr.
Import PyStr.

(* ================================================================== *)
(** ** A backtracking matcher for the [re] patterns of the sources

    Patterns are matched as Python's [re] does: leftmost match, the first
    alternative first, greedy or lazy repetition with backtracking, numbered
    capture groups (the last iteration wins), [\b] between a word and a
    non-word character.  The matcher threads an explicit fuel; every pattern
    of the sources terminates well inside the fuel given by [fuel_for]. *)
Module Rx.

Inductive rx : Type :=
| RSet (p : Z -> bool)                                (** one code point *)
| RSeq (a b : rx)
| RAlt (a b : rx)
| RRep (a : rx) (lo : nat) (hi : option nat) (greedy : bool)
| RGrp (n : nat) (a : rx)
| RWordB                                              (** [\b] *)
| RBegin                                              (** [^] *)
| REnd                                                (** [$] *)
| REmpty.

Record st := mkst { prev : option Z; rest : pystr; pos : nat }.

Definition caps := list (nat * (nat * nat)).

Definition at_wordb (s : st) : bool :=
  let w1 := match prev s with Some c => is_word c | None => false end in
  let w2 := match rest s with c :: _ => is_word c | [] => false end in
  xorb w1 w2.

Definition dec_hi (h : option nat) : option nat :=
  match h with Some n => Some (pred n) | None => None end.

Definition orelse {A} (x : option A) (y : unit -> option A) : option A :=
  match x with Some _ => x | None => y tt end.

Fixpoint mt (fuel : nat) (r : rx) (s : st) (cp : caps)
    (k : st -> caps -> option (st * caps)) {struct fuel} : option (st * caps) :=
  match fuel with
  | O => None
  | S f =>
      match r with
      | RSet p =>
          match rest s with
          | c :: t => if p c then k (mkst (Some c) t (S (pos s))) cp else None
          | [] => None
          end
      | RSeq a b => mt f a s cp (fun s' cp' => mt f b s' cp' k)
      | RAlt a b => orelse (mt f a s cp k) (fun _ => mt f b s cp k)
      | RRep a lo hi g =>
          match lo with
          | S lo' => mt f a s cp (fun s' cp' => mt f (RRep a lo' (dec_hi hi) g) s' cp' k)
          | O =>
              match hi with
              | Some O => k s cp
              | _ =>
                  let more := fun (_ : unit) =>
                    mt f a s cp (fun s' cp' =>
                      if Nat.eqb (pos s') (pos s) then None
                      else mt f (RRep a O (dec_hi hi) g) s' cp' k) in
                  if g then orelse (more tt) (fun _ => k s cp)
                  else orelse (k s cp) more
              end
          end
      | RGrp n a => mt f a s cp (fun s' cp' => k s' ((n, (pos s, pos s')) :: cp'))
      | RWordB => if at_wordb s then k s cp else None
      | RBegin => if Nat.eqb (pos s) 0 then k s cp else None
      | REnd =>
          match rest s with
          | [] => k s cp
          | [10] => k s cp
          | _ => None
          end
      | REmpty => k s cp
      end
  end.

Fixpoint rx_size (r : rx) : nat :=
  match r with
  | RSeq a b | RAlt a b => S (rx_size a + rx_size b)
  | RRep a _ _ _ | RGrp _ a => S (rx_size a)
  | _ => 1
  end.

Definition fuel_for (r : rx) (s : pystr) : nat :=
  4 * (S (List.length s) * (rx_size r + 4)).

Definition kdone : st -> caps -> option (st * caps) := fun s cp => Some (s, cp).

Definition prev_at (full : pystr) (i : nat) : option Z :=
  match i with O => None | S k => nth_error full k end.

(** Leftmost match starting at position [i] or later of the suffix [s]. *)
Fixpoint search_from (fuel : nat) (r : rx) (pv : option Z) (s : pystr) (i : nat)
    : option (nat * nat * caps) :=
  match mt fuel r (mkst pv s i) [] kdone with
  | Some (e, cp) => Some (i, pos e, cp)
  | None =>
      match s with
      | [] => None
      | c :: t => search_from fuel r (Some c) t (S i)
      end
  end.

(** [re.search(r, s)]: start, end and groups of the leftmost match. *)
Definition search (r : rx) (s : pystr) : option (nat * nat * caps) :=
  search_from (fuel_for r s) r None s 0.

Definition searchb (r : rx) (s : pystr) : bool :=
  match search r s with Some _ => true | None => false end.

(** [re.match(r, s)] *)
Definition matchb (r : rx) (s : pystr) : bool :=
  match mt (fuel_for r s) r (mkst None s 0) [] kdone with
  | Some _ => true | None => false end.

(** [re.fullmatch(r, s)] *)
Definition fullmatchb (r : rx) (s : pystr) : bool :=
  match mt (fuel_for r s) r (mkst None s 0) []
          (fun s' cp => match rest s' with [] => Some (s', cp) | _ => None end) with
  | Some _ => true | None => false end.

Definition slice (s : pystr) (a b : nat) : pystr := firstn (b - a) (skipn a s).

(** [m.group(n)] of a match of [full] ([None] if the group did not take part). *)
Definition group (full : pystr) (cp : caps) (n : nat) : option pystr :=
  match find (fun x => Nat.eqb (fst x) n) cp with
  | Some (_, (a, b)) => Some (slice full a b)
  | None => None
  end.

Definition group_or_empty (full : pystr) (cp : caps) (n : nat) : pystr :=
  match group full cp n with Some g => g | None => [] end.

(** [re.sub(r, repl, s)]: non-overlapping matches, left to right; [repl]
    computes the replacement from the subject and the groups. *)
Fixpoint sub_loop (steps fuel : nat) (r : rx) (repl : pystr -> caps -> pystr)
    (full : pystr) (i : nat) : pystr :=
  match steps with
  | O => skipn i full
  | S n =>
      match search_from fuel r (prev_at full i) (skipn i full) i with
      | None => skipn i full
      | Some (b, e, cp) =>
          if Nat.eqb b e then
            slice full i b ++ repl full cp ++ slice full b (S b)
              ++ (if Nat.leb (List.length full) b then []
                  else sub_loop n fuel r repl full (S b))
          else slice full i b ++ repl full cp ++ sub_loop n fuel r repl full e
      end
  end.

Definition sub (r : rx) (repl : pystr -> caps -> pystr) (s : pystr) : pystr :=
  sub_loop (S (List.length s)) (fuel_for r s) r repl s 0.

(** Pattern builders. *)
Definition chr (c : Z) : rx := RSet (Z.eqb c).
(** Case-insensitive equality of [re.IGNORECASE]: equal lower case, plus
    the four non-ASCII letters that fold onto ASCII ones (U+0130, U+0131,
    U+017F, U+212A). *)
Definition fold_eq (c x : Z) : bool :=
  (lower_c x =? lower_c c)
  || ((lower_c c =? 105) && ((x =? 304) || (x =? 305)))
  || ((lower_c c =? 115) && (x =? 383))
  || ((lower_c c =? 107) && (x =? 8490)).
Definition ichr (c : Z) : rx := RSet (fold_eq c).
Definition lit (s : pystr) : rx := fold_right (fun c acc => RSeq (chr c) acc) REmpty s.
Definition ilit (s : pystr) : rx := fold_right (fun c acc => RSeq (ichr c) acc) REmpty s.
Definition rcat (l : list rx) : rx := fold_right RSeq REmpty l.
Fixpoint ralt (l : list rx) : rx :=
  match l with
  | [] => RSet (fun _ => false)
  | [x] => x
  | x :: r => RAlt x (ralt r)
  end.
Definition rstar (r : rx) : rx := RRep r 0 None true.
Definition rplus (r : rx) : rx := RRep r 1 None true.
Definition rrep (r : rx) (lo hi : nat) : rx := RRep r lo (Some hi) true.
Definition ropt (r : rx) : rx := RRep r 0 (Some 1%nat) true.
Definition rlazy_star (r : rx) : rx := RRep r 0 None false.
Definition sp : rx := RSet isspace.                        (** [\s] *)
Definition dig : rx := RSet isdigit.                       (** [\d] *)
Definition dot : rx := RSet (fun c => negb (c =? 10)).     (** [.] *)
Definition anyc : rx := RSet (fun _ => true).              (** [.] with DOTALL *)
(** Alternation of literal words. *)
Definition words (l : list pystr) : rx := ralt (map lit l).
Definition iwords (l : list pystr) : rx := ralt (map ilit l).
(** [r'\b' + re.escape(tok) + r'\b'] *)
Definition word_pat (tok : pystr) : rx := rcat [RWordB; lit tok; RWordB].

End Rx.
Import Rx.

(* ================================================================== *)
(** ** [main.py]: [BoundedOrderedSet] *)
Module Dedup.

(** The [OrderedDict] keys, oldest first, and [_maxlen]. *)
Record bset := mkbset { data : list pystr; maxlen : nat }.

Definition init (maxlen : nat) : bset := mkbset [] maxlen.

(** [__contains__] *)
Definition mem (key : pystr) (b : bset) : bool := inb key (data b).

(** [OrderedDict.popitem(last=False)]; [None] is the [KeyError] raised on
    an empty dict. *)
Definition popitem_first (d : list pystr) : option (list pystr) :=
  match d with [] => None | _ :: r => Some r end.

(** [add]; [None] when it raises. *)
Definition add (key : pystr) (b : bset) : option bset :=
  if mem key b then Some b
  else
    let d := if Nat.leb (maxlen b) (List.length (data b))
             then popitem_first (data b) else Some (data b) in
    match d with
    | None => None
    | Some d' => Some (mkbset (d' ++ [key]) (maxlen b))
    end.

(** A sequence of insertions. *)
Fixpoint add_all (keys : list pystr) (b : bset) : option bset :=
  match keys with
  | [] => Some b
  | k :: ks => match add k b with Some b' => add_all ks b' | None => None end
  end.

End Dedup.

(* ================================================================== *)
(** ** [monday_service.py]: stage hierarchy and [create_or_update_lead] *)
Module Monday.

Definition s_contacto := u "1er Contacto".
Definition s_intencion := u "Intención".
Definition s_cotizacion := u "Cotización".
Definition s_cita := u "Cita Programada".
Definition s_sin_interes := u "Sin Interes".

(** [STAGE_HIERARCHY.get(stage, 0)] *)
Definition stage_rank (s : pystr) : Z :=
  if seqb s s_contacto then 1
  else if seqb s s_intencion then 2
  else if seqb s s_cotizacion then 3
  else if seqb s s_cita then 4
  else 0.

Definition TERMINAL_STAGES : list pystr :=
  [u "Venta Cerrada"; u "Venta Caida"; u "Sin Interes"].

Definition is_terminal (s : pystr) : bool := inb s TERMINAL_STAGES.

Definition VEHICLE_DROPDOWN_MAP : list (pystr * list pystr) :=
  [(u "Tunland E5", [u "e5"; u "tunland"; u "tunland e5"]);
   (u "ESTA 6x4 11.8", [u "esta 11.8"; u "6x4 11.8"; u "esta"]);
   (u "ESTA 6x4 X13", [u "esta x13"; u "6x4 x13"]);
   (u "Miler", [u "miler"; u "miller"]);
   (u "Toano Panel", [u "toano"; u "panel"; u "toano panel"]);
   (u "Tunland G7", [u "g7"; u "tunland g7"]);
   (u "Tunland G9", [u "g9"; u "tunland g9"])].

Definition resolve_vehicle_to_dropdown (interest : pystr) : pystr :=
  match interest with
  | [] => []
  | _ =>
      let il := strip (replace (u "4x4") [] (replace (u "diesel") []
                  (replace (u "foton") [] (lower interest)))) in
      fst (fold_left
             (fun (acc : pystr * Z) (e : pystr * list pystr) =>
                let score := fold_left
                  (fun sc syn => if contains syn il
                                 then sc + Z.of_nat (List.length syn) else sc)
                  (snd e) 0 in
                if snd acc <? score then (fst e, score) else acc)
             VEHICLE_DROPDOWN_MAP ([], 0))
  end.

Definition resolve_payment_to_label (payment : pystr) : pystr :=
  match payment with
  | [] => u "Por definir"
  | _ =>
      let p := strip (lower payment) in
      if inb p [u "contado"; u "de contado"; u "cash"] then u "De Contado"
      else if inb p [u "crédito"; u "credito"; u "financiamiento"; u "financiación"]
      then u "Financiamiento"
      else u "Por definir"
  end.

(** [_sanitize_phone]: [re.sub(r'\D', '', phone)]. *)
Definition _sanitize_phone (phone : pystr) : pystr := filter isdigit phone.

(** The column ids read from the environment ([None] when unset). *)
Record config := mkconfig {
  phone_dedupe_col_id : option pystr;
  last_msg_id_col_id : option pystr;
  phone_real_col_id : option pystr;
  stage_col_id : option pystr;
  vehicle_col_id : option pystr;
  payment_col_id : option pystr;
  appointment_col_id : option pystr }.

(** The lead dict ([None] for a missing key); [cita_iso] is the optional
    date dict, as an association list. *)
Record lead_data := mklead {
  telefono : option pystr;
  nombre : option pystr;
  external_id : option pystr;
  interes : option pystr;
  pago : option pystr;
  cita : option pystr;
  cita_iso : option (list (pystr * pystr)) }.

Inductive colval :=
| CText (s : pystr)
| CPhone (phone country : pystr)
| CLabel (s : pystr)
| CLabels (l : list pystr)
| CDict (d : list (pystr * pystr)).

(** A Python dict in insertion order; assignment to a present key keeps
    its position. *)
Definition colvals := list (pystr * colval).

Fixpoint dict_set {V} (k : pystr) (v : V) (d : list (pystr * V)) : list (pystr * V) :=
  match d with
  | [] => [(k, v)]
  | (k', v') :: r => if seqb k k' then (k, v) :: r else (k', v') :: dict_set k v r
  end.

Definition dict_get {V} (k : pystr) (d : list (pystr * V)) : option V :=
  match find (fun e => seqb k (fst e)) d with Some (_, v) => Some v | None => None end.

Definition get_or (d : pystr) (o : option pystr) : pystr :=
  match o with Some s => s | None => d end.

(** [x or y] on strings *)
Definition or_str (x y : pystr) : pystr := match x with [] => y | _ => x end.

Definition set_if {V} (col : option pystr) (cond : bool) (v : V)
    (d : list (pystr * V)) : list (pystr * V) :=
  match col with Some c => if cond then dict_set c v d else d | None => d end.

Definition _should_advance_stage (current_stage candidate_stage : pystr) : bool :=
  stage_rank current_stage <? stage_rank candidate_stage.

(** The stage column is not configured as the id of another column. *)
Definition stage_col_distinct (cfg : config) : Prop :=
  forall c, stage_col_id cfg = Some c ->
    phone_dedupe_col_id cfg <> Some c /\ last_msg_id_col_id cfg <> Some c /\
    phone_real_col_id cfg <> Some c /\ vehicle_col_id cfg <> Some c /\
    payment_col_id cfg <> Some c /\ appointment_col_id cfg <> Some c.

Section Upsert.
(** [resolve_appointment_to_iso] reads the wall clock; it is a parameter. *)
Variable resolve_appointment_to_iso : pystr -> list (pystr * pystr).

(** The stage entry of [_build_column_values]. *)
Definition stage_entry (cfg : config) (stage : pystr) (is_new : bool)
    (current_stage : pystr) : option colval :=
  match stage, stage_col_id cfg with
  | _ :: _, Some _ =>
      if is_new then Some (CLabel stage)
      else if seqb stage s_sin_interes then Some (CLabel stage)
      else if _should_advance_stage current_stage stage then Some (CLabel stage)
      else None
  | _, _ => None
  end.

Definition appointment_iso (lead : lead_data) : list (pystr * pystr) :=
  match cita_iso lead with
  | Some ((_ :: _) as d) => d
  | _ =>
      (* [resolve_appointment_to_iso] returns [{}] on an empty text *)
      match get_or [] (cita lead) with
      | [] => []
      | t => resolve_appointment_to_iso t
      end
  end.

Definition _build_column_values (cfg : config) (lead : lead_data) (stage : pystr)
    (is_new : bool) (current_stage : pystr) : colvals :=
  let phone_limpio := _sanitize_phone (get_or [] (telefono lead)) in
  let msg_id := strip (get_or [] (external_id lead)) in
  let d := set_if (phone_dedupe_col_id cfg) (negb (seqb phone_limpio [])) (CText phone_limpio) [] in
  let d := set_if (last_msg_id_col_id cfg) (negb (seqb msg_id [])) (CText msg_id) d in
  let d := set_if (phone_real_col_id cfg) (negb (seqb phone_limpio []))
             (CPhone phone_limpio (u "MX")) d in
  let d := match stage_entry cfg stage is_new current_stage, stage_col_id cfg with
           | Some v, Some c => dict_set c v d
           | _, _ => d
           end in
  let vehicle_label := resolve_vehicle_to_dropdown (get_or [] (interes lead)) in
  let d := set_if (vehicle_col_id cfg) (negb (seqb vehicle_label []))
             (CLabels [vehicle_label]) d in
  let payment_label := resolve_payment_to_label (get_or [] (pago lead)) in
  let d := set_if (payment_col_id cfg)
             (is_new || negb (seqb payment_label (u "Por definir")))
             (CLabel payment_label) d in
  let iso := appointment_iso lead in
  let has_date := match dict_get (u "date") iso with Some (_ :: _) => true | _ => false end in
  set_if (appointment_col_id cfg) has_date (CDict iso) d.

(** The item found by [_find_item_by_phone]: id and stripped stage text. *)
Record found_item := mkfound { item_id : pystr; current_stage : pystr }.

(** The GraphQL mutations issued, in order. *)
Inductive crm_op :=
| OpCreate (name : pystr) (group_id : option pystr) (vals : colvals)
| OpUpdate (item : pystr) (vals : colvals)
| OpRename (item : pystr) (name : pystr)
| OpNote (item : pystr) (body : pystr).

Definition nl : pystr := [10].

(** Step 2 of [create_or_update_lead]: [(is_new, item_id, current_stage)]. *)
Definition decide (existing : option found_item) : bool * option pystr * pystr :=
  match existing with
  | Some it =>
      if is_terminal (current_stage it) then (true, None, [])
      else (false, Some (item_id it), current_stage it)
  | None => (true, None, [])
  end.

Definition new_item_note (lead : lead_data) (effective_stage nombre phone_limpio : pystr) : pystr :=
  let detalles :=
    u "📊 ETAPA: " ++ effective_stage ++ nl ++
    u "👤 Nombre: " ++ nombre ++ nl ++
    u "📞 Tel: " ++ phone_limpio ++ nl ++
    u "📝 Interés: " ++ get_or (u "N/A") (interes lead) ++ nl in
  let detalles :=
    match cita lead with
    | Some ((_ :: _) as c) =>
        let iso := appointment_iso lead in
        match dict_get (u "date") iso with
        | Some ((_ :: _) as dt) =>
            detalles ++ u "📅 Cita: " ++ dt ++
            (match dict_get (u "time") iso with
             | Some ((_ :: _) as tm) => u " " ++ tm
             | _ => [] end) ++ nl
        | _ => detalles ++ u "📅 Cita: " ++ c ++ nl
        end
    | _ => detalles
    end in
  detalles ++ u "💰 Pago: " ++ resolve_payment_to_label (get_or [] (pago lead)) ++ nl.

(** [create_or_update_lead].  [existing] is the answer of
    [_find_item_by_phone], [group_id] that of [_get_group_id_by_name] and
    [created_id] the id returned by [create_item].  Result: the mutations
    issued and the returned item id. *)
Definition create_or_update_lead (cfg : config) (existing : option found_item)
    (group_id created_id : option pystr) (lead : lead_data)
    (stage add_note : option pystr) : list crm_op * option pystr :=
  let phone_limpio := _sanitize_phone (get_or [] (telefono lead)) in
  let nombre := or_str (strip (get_or [] (nombre lead))) (u "Lead sin nombre") in
  match phone_limpio with
  | [] => ([], None)
  | _ =>
      let '(is_new, item, current_stage) := decide existing in
      let effective_stage :=
        or_str (get_or [] stage) (if is_new then s_contacto else []) in
      let col_vals := _build_column_values cfg lead effective_stage is_new current_stage in
      let '(ops, item) :=
        if is_new then
          ([OpCreate (nombre ++ u " | " ++ phone_limpio) group_id col_vals], created_id)
        else
          let item_s := get_or [] item in
          ((match col_vals with [] => [] | _ => [OpUpdate item_s col_vals] end) ++
           (if seqb nombre (u "Lead sin nombre") then []
            else [OpRename item_s (nombre ++ u " | " ++ phone_limpio)]), item) in
      let note :=
        match item with
        | Some ((_ :: _) as i) =>
            if is_new then [OpNote i (new_item_note lead effective_stage nombre phone_limpio)]
            else match add_note with
                 | Some ((_ :: _) as n) => [OpNote i n]
                 | _ => []
                 end
        | _ => []
        end in
      (ops ++ note, item)
  end.

(** [create_lead]: the backwards-compatible entry used by [main.py]. *)
Definition create_lead (cfg : config) (existing : option found_item)
    (group_id created_id : option pystr) (lead : lead_data) : list crm_op * option pystr :=
  create_or_update_lead cfg existing group_id created_id lead (Some s_cita) None.

End Upsert.
End Monday.

(* ================================================================== *)
(** ** JSON values, [json.loads] and [str()] of a decoded value *)
Module Json.

(** A decoded JSON value.  A number with a fraction or an exponent is kept
    as its source text (which is also what [str()] shows for the common
    literals such as [1.5]). *)
Inductive jval :=
| JNull
| JBool (b : bool)
| JInt (z : Z)
| JFloat (text : pystr)
| JStr (s : pystr)
| JArr (l : list jval)
| JObj (l : list (pystr * jval)).

Definition jws (c : Z) : bool := (c =? 32) || (c =? 9) || (c =? 10) || (c =? 13).

Fixpoint skip_ws (s : pystr) : pystr :=
  match s with c :: r => if jws c then skip_ws r else s | [] => [] end.

Definition hexval (c : Z) : option Z :=
  if in_range c 48 57 then Some (c - 48)
  else if in_range c 97 102 then Some (c - 87)
  else if in_range c 65 70 then Some (c - 55)
  else None.

Definition hex4 (s : pystr) : option (Z * pystr) :=
  match s with
  | a :: b :: c :: d :: r =>
      match hexval a, hexval b, hexval c, hexval d with
      | Some x, Some y, Some z, Some w => Some (((x * 16 + y) * 16 + z) * 16 + w, r)
      | _, _, _, _ => None
      end
  | _ => None
  end.

(** The body of a string literal, after the opening quote. *)
Fixpoint parse_str (fuel : nat) (acc : pystr) (s : pystr) : option (pystr * pystr) :=
  match fuel with
  | O => None
  | S f =>
      match s with
      | [] => None
      | c :: r =>
          if c =? 34 then Some (rev acc, r)
          else if c =? 92 then
            match r with
            | [] => None
            | e :: r' =>
                if e =? 117 then
                  match hex4 r' with
                  | None => None
                  | Some (v, r2) =>
                      if in_range v 55296 56319 then
                        match r2 with
                        | 92 :: 117 :: r3 =>
                            match hex4 r3 with
                            | Some (w, r4) =>
                                if in_range w 56320 57343
                                then parse_str f ((65536 + (v - 55296) * 1024 + (w - 56320)) :: acc) r4
                                else parse_str f (v :: acc) r2
                            | None => parse_str f (v :: acc) r2
                            end
                        | _ => parse_str f (v :: acc) r2
                        end
                      else parse_str f (v :: acc) r2
                  end
                else
                  let esc := if e =? 34 then Some 34 else if e =? 92 then Some 92
                             else if e =? 47 then Some 47 else if e =? 98 then Some 8
                             else if e =? 102 then Some 12 else if e =? 110 then Some 10
                             else if e =? 114 then Some 13 else if e =? 116 then Some 9
                             else None in
                  match esc with
                  | Some x => parse_str f (x :: acc) r'
                  | None => None
                  end
            end
          else if c <? 32 then None
          else parse_str f (c :: acc) r
      end
  end.

Fixpoint span_digits (s : pystr) : pystr * pystr :=
  match s with
  | c :: r => if isdigit c then let '(d, t) := span_digits r in (c :: d, t) else ([], s)
  | [] => ([], [])
  end.

(** A number: [-?(0|[1-9]\d* )(\.\d+)?([eE][-+]?\d+)?]. *)
Definition parse_num (s : pystr) : option (jval * pystr) :=
  let '(sign, s1) := match s with 45 :: r => ([45], r) | _ => ([], s) end in
  let '(ip, s2) := match s1 with
                   | 48 :: r => ([48], r)
                   | _ => span_digits s1
                   end in
  match ip with
  | [] => None
  | _ =>
      let '(frac, s3) := match s2 with
                         | 46 :: r => match span_digits r with
                                      | ([], _) => ([], s2)
                                      | (d, t) => (46 :: d, t)
                                      end
                         | _ => ([], s2)
                         end in
      let '(ex, s4) := match s3 with
                       | e :: r =>
                           if (e =? 101) || (e =? 69) then
                             let '(sg, r') := match r with
                                              | 43 :: t => ([43], t)
                                              | 45 :: t => ([45], t)
                                              | _ => ([], r)
                                              end in
                             match span_digits r' with
                             | ([], _) => ([], s3)
                             | (d, t) => (e :: sg ++ d, t)
                             end
                           else ([], s3)
                       | [] => ([], s3)
                       end in
      match frac, ex with
      | [], [] => Some (JInt (if seqb sign [] then digits_val ip else - digits_val ip), s4)
      | _, _ => Some (JFloat (sign ++ ip ++ frac ++ ex), s4)
      end
  end.

Fixpoint parse_val (fuel : nat) (s : pystr) {struct fuel} : option (jval * pystr) :=
  match fuel with
  | O => None
  | S f =>
      let s := skip_ws s in
      match s with
      | [] => None
      | c :: r =>
          if c =? 34 then
            match parse_str f [] r with Some (x, t) => Some (JStr x, t) | None => None end
          else if c =? 123 then
            match skip_ws r with
            | 125 :: t => Some (JObj [], t)
            | _ => match parse_obj f [] r with Some (l, t) => Some (JObj l, t) | None => None end
            end
          else if c =? 91 then
            match skip_ws r with
            | 93 :: t => Some (JArr [], t)
            | _ => match parse_arr f [] r with Some (l, t) => Some (JArr l, t) | None => None end
            end
          else if prefixb (u "null") s then Some (JNull, skipn 4 s)
          else if prefixb (u "true") s then Some (JBool true, skipn 4 s)
          else if prefixb (u "false") s then Some (JBool false, skipn 5 s)
          else if prefixb (u "NaN") s then Some (JFloat (u "nan"), skipn 3 s)
          else if prefixb (u "Infinity") s then Some (JFloat (u "inf"), skipn 8 s)
          else if prefixb (u "-Infinity") s then Some (JFloat (u "-inf"), skipn 9 s)
          else parse_num s
      end
  end
(** Array elements after [\[] (the array is not empty). *)
with parse_arr (fuel : nat) (acc : list jval) (s : pystr) {struct fuel}
    : option (list jval * pystr) :=
  match fuel with
  | O => None
  | S f =>
      match parse_val f s with
      | None => None
      | Some (v, t) =>
          match skip_ws t with
          | 44 :: t' => parse_arr f (v :: acc) t'
          | 93 :: t' => Some (rev (v :: acc), t')
          | _ => None
          end
      end
  end
(** Object members after [{] (the object is not empty); a repeated key
    keeps its first position and takes the last value, as [dict] does. *)
with parse_obj (fuel : nat) (acc : list (pystr * jval)) (s : pystr) {struct fuel}
    : option (list (pystr * jval) * pystr) :=
  match fuel with
  | O => None
  | S f =>
      match skip_ws s with
      | 34 :: r =>
          match parse_str f [] r with
          | None => None
          | Some (k, t) =>
              match skip_ws t with
              | 58 :: t1 =>
                  match parse_val f t1 with
                  | None => None
                  | Some (v, t2) =>
                      match skip_ws t2 with
                      | 44 :: t3 => parse_obj f (Monday.dict_set k v acc) t3
                      | 125 :: t3 => Some (Monday.dict_set k v acc, t3)
                      | _ => None
                      end
                  end
              | _ => None
              end
          end
      | _ => None
      end
  end.

(** [json.loads(s)]; [None] is a [JSONDecodeError]. *)
Definition json_loads (s : pystr) : option jval :=
  match s with
  | 65279 :: _ => None
  | _ =>
      match parse_val (3 * (List.length s + 2)) s with
      | Some (v, t) => match skip_ws t with [] => Some v | _ => None end
      | None => None
      end
  end.

(** [repr()] of a string: single quotes unless the text has a single quote
    and no double quote; backslash, the quote, tab, newline, carriage return
    and the other control characters are escaped. *)
Definition hexdig (n : Z) : Z := if n <? 10 then 48 + n else 87 + n.

Definition str_repr (s : pystr) : pystr :=
  let q := if contains [39] s && negb (contains [34] s) then 34 else 39 in
  let esc (c : Z) : pystr :=
    if c =? 92 then [92; 92]
    else if c =? q then [92; q]
    else if c =? 9 then [92; 116]
    else if c =? 10 then [92; 110]
    else if c =? 13 then [92; 114]
    else if (c <? 32) || (c =? 127) then [92; 120; hexdig (c / 16); hexdig (c mod 16)]
    else [c] in
  q :: flat_map esc s ++ [q].

Fixpoint py_repr (v : jval) : pystr :=
  match v with
  | JNull => u "None"
  | JBool true => u "True"
  | JBool false => u "False"
  | JInt z => z_str z
  | JFloat t => t
  | JStr s => str_repr s
  | JArr l => [91] ++ join (u ", ") (map py_repr l) ++ [93]
  | JObj l => [123] ++ join (u ", ") (map (fun kv => str_repr (fst kv) ++ u ": " ++ py_repr (snd kv)) l) ++ [125]
  end.

(** [str(v)] *)
Definition py_str (v : jval) : pystr :=
  match v with JStr s => s | _ => py_repr v end.

End Json.
Import Json.

(* ================================================================== *)
(** ** [conversation_logic.py]: extraction helpers *)
Module Conv.

(** A catalog item: the normalized row of [InventoryService.load]. *)
Definition item := list (pystr * pystr).

Definition dict_get {V} := @Monday.dict_get V.
Definition dict_set {V} := @Monday.dict_set V.

Fixpoint _safe_get (it : item) (keys : list pystr) (default : pystr) : pystr :=
  match keys with
  | [] => default
  | k :: ks =>
      match dict_get k it with
      | Some v => if seqb (strip v) [] then _safe_get it ks default else strip v
      | None => _safe_get it ks default
      end
  end.

Definition model_keys : list pystr := [u "Modelo"; u "modelo"; u "id_modelo"].

Definition modelo_of (it : item) : pystr := strip (_safe_get it model_keys []).

Definition _extract_photos_from_item (it : item) : list pystr :=
  let raw := _safe_get it [u "photos"; u "photo"; u "foto"; u "imagen"; u "imagenes"; u "fotos"] [] in
  match raw with
  | [] => []
  | _ => map strip (filter (fun x => prefixb (u "http") (strip x)) (split_char 124 raw))
  end.

Definition sub_lit (pat : rx) (repl : pystr) (t : pystr) : pystr :=
  sub pat (fun _ _ => repl) t.

(** The word-bounded rewrites of [_normalize_spanish], in order. *)
Definition normalize_subs : list (pystr * pystr) :=
  [(u "tunlan", u "tunland"); (u "tunlad", u "tunland"); (u "tunlnad", u "tunland");
   (u "cascadía", u "cascadia"); (u "caskadia", u "cascadia");
   (u "la e5", u "tunland e5"); (u "el e5", u "tunland e5");
   (u "la g7", u "tunland g7"); (u "el g7", u "tunland g7");
   (u "la g9", u "tunland g9"); (u "el g9", u "tunland g9");
   (u "la pickup", u "tunland"); (u "la troca", u "tunland");
   (u "la camioneta", u "tunland"); (u "la doble cabina", u "tunland");
   (u "la van", u "toano panel"); (u "la panel", u "toano panel");
   (u "la combi", u "toano panel");
   (u "el camioncito", u "miler"); (u "el miler", u "miler");
   (u "el de 3 toneladas", u "miler"); (u "el de carga", u "miler");
   (u "el tracto", u "6x4"); (u "el tractocamion", u "6x4");
   (u "el tractocamión", u "6x4"); (u "la esta", u "6x4");
   (u "el camion grande", u "6x4"); (u "el camión grande", u "6x4");
   (u "la cascadia", u "cascadia"); (u "el cascadia", u "cascadia")].

Definition _normalize_spanish (text : pystr) : pystr :=
  let t := lower text in
  let t := replace (u "miller") (u "miler") t in
  let t := replace (u "vanesa") (u "toano") t in
  let t := replace (u "freight liner") (u "freightliner") t in
  let t := replace (u "freigthliner") (u "freightliner") t in
  let t := replace (u "freighliner") (u "freightliner") t in
  fold_left (fun t pr => sub_lit (word_pat (fst pr)) (snd pr) t) normalize_subs t.

(** [[A-Za-zÁÉÍÓÚÑÜáéíóúñü]] *)
Definition name_letter (c : Z) : bool :=
  in_range c 65 90 || in_range c 97 122 || existsb (Z.eqb c) (u "ÁÉÍÓÚÑÜáéíóúñü").

(** The same class under [re.IGNORECASE]. *)
Definition name_letter_i (c : Z) : bool :=
  name_letter c || (c =? 304) || (c =? 305) || (c =? 383) || (c =? 8490).

(** A JSON object used as a dict. *)
Definition jdict := list (pystr * jval).

(** [str(lead.get(key, ""))] *)
Definition get_str (k : pystr) (d : jdict) : pystr :=
  match dict_get k d with Some v => py_str v | None => [] end.

Definition placeholders : list pystr :=
  [u "cliente nuevo"; u "desconocido"; u "amigo"; u "cliente"; u "nuevo lead";
   u "usuario"; u "no proporcionado"].

(** [_lead_is_valid] on a dict. *)
Definition _lead_is_valid (lead : jdict) : bool :=
  let nombre := strip (get_str (u "nombre") lead) in
  let interes := strip (get_str (u "interes") lead) in
  let cita := strip (get_str (u "cita") lead) in
  if seqb nombre [] || Nat.ltb (List.length nombre) 3 then false
  else if inb (lower nombre) placeholders then false
  else if negb (searchb (RSet name_letter) nombre) then false
  else if seqb interes [] || Nat.ltb (List.length interes) 2 then false
  else if seqb cita [] || Nat.ltb (List.length cita) 2 then false
  else true.

(** [_extract_name_from_text] *)
Definition name_bad : list pystr :=
  map u ["aqui"; "aquí"; "nadie"; "yo"; "el"; "ella"; "amigo"; "desconocido";
   "cliente"; "usuario"; "quien"; "quién";
   "si"; "sí"; "no"; "bueno"; "ok"; "okey"; "hola"; "bien"; "gracias";
   "vale"; "perfecto"; "listo"; "claro"; "sale"; "dale";
   "que"; "qué"; "como"; "cómo"; "cuando"; "cuándo"; "donde"; "dónde";
   "precio"; "fotos"; "foto"; "info"; "información"; "informacion";
   "ubicación"; "ubicacion"; "costo"; "interesado"; "interesada";
   "cotización"; "cotizacion"; "modelo"; "camioneta"; "camion"; "camión";
   "credito"; "crédito"; "contado"; "financiamiento";
   "quiero"; "necesito"; "busco"; "tengo"; "puedo"; "estoy"]%string.

Definition trailing_stop : list pystr :=
  map u ["disculpa"; "disculpe"; "disculpen"; "perdón"; "perdon"; "perdona";
   "oye"; "oiga"; "mira"; "mire";
   "quisiera"; "quería"; "queria"; "necesito"; "quiero";
   "me"; "te"; "se"; "le"; "nos";
   "en"; "de"; "del"; "por"; "para"; "con";
   "una"; "un"; "la"; "el"; "lo"; "las"; "los";
   "favor"; "pregunta"; "consulta"; "duda";
   "buenos"; "buenas"; "buen"]%string.

(** [[0-9?¿!¡]] *)
Definition num_or_q (c : Z) : bool :=
  in_range c 48 57 || (c =? 63) || (c =? 191) || (c =? 33) || (c =? 161).

(** [\bPREFIX\s+(W+(?:\s+W+){0,n})\b] under [re.IGNORECASE]. *)
Definition name_pat (prefix : pystr) (n : nat) : rx :=
  let w := rplus (RSet name_letter_i) in
  rcat [RWordB; ilit prefix; rplus sp;
        RGrp 1 (rcat [w; rrep (rcat [rplus sp; w]) 0 n]); RWordB].

Definition name_patterns : list rx :=
  [name_pat (u "me llamo") 3; name_pat (u "soy") 3;
   name_pat (u "mi nombre es") 3; name_pat (u "con") 2].

Fixpoint pop_trailing (rw : list pystr) : list pystr :=
  match rw with
  | w :: r => if inb (lower w) trailing_stop then pop_trailing r else rw
  | [] => []
  end.

Definition cap_words (ws : list pystr) : pystr := join [32] (map capitalize ws).

(** The body of the loop over [patterns]: [Some res] once a pattern matched
    ([res] being the function's result), [None] to try the next pattern. *)
Fixpoint try_name_patterns (ps : list rx) (t : pystr) : option (option pystr) :=
  match ps with
  | [] => None
  | p :: ps' =>
      match search p t with
      | Some (_, _, cp) =>
          let name := strip (group_or_empty t cp 1) in
          let words := rev (pop_trailing (rev (split_ws name))) in
          match words with
          | [] => Some None
          | _ =>
              let name := join [32] words in
              if inb (lower name) name_bad then Some None
              else Some (Some (cap_words (split_ws name)))
          end
      | None => try_name_patterns ps' t
      end
  end.

Definition name_asking : list pystr :=
  map u ["tu nombre"; "cómo te llamas"; "como te llamas";
   "me compartes tu nombre"; "me das tu nombre";
   "a nombre de quién"; "a nombre de quien";
   "quién me busca"; "quien me busca";
   "nombre del interesado"; "nombre completo";
   "con quién tengo el gusto"; "con quien tengo el gusto"]%string.

(** The last line of the history that starts (after blanks) with ["A:"],
    lower-cased; [""] when there is none. *)
Definition last_bot_line (history : pystr) : pystr :=
  match find (fun l => prefixb (u "A:") (strip l)) (rev (split_char 10 history)) with
  | Some l => lower l
  | None => []
  end.

(** [^[A-Za-zÁÉÍÓÚÑÜáéíóúñü.]+$] *)
Definition alpha_word_pat : rx :=
  rcat [RBegin; rplus (RSet (fun c => name_letter c || (c =? 46))); REnd].

Definition _extract_name_from_text (text history : pystr) : option pystr :=
  let t := strip text in
  match t with
  | [] => None
  | _ =>
      if searchb (RSet num_or_q) t then None
      else
        match try_name_patterns name_patterns t with
        | Some res => res
        | None =>
            match history with
            | [] => None
            | _ =>
                if any_in name_asking (last_bot_line history) then
                  let words := split_ws t in
                  if Nat.leb 1 (List.length words) && Nat.leb (List.length words) 4
                     && forallb (matchb alpha_word_pat) words
                     && negb (inb (lower (hd [] words)) name_bad)
                  then Some (cap_words words)
                  else None
                else None
            end
        end
  end.

(** [_extract_payment_from_text] *)
Definition neg_pat (lead : pystr) (gap : nat) (alts : list pystr) : rx :=
  rcat [RWordB; lit lead; RWordB; rrep dot 0 gap; RWordB; RGrp 1 (words alts); RWordB].

Definition negation_patterns : list rx :=
  [neg_pat (u "no") 15 (map u ["crédito"; "credito"; "financiamiento"; "financiación"; "mensualidades"]%string);
   neg_pat (u "sin") 15 (map u ["crédito"; "credito"; "financiamiento"; "financiación"]%string);
   neg_pat (u "nada de") 10 (map u ["crédito"; "credito"; "financiamiento"]%string)].

Definition negation_patterns_contado : list rx :=
  [neg_pat (u "no") 15 [u "contado"; u "cash"];
   neg_pat (u "sin") 15 [u "contado"; u "cash"]].

Definition _extract_payment_from_text (text : pystr) : option pystr :=
  let msg := lower text in
  if existsb (fun p => searchb p msg) negation_patterns then Some (u "Contado")
  else if existsb (fun p => searchb p msg) negation_patterns_contado then Some (u "Crédito")
  else if any_in [u "contado"; u "cash"; u "de contado"] msg then Some (u "Contado")
  else if any_in (map u ["crédito"; "credito"; "financiamiento"; "financiación"; "mensualidades"]%string) msg
  then Some (u "Crédito")
  else None.

(** [_detect_disinterest] *)
Definition disinterest_phrases : list pystr :=
  map u ["no me interesa"; "ya no quiero"; "no gracias"; "no, gracias"; "cancela";
   "cancelar"; "ya no me interesa"; "no estoy interesado"; "no quiero nada";
   "dejen de escribirme"; "no me escriban"; "basta"]%string.

Definition _detect_disinterest (text : pystr) : bool :=
  match text with
  | [] => false
  | _ =>
      let t := strip text in
      if inb t [u "STOP"; u "BAJA"] then true
      else any_in disinterest_phrases (lower t)
  end.

(** [_extract_appointment_from_text] *)
Definition day_names : list pystr :=
  map u ["lunes"; "martes"; "miércoles"; "miercoles"; "jueves"; "viernes";
   "sábado"; "sabado"; "domingo"]%string.

Definition appt_day (t : pystr) : option pystr :=
  if contains (u "mañana") t then Some (u "Mañana")
  else
    match find (fun d => contains d t) day_names with
    | Some d => Some (replace (u "Sabado") (u "Sábado")
                        (replace (u "Miercoles") (u "Miércoles") (capitalize d)))
    | None => None
    end.

Definition y_media_pat : rx :=
  rcat [RWordB; RGrp 1 (rrep dig 1 2); rstar sp; lit (u "y"); rstar sp; lit (u "media"); RWordB].
Definition hh_mm_pat : rx :=
  rcat [RWordB; RGrp 1 (rrep dig 1 2); rstar sp; chr 58; rstar sp; RGrp 2 (rrep dig 2 2); RWordB].
Definition am_pm_pat : rx :=
  rcat [RWordB; RGrp 1 (rrep dig 1 2); rstar sp; RGrp 2 (words [u "am"; u "pm"]); RWordB].

Definition appt_time (t : pystr) : option pystr :=
  if any_in [u "medio dia"; u "mediodía"; u "medio día"] t then Some (u "12:00")
  else
  match search y_media_pat t with
  | Some (_, _, cp) => Some (z_str (digits_val (group_or_empty t cp 1)) ++ u ":30")
  | None =>
  match
    match search hh_mm_pat t with
    | Some (_, _, cp) =>
        let h := digits_val (group_or_empty t cp 1) in
        let mm := digits_val (group_or_empty t cp 2) in
        if in_range h 0 23 && in_range mm 0 59
        then Some (z_str h ++ [58] ++ z_str02 mm) else None
    | None => None
    end with
  | Some x => Some x
  | None =>
  match
    match search am_pm_pat t with
    | Some (_, _, cp) =>
        let h := digits_val (group_or_empty t cp 1) in
        if in_range h 1 12 then
          let hh := h mod 12 in
          let hh := if seqb (group_or_empty t cp 2) (u "pm") then hh + 12 else hh in
          Some (z_str hh ++ u ":00")
        else None
    | None => None
    end with
  | Some x => Some x
  | None =>
      if contains (u "en la tarde") t || contains (u "por la tarde") t then Some (u "(tarde)")
      else if contains (u "en la mañana") t || contains (u "por la mañana") t then Some (u "(mañana)")
      else if contains (u "en la noche") t || contains (u "por la noche") t then Some (u "(noche)")
      else None
  end end end.

Definition _pretty_time_24_to_12 (h24 : Z) (mm : pystr) : pystr :=
  if h24 =? 0 then u "12:" ++ mm ++ u " AM"
  else if in_range h24 1 11 then z_str h24 ++ [58] ++ mm ++ u " AM"
  else if h24 =? 12 then u "12:" ++ mm ++ u " PM"
  else z_str (h24 - 12) ++ [58] ++ mm ++ u " PM".

(** [\d{1,2}:\d{2}] *)
Definition clock_pat : rx := rcat [rrep dig 1 2; chr 58; rrep dig 2 2].

Definition pretty_time (ts : pystr) : pystr :=
  if fullmatchb clock_pat ts then
    _pretty_time_24_to_12 (digits_val (nth 0 (split_char 58 ts) []))
                          (nth 1 (split_char 58 ts) [])
  else ts.

Definition _extract_appointment_from_text (text : pystr) : option pystr :=
  let t := lower (strip text) in
  match t with
  | [] => None
  | _ =>
      match appt_day t, appt_time t with
      | Some d, Some ts => Some (d ++ [32] ++ pretty_time ts)
      | Some d, None => Some d
      | None, Some ts => Some (pretty_time ts)
      | None, None => None
      end
  end.

(** [_message_confirms_appointment] *)
Definition confirmations : list pystr :=
  map u ["vale"; "ok"; "okey"; "si"; "sí"; "listo"; "perfecto";
   "nos vemos"; "ahí nos vemos"; "mañana nos vemos";
   "de acuerdo"; "confirmo"; "gracias"; "está bien";
   "entendido"; "excelente"; "claro"; "bien"; "sale"]%string.

Definition _message_confirms_appointment (text : pystr) : bool :=
  let t := lower (strip text) in
  match t with [] => false | _ => inb t confirmations end.

(** Tokens of a normalized model name: [split()] pieces of two or more
    characters outside a noise set. *)
Definition model_tokens (noise : list pystr) (s : pystr) : list pystr :=
  filter (fun p => Nat.leb 2 (List.length p) && negb (inb p noise)) (split_ws s).

Definition _noise : list pystr :=
  map u ["foton"; "freightliner"; "camion"; "camión";
   "esta"; "este"; "estos"; "estas"; "estan"; "están";
   "gris"; "azul"; "rojo"; "negro"; "blanco"; "plata";
   "at"; "mt"; "diesel"]%string.

(** [_extract_interest_from_messages]: the score of one model. *)
Definition interest_score (msg_norm rep_norm : pystr) (toks : list pystr) : Z :=
  fold_left (fun sc tok =>
    sc + (if searchb (word_pat tok) msg_norm then 2 else 0)
       + (if searchb (word_pat tok) rep_norm then 1 else 0)) toks 0.

(** The loop over the items, from the state [(best, best_score)]. *)
Fixpoint interest_loop (msg_norm rep_norm : pystr) (items : list item)
    (best : option pystr) (best_score : Z) : option pystr * Z :=
  match items with
  | [] => (best, best_score)
  | it :: r =>
      let modelo := modelo_of it in
      match modelo with
      | [] => interest_loop msg_norm rep_norm r best best_score
      | _ =>
          let toks := model_tokens _noise (_normalize_spanish modelo) in
          match toks with
          | [] => interest_loop msg_norm rep_norm r best best_score
          | _ =>
              let score := interest_score msg_norm rep_norm toks in
              if best_score <? score
              then interest_loop msg_norm rep_norm r (Some modelo) score
              else interest_loop msg_norm rep_norm r best best_score
          end
      end
  end.

Definition _extract_interest_from_messages (user_message reply : pystr) (items : list item)
    : option pystr :=
  match items with
  | [] => None
  | _ =>
      let '(best, best_score) :=
        interest_loop (_normalize_spanish user_message) (_normalize_spanish reply) items None 0 in
      if 2 <=? best_score then best else None
  end.

(** The session context of [handle_message], with the keys the code reads
    or writes; [None] is an absent key (or a JSON [null], which every read
    treats the same way). *)
Record ctx := mkctx {
  c_history : option pystr;
  c_user_name : option pystr;
  c_last_interest : option pystr;
  c_last_appointment : option pystr;
  c_last_payment : option pystr;
  c_turn_count : option Z;
  c_photo_model : option pystr;
  c_photo_index : option Z;
  c_last_pdf_request_type : option pystr;
  c_funnel_stage : option pystr }.

Definition empty_ctx : ctx := mkctx None None None None None None None None None None.

(** [(context.get(k) or "").strip()] *)
Definition get_s (o : option pystr) : pystr :=
  match o with Some s => strip s | None => [] end.

Definition set_photo_model (m : pystr) (c : ctx) : ctx :=
  mkctx (c_history c) (c_user_name c) (c_last_interest c) (c_last_appointment c)
        (c_last_payment c) (c_turn_count c) (Some m) (c_photo_index c)
        (c_last_pdf_request_type c) (c_funnel_stage c).

Definition set_photo_index (i : Z) (c : ctx) : ctx :=
  mkctx (c_history c) (c_user_name c) (c_last_interest c) (c_last_appointment c)
        (c_last_payment c) (c_turn_count c) (c_photo_model c) (Some i)
        (c_last_pdf_request_type c) (c_funnel_stage c).

Definition set_funnel_stage (s : pystr) (c : ctx) : ctx :=
  mkctx (c_history c) (c_user_name c) (c_last_interest c) (c_last_appointment c)
        (c_last_payment c) (c_turn_count c) (c_photo_model c) (c_photo_index c)
        (c_last_pdf_request_type c) (Some s).

Definition set_pdf_type (s : pystr) (c : ctx) : ctx :=
  mkctx (c_history c) (c_user_name c) (c_last_interest c) (c_last_appointment c)
        (c_last_payment c) (c_turn_count c) (c_photo_model c) (c_photo_index c)
        (Some s) (c_funnel_stage c).

(** Python indexing [l[i]] ([None] is an [IndexError]) and slicing [l[a:b]]. *)
Definition py_getitem {A} (l : list A) (i : Z) : option A :=
  let n := Z.of_nat (List.length l) in
  if (0 <=? i) && (i <? n) then nth_error l (Z.to_nat i)
  else if (- n <=? i) && (i <? 0) then nth_error l (Z.to_nat (n + i))
  else None.

Definition py_slice {A} (l : list A) (a b : Z) : list A :=
  let n := Z.of_nat (List.length l) in
  let norm x := if x <? 0 then Z.max 0 (n + x) else Z.min x n in
  let a' := norm a in
  let b' := norm b in
  firstn (Z.to_nat (b' - a')) (skipn (Z.to_nat a') l).

(** [_pick_media_urls] *)
Definition gps_keywords : list pystr :=
  map u ["ubicacion"; "ubicación"; "donde estan"; "dónde están"; "direccion";
   "dirección"; "mapa"; "donde se ubican"]%string.

Definition gap_pat (l1 : list pystr) (l2 : list pystr) : rx :=
  rcat [RWordB; words l1; RWordB; rrep dot 0 10; RWordB; words l2; RWordB].

Definition explicit_photo_patterns : list rx :=
  [gap_pat (map u ["mandame"; "mándame"; "pasame"; "pásame"; "enviame"; "envíame";
                   "comparteme"; "compárteme"]%string)
           (map u ["foto"; "fotos"; "imagen"; "imagenes"; "imágenes"]%string);
   gap_pat [u "ver"; u "quiero"] (map u ["foto"; "fotos"; "imagen"; "imagenes"; "imágenes"]%string);
   gap_pat (map u ["enseñame"; "enséñame"; "muestrame"; "muéstrame"]%string) [u "foto"; u "fotos"];
   word_pat (u "fotos")].

Definition singular_photo_pat : rx :=
  rcat [RWordB; words (map u ["esta"; "esa"; "la"; "cual"; "cuál"]%string); rplus sp;
        lit (u "foto"); RWordB].

Definition context_photo_keywords : list pystr :=
  map u ["otra foto"; "mas fotos"; "más fotos"; "siguiente foto"; "otra imagen"]%string.

(** Whether the message asks for photos (step 2). *)
Definition photo_request (msg : pystr) (context : ctx) : bool :=
  let explicit_request :=
    existsb (fun p => searchb p msg) explicit_photo_patterns
    && negb (searchb singular_photo_pat msg) in
  let context_request :=
    negb (seqb (get_s (c_photo_model context)) []) && any_in context_photo_keywords msg in
  explicit_request || context_request.

Definition noise_words : list pystr :=
  map u ["foton"; "freightliner"; "camion"; "camión"; "esta"; "estan"; "están";
   "gris"; "azul"; "rojo"; "negro"; "blanco"; "plata"; "at"; "mt"; "diesel"]%string.

(** Priority A: [last_interest] mentioned in the message. *)
Definition target_a (msg : pystr) (last_interest : pystr) (items : list item)
    : option (item * pystr) :=
  match last_interest with
  | [] => None
  | _ =>
      let interest_norm := _normalize_spanish last_interest in
      let toks := model_tokens _noise interest_norm in
      if existsb (fun tok => searchb (word_pat tok) msg) toks then
        match find (fun it =>
                 let mn := _normalize_spanish (modelo_of it) in
                 seqb mn interest_norm || existsb (fun tok => contains tok mn) toks) items with
        | Some it => Some (it, modelo_of it)
        | None => None
        end
      else None
  end.

Definition score_b (msg rep_norm : pystr) (parts : list pystr) : Z :=
  fold_left (fun sc part =>
    sc + (if searchb (word_pat part) msg then 3 else 0)
       + (if searchb (word_pat part) rep_norm then 1 else 0)) parts 0.

(** Priority B: the loop over the items, from [(best_item, best_model, best_score)]. *)
Fixpoint loop_b (msg rep_norm : pystr) (items : list item)
    (best : option (item * pystr)) (best_score : Z) : option (item * pystr) * Z :=
  match items with
  | [] => (best, best_score)
  | it :: r =>
      let modelo := modelo_of it in
      match modelo with
      | [] => loop_b msg rep_norm r best best_score
      | _ =>
          let score := score_b msg rep_norm (model_tokens noise_words (_normalize_spanish modelo)) in
          if best_score <? score then loop_b msg rep_norm r (Some (it, modelo)) score
          else loop_b msg rep_norm r best best_score
      end
  end.

Definition target_b (msg rep_norm : pystr) (items : list item) : option (item * pystr) :=
  let '(best, best_score) := loop_b msg rep_norm items None 0 in
  if 3 <=? best_score then best else None.

(** Priority C: the item whose normalized model is the normalized [last_interest]. *)
Definition target_c (last_interest : pystr) (items : list item) : option (item * pystr) :=
  match last_interest with
  | [] => None
  | _ =>
      match find (fun it => seqb (_normalize_spanish (modelo_of it))
                                 (_normalize_spanish last_interest)) items with
      | Some it => Some (it, modelo_of it)
      | None => None
      end
  end.

(** [_pick_media_urls msg reply items context]: the photos and the context
    as the function leaves it; [None] is an uncaught [IndexError] (a
    negative cursor below [-len(urls)]). *)
(** [_pick_media_urls] after its first line [msg = _normalize_spanish(user_message)]. *)
Definition _pick_media_urls_norm (msg reply : pystr) (items : list item) (context : ctx)
    : option (list pystr * ctx) :=
  if any_in gps_keywords msg then Some ([], context)
  else
  match items with
  | [] => Some ([], context)
  | _ =>
  if negb (photo_request msg context) then Some ([], context)
  else
  let last_interest := get_s (c_last_interest context) in
  let current_photo_model := get_s (c_photo_model context) in
  let photo_index := match c_photo_index context with Some i => i | None => 0 end in
  let rep_norm := _normalize_spanish reply in
  let target :=
    match target_a msg last_interest items with
    | Some t => Some t
    | None =>
        match target_b msg rep_norm items with
        | Some t => Some t
        | None => target_c last_interest items
        end
    end in
  match target with
  | None => Some ([], context)
  | Some (target_item, target_model_name) =>
      let urls := _extract_photos_from_item target_item in
      match urls with
      | [] => Some ([], context)
      | _ =>
          let changed := negb (seqb (_normalize_spanish target_model_name)
                                    (_normalize_spanish current_photo_model)) in
          let photo_index := if changed then 0 else photo_index in
          let context := if changed then set_photo_model target_model_name context else context in
          let wants_next := any_in (map u ["otra"; "mas"; "más"; "siguiente"]%string) msg in
          let len := Z.of_nat (List.length urls) in
          let sel :=
            if wants_next then
              if photo_index <? len then
                match py_getitem urls photo_index with
                | Some x => Some ([x], photo_index + 1)
                | None => None
                end
              else Some ([hd [] urls], 1)
            else
              let end_index := Z.min (photo_index + 3) len in
              match py_slice urls photo_index end_index with
              | [] => let end_index := Z.min 3 len in
                      Some (py_slice urls 0 end_index, end_index)
              | selected => Some (selected, end_index)
              end in
          match sel with
          | None => None
          | Some (selected, idx) => Some (selected, set_photo_index idx context)
          end
      end
  end
  end.

Definition _pick_media_urls (user_message reply : pystr) (items : list item) (context : ctx)
    : option (list pystr * ctx) :=
  _pick_media_urls_norm (_normalize_spanish user_message) reply items context.

(** [_sanitize_reply_if_photos_attached] *)
Definition a_acc : rx := RSet (fun x => fold_eq 97 x || fold_eq 225 x).   (** [[aá]] *)

Definition iws (l : list pystr) : rx :=
  fold_right (fun w acc => match acc with REmpty => ilit w | _ => rcat [ilit w; rplus sp; acc] end)
             REmpty l.

Definition bad_phrases : list rx :=
  [iws [u "no"; u "puedo"; u "enviar"; u "fotos"];
   iws [u "no"; u "puedo"; u "mandar"; u "fotos"];
   iws [u "no"; u "tengo"; u "fotos"];
   rcat [iws [u "no"; u "puedo"; u "enviar"]; rplus sp; ilit (u "im"); a_acc; ilit (u "genes")];
   rcat [iws [u "no"; u "puedo"; u "mandar"]; rplus sp; ilit (u "im"); a_acc; ilit (u "genes")];
   iws [u "soy"; u "una"; u "ia"];
   iws [u "soy"; u "un"; u "modelo"]].

Definition _sanitize_reply_if_photos_attached (reply : pystr) (media_urls : list pystr) : pystr :=
  match media_urls with
  | [] => reply
  | _ => fold_left (fun cl p => sub_lit p (u "Claro, aquí tienes.") cl) bad_phrases reply
  end.

(** [_strip_markdown_links]: [\[([^\]]+)\]\((https?://[^\)]+)\)] becomes [\2]. *)
Definition md_link_pat : rx :=
  rcat [chr 91; RGrp 1 (rplus (RSet (fun c => negb (c =? 93)))); chr 93; chr 40;
        RGrp 2 (rcat [lit (u "http"); ropt (chr 115); lit (u "://");
                      rplus (RSet (fun c => negb (c =? 41)))]); chr 41].

Definition _strip_markdown_links (text : pystr) : pystr :=
  match text with
  | [] => text
  | _ => sub md_link_pat (fun full cp => group_or_empty full cp 2) text
  end.

(** The photo-promise check of [handle_message] (run when no media). *)
Definition photo_promise_patterns : list rx :=
  [rcat [ilit (u "aqu"); RSet (fun x => fold_eq 105 x || fold_eq 237 x); rplus sp; ilit (u "tienes")];
   rcat [ilit (u "te"); rplus sp; iwords (map u ["mando"; "envío"; "comparto"]%string); rplus sp;
         ropt (rcat [ilit (u "las"); rplus sp]); ilit (u "fotos")]].

(** [^(Adrian|Asesor|Bot)\s*:\s*] under [re.IGNORECASE] *)
Definition prefix_pat : rx :=
  rcat [RBegin; RGrp 1 (iwords [u "Adrian"; u "Asesor"; u "Bot"]); rstar sp; chr 58; rstar sp].

(** [```json\s*({.*?})\s*```] under [re.DOTALL | re.IGNORECASE] *)
Definition json_block_pat : rx :=
  rcat [ilit (u "```json"); rstar sp; RGrp 1 (rcat [chr 123; rlazy_star anyc; chr 125]);
        rstar sp; ilit (u "```")].

(** [_detect_pdf_request].  The financing data ([data/financing.json], read
    once by [_load_financing_data]) is a list of entries with the fields the
    function reads; [anio] is already an integer. *)
Record finfo := mkfinfo {
  f_nombre : pystr;
  f_anio : Z;
  f_pdf_ficha_tecnica : option pystr;
  f_pdf_corrida : option pystr }.

Inductive pdf_kind :=
| PdfSinModelo
| PdfSinDatos
| PdfSinPdf (modelo : pystr)
| PdfUrl (pdf_url filename mensaje modelo : pystr).

Record pdf_info := mkpdf { p_tipo : pystr; p_kind : pdf_kind }.

Definition action_verbs : list pystr :=
  map u ["mandame"; "mándame"; "mandala"; "mándala"; "mandamela"; "mándamela";
   "pasame"; "pásame"; "pasala"; "pásala"; "pasamela"; "pásamela";
   "enviame"; "envíame"; "enviala"; "envíala"; "enviamela"; "envíamela";
   "comparteme"; "compárteme"; "compartela"; "compártela";
   "dame"; "dámela"; "la quiero"; "si la quiero"; "sí la quiero";
   "quiero ver"; "quiero la"]%string.

Definition ficha_keywords_direct : list pystr :=
  map u ["ficha"; "fiche"; "fixa"; "ficah"; "ficha tecnica"; "ficha técnica";
   "hoja tecnica"; "hoja técnica"; "datos tecnicos"; "datos técnicos"; "specs"]%string.

Definition corrida_keywords_direct : list pystr :=
  map u ["corrida"; "corrda"; "corida"; "simulacion"; "simulación";
   "tabla de pagos"; "mensualidades pdf"]%string.

Definition corrida_keywords_ambiguous : list pystr :=
  map u ["financiamiento"; "especificaciones"; "caracteristicas"; "características";
   "pagos mensuales"; "plan de pagos"; "cuotas"]%string.

Definition pdf_type_of (msg : pystr) (context : ctx) : option pystr :=
  let has_action_verb := any_in action_verbs msg in
  let t1 :=
    if any_in ficha_keywords_direct msg then Some (u "ficha")
    else if any_in corrida_keywords_direct msg then Some (u "corrida")
    else None in
  let t2 :=
    match t1 with
    | Some _ => t1
    | None =>
        if has_action_verb then
          if any_in (map u ["especificaciones"; "caracteristicas"; "características"]%string) msg
          then Some (u "ficha")
          else if any_in corrida_keywords_ambiguous msg then Some (u "corrida")
          else None
        else None
    end in
  match t2 with
  | Some _ => t2
  | None =>
      if any_in (map u ["foto"; "fotos"; "imagen"; "imagenes"; "imágenes"; "video"; "videos"]%string) msg
      then None
      else
        match c_last_pdf_request_type context with
        | Some ((_ :: _) as lt) => if has_action_verb then Some lt else None
        | _ => None
        end
  end.

Fixpoint nodup_s (l : list pystr) : list pystr :=
  match l with
  | [] => []
  | x :: r => if inb x r then nodup_s r else x :: nodup_s r
  end.

Definition pdf_score (interest_norm last_interest : pystr) (key : pystr) (info : finfo) : Z :=
  let key_tokens := split_ws (replace [95] [32] (lower key)) in
  let nombre_tokens := split_ws (lower (f_nombre info)) in
  let all_tokens := nodup_s (key_tokens ++ nombre_tokens) in
  let sc := Z.of_nat (List.length (filter (fun tk =>
              Nat.leb 2 (List.length tk) && negb (inb tk [u "foton"; u "freightliner"])
              && contains tk interest_norm) all_tokens)) in
  let year_str := z_str (f_anio info) in
  if contains year_str interest_norm || contains year_str last_interest then sc + 3 else sc.

(** The matching loop, from [(matched, best_score, best_year)]. *)
Fixpoint pdf_match (interest_norm last_interest : pystr) (data : list (pystr * finfo))
    (matched : option finfo) (best_score best_year : Z) : option finfo :=
  match data with
  | [] => matched
  | (key, info) :: r =>
      let score := pdf_score interest_norm last_interest key info in
      let anio := f_anio info in
      if (2 <=? score) &&
         (match matched with None => true | Some _ => false end
          || (best_score <? score) || ((score =? best_score) && (best_year <? anio)))
      then pdf_match interest_norm last_interest r (Some info) score anio
      else pdf_match interest_norm last_interest r matched best_score best_year
  end.

Definition nonempty (o : option pystr) : option pystr :=
  match o with Some (_ :: _) => o | _ => None end.

Definition _detect_pdf_request (data : list (pystr * finfo)) (user_message last_interest : pystr)
    (context : ctx) : option pdf_info :=
  let msg := lower user_message in
  match pdf_type_of msg context with
  | None => None
  | Some pdf_type =>
      match last_interest with
      | [] => Some (mkpdf pdf_type PdfSinModelo)
      | _ =>
          match data with
          | [] => Some (mkpdf pdf_type PdfSinDatos)
          | _ =>
              let interest_norm :=
                strip (replace (u "4x4") [] (replace (u "diesel") []
                  (replace (u "freightliner") [] (replace (u "foton") [] (lower last_interest))))) in
              match pdf_match interest_norm last_interest data None 0 0 with
              | None => Some (mkpdf pdf_type PdfSinModelo)
              | Some mi =>
                  let nm := replace [32] [95] (f_nombre mi) in
                  let modelo := f_nombre mi ++ [32] ++ z_str (f_anio mi) in
                  if seqb pdf_type (u "ficha") then
                    match nonempty (f_pdf_ficha_tecnica mi) with
                    | None => Some (mkpdf pdf_type (PdfSinPdf (f_nombre mi)))
                    | Some url => Some (mkpdf pdf_type (PdfUrl url
                        (u "Ficha_Tecnica_" ++ nm ++ [95] ++ z_str (f_anio mi) ++ u ".pdf")
                        (u "Claro, te comparto la ficha tecnica en PDF.") modelo))
                    end
                  else
                    match nonempty (f_pdf_corrida mi) with
                    | None => Some (mkpdf pdf_type (PdfSinPdf (f_nombre mi)))
                    | Some url => Some (mkpdf pdf_type (PdfUrl url
                        (u "Corrida_Financiamiento_" ++ nm ++ [95] ++ z_str (f_anio mi) ++ u ".pdf")
                        (u "Listo, te comparto la simulacion de financiamiento en PDF. Es ilustrativa e incluye intereses.")
                        modelo))
                    end
              end
          end
      end
  end.

(** The dictionary returned by [handle_message]; [funnel_stage],
    [is_disinterest] and [pdf_info] are absent ([None]) on the two early
    returns.  ([funnel_data], a copy of fields already in [context], is not
    modelled.) *)
Record result := mkres {
  r_reply : pystr;
  r_new_state : pystr;
  r_context : ctx;
  r_media_urls : list pystr;
  r_lead_info : option jdict;
  r_funnel_stage : option pystr;
  r_is_disinterest : option bool;
  r_pdf_info : option pdf_info }.

(** [x if x else d] for an optional string result. *)
Definition or_keep (o : option pystr) (d : pystr) : pystr :=
  match o with Some ((_ :: _) as x) => x | _ => d end.

Definition apology : pystr := u "Dame un momento, estoy consultando sistema...".
Definition silence_reply : pystr := u "Perfecto. Modo silencio activado.".
Definition no_photos_reply : pystr :=
  u "Por el momento no tengo fotos de ese modelo en sistema. Un asesor te las puede compartir.".

(** [if not str(candidate.get(k, "")).strip() and v: candidate[k] = v] *)
Definition inject (k v : pystr) (cd : jdict) : jdict :=
  if seqb (strip (get_str k cd)) [] && negb (seqb v []) then dict_set k (JStr v) cd else cd.

(** The [try] block after a successful LLM call with text [raw_reply]:
    the reply, the (possibly inferred) interest and the lead from the JSON
    block. *)
Definition after_llm (items : list item) (user_message raw_reply : pystr)
    (saved_name last_interest last_appointment last_payment : pystr)
    : pystr * pystr * option jdict :=
  let last_interest :=
    or_keep (_extract_interest_from_messages user_message raw_reply items) last_interest in
  match search json_block_pat raw_reply with
  | None => (raw_reply, last_interest, None)
  | Some (b, e, cp) =>
      let reply_clean := strip (replace (slice raw_reply b e) [] raw_reply) in
      match json_loads (group_or_empty raw_reply cp 1) with
      | None => (reply_clean, last_interest, None)
      | Some payload =>
          let candidate := match payload with JObj d => dict_get (u "lead_event") d | _ => None end in
          match candidate with
          | Some (JObj cd) =>
              let cd := inject (u "nombre") saved_name cd in
              let cd := inject (u "interes") last_interest cd in
              let cd := inject (u "cita") last_appointment cd in
              let cd := inject (u "pago") last_payment cd in
              (reply_clean, last_interest, if _lead_is_valid cd then Some cd else None)
          | _ => (reply_clean, last_interest, None)
          end
      end
  end.

Definition failsafe_candidate (saved_name last_interest last_appointment last_payment : pystr) : jdict :=
  [(u "nombre", JStr saved_name); (u "interes", JStr last_interest);
   (u "cita", JStr last_appointment); (u "pago", JStr (Monday.or_str last_payment (u "Por definir")))].

(** The MONDAY FAILSAFE block. *)
Definition failsafe (user_message saved_name last_interest last_appointment last_payment : pystr)
    (lead_info : option jdict) : option jdict :=
  match lead_info with
  | Some _ => lead_info
  | None =>
      let candidate := failsafe_candidate saved_name last_interest last_appointment last_payment in
      if _lead_is_valid candidate then Some candidate
      else if negb (seqb saved_name []) && negb (seqb last_interest []) && negb (seqb last_appointment []) then
        if _message_confirms_appointment user_message || Nat.leb (List.length (strip user_message)) 15 then
          let candidate :=
            dict_set (u "pago") (JStr (Monday.or_str (get_str (u "pago") candidate) (u "Por definir"))) candidate in
          if _lead_is_valid candidate then Some candidate else None
        else None
      else None
  end.

(** [handle_message].  [llm] is the outcome of [_llm_call_with_fallback]:
    [None] when it raises (both providers exhausted, or no choice in the
    response), [Some content] otherwise.  Building the prompt only feeds the
    LLM and is not modelled.  [None] as result is an exception escaping
    [handle_message]. *)
Definition handle_message (items : list item) (fin : list (pystr * finfo))
    (llm : option pystr) (user_message state : pystr) (context : ctx) : option result :=
  let history := get_s (c_history context) in
  if seqb (lower (strip user_message)) (u "/silencio") then
    let new_history := strip (history ++ (10 :: u "C: ") ++ user_message ++ (10 :: u "A: ") ++ silence_reply) in
    Some (mkres silence_reply (u "silent")
                (mkctx (Some (lastn 4000 new_history)) None None None None None None None None None)
                [] None None None None)
  else if seqb state (u "silent") then
    Some (mkres [] (u "silent") context [] None None None None)
  else
  let saved_name := get_s (c_user_name context) in
  let last_interest := get_s (c_last_interest context) in
  let last_appointment := get_s (c_last_appointment context) in
  let last_payment := get_s (c_last_payment context) in
  let turn_count := match c_turn_count context with Some n => n + 1 | None => 1 end in
  let saved_name := or_keep (_extract_name_from_text user_message history) saved_name in
  let last_payment := or_keep (_extract_payment_from_text user_message) last_payment in
  let last_appointment := or_keep (_extract_appointment_from_text user_message) last_appointment in
  let '(reply_clean, last_interest, lead_info) :=
    match llm with
    | None => (apology, last_interest, None)
    | Some raw_reply =>
        after_llm items user_message raw_reply saved_name last_interest last_appointment last_payment
    end in
  let reply_clean := strip (sub prefix_pat (fun _ _ => []) (strip reply_clean)) in
  let new_context :=
    mkctx (Some (lastn 4000 (strip (history ++ (10 :: u "C: ") ++ user_message ++ (10 :: u "A: ") ++ reply_clean))))
          (Some saved_name) (Some last_interest) (Some last_appointment) (Some last_payment)
          (Some turn_count) (c_photo_model context)
          (Some (match c_photo_index context with Some i => i | None => 0 end))
          (c_last_pdf_request_type context) None in
  match _pick_media_urls user_message reply_clean items new_context with
  | None => None
  | Some (media_urls, new_context) =>
  let reply_clean := _sanitize_reply_if_photos_attached reply_clean media_urls in
  let reply_clean :=
    match media_urls with
    | [] =>
        if any_in (map u ["foto"; "fotos"; "imagen"; "imágenes"; "imagenes"]%string) (lower user_message)
           && existsb (fun p => searchb p reply_clean) photo_promise_patterns
        then no_photos_reply else reply_clean
    | _ => reply_clean
    end in
  let reply_clean := _strip_markdown_links reply_clean in
  let lead_info := failsafe user_message saved_name last_interest last_appointment last_payment lead_info in
  let funnel_stage := if seqb last_interest [] then Monday.s_contacto else Monday.s_intencion in
  let funnel_stage := if seqb last_appointment [] then funnel_stage else Monday.s_cita in
  let is_disinterest := _detect_disinterest user_message in
  let funnel_stage := if is_disinterest then Monday.s_sin_interes else funnel_stage in
  let new_context := set_funnel_stage funnel_stage new_context in
  let pdf := _detect_pdf_request fin user_message last_interest new_context in
  let '(reply_clean, funnel_stage, new_context) :=
    match pdf with
    | None => (reply_clean, funnel_stage, new_context)
    | Some pi =>
        let new_context :=
          if seqb (p_tipo pi) [] then new_context else set_pdf_type (p_tipo pi) new_context in
        match p_kind pi with
        | PdfUrl _ _ mensaje _ =>
            if negb (seqb funnel_stage Monday.s_sin_interes)
               && inb funnel_stage [Monday.s_contacto; Monday.s_intencion]
            then (mensaje, Monday.s_cotizacion, set_funnel_stage Monday.s_cotizacion new_context)
            else (mensaje, funnel_stage, new_context)
        | _ => (reply_clean, funnel_stage, new_context)
        end
    end in
  Some (mkres reply_clean (u "chatting") new_context media_urls lead_info
              (Some funnel_stage) (Some is_disinterest) pdf)
  end.

End Conv.

(* ================================================================== *)
(** ** [main.py]: the event pipeline *)
Module Main.

Import Conv.

(** A value of [silenced_users]: a deadline ([time.time() + ...]) or [True]. *)
Inductive silence := SilUntil (t : Z) | SilTrue.

(** The part of [GlobalState] that the pipeline reads and writes; the
    session store is in [store] ([store.get] / [store.upsert]). *)
Record gstate := mkg {
  processed_message_ids : Dedup.bset;
  processed_lead_ids : Dedup.bset;
  silenced_users : list (pystr * silence);
  bot_sent_message_ids : Dedup.bset;
  bot_sent_texts : list (pystr * list pystr);
  last_bot_message_time : list (pystr * Z);
  store : list (pystr * (pystr * ctx)) }.

Definition GlobalState (store0 : list (pystr * (pystr * ctx))) : gstate :=
  mkg (Dedup.init 4000) (Dedup.init 8000) [] (Dedup.init 2000) [] [] store0.

(** Observable effects: a POST to the Evolution API (number, text or
    caption, media URL), a session write, a Monday [create_lead] call. *)
Inductive effect :=
| EPost (number text : pystr) (media : option pystr)
| EStoreUpsert (jid state : pystr) (c : ctx)
| ECreateLead (lead : jdict).

(** A state-and-effects monad with exceptions: [None] is an exception
    escaping, with the state and the effects reached so far. *)
Definition M (A : Type) := gstate * list effect -> option A * (gstate * list effect).

Definition ret {A} (a : A) : M A := fun s => (Some a, s).
Definition raise {A} : M A := fun s => (None, s).
Definition bind {A B} (m : M A) (f : A -> M B) : M B :=
  fun s => match m s with (Some a, s') => f a s' | (None, s') => (None, s') end.
Definition get : M gstate := fun s => (Some (fst s), s).
Definition modify (f : gstate -> gstate) : M unit := fun s => (Some tt, (f (fst s), snd s)).
Definition emit (e : effect) : M unit := fun s => (Some tt, (fst s, snd s ++ [e])).

Notation "x <- m ;; k" := (bind m (fun x => k)) (at level 61, m at next level, right associativity).
Notation "m ;;; k" := (bind m (fun _ => k)) (at level 61, right associativity).

Definition set_pm b g := mkg b (processed_lead_ids g) (silenced_users g) (bot_sent_message_ids g)
  (bot_sent_texts g) (last_bot_message_time g) (store g).
Definition set_pl b g := mkg (processed_message_ids g) b (silenced_users g) (bot_sent_message_ids g)
  (bot_sent_texts g) (last_bot_message_time g) (store g).
Definition set_sil x g := mkg (processed_message_ids g) (processed_lead_ids g) x (bot_sent_message_ids g)
  (bot_sent_texts g) (last_bot_message_time g) (store g).
Definition set_bsent b g := mkg (processed_message_ids g) (processed_lead_ids g) (silenced_users g) b
  (bot_sent_texts g) (last_bot_message_time g) (store g).
Definition set_btexts x g := mkg (processed_message_ids g) (processed_lead_ids g) (silenced_users g)
  (bot_sent_message_ids g) x (last_bot_message_time g) (store g).
Definition set_btime x g := mkg (processed_message_ids g) (processed_lead_ids g) (silenced_users g)
  (bot_sent_message_ids g) (bot_sent_texts g) x (store g).
Definition set_store x g := mkg (processed_message_ids g) (processed_lead_ids g) (silenced_users g)
  (bot_sent_message_ids g) (bot_sent_texts g) (last_bot_message_time g) x.

(** [BoundedOrderedSet.add] on one of the sets of the state. *)
Definition add_to (sel : gstate -> Dedup.bset) (upd : Dedup.bset -> gstate -> gstate)
    (key : pystr) : M unit :=
  g <- get ;;
  match Dedup.add key (sel g) with
  | Some b => modify (upd b)
  | None => raise
  end.

Fixpoint dict_del {V} (k : pystr) (d : list (pystr * V)) : list (pystr * V) :=
  match d with
  | [] => []
  | (k', v) :: r => if seqb k k' then r else (k', v) :: dict_del k r
  end.

(** [deque(maxlen=10).append(x)] *)
Definition deque_append (x : pystr) (q : list pystr) : list pystr :=
  if Nat.leb 10 (List.length q) then tl q ++ [x] else q ++ [x].

Definition endswith (suf s : pystr) : bool := prefixb (rev suf) (rev s).

(** [_clean_phone_or_jid] *)
Definition _clean_phone_or_jid (value : pystr) : pystr := filter isdigit value.

(** [_extract_user_message] on the [message] object ([str] fields). *)
Definition str_field (k : pystr) (d : jdict) : pystr :=
  match dict_get k d with Some (JStr s) => s | _ => [] end.

Definition _extract_user_message (msg_obj : jdict) : pystr * bool :=
  match dict_get (u "conversation") msg_obj with
  | Some _ => (str_field (u "conversation") msg_obj, false)
  | None =>
  match dict_get (u "extendedTextMessage") msg_obj with
  | Some v => (match v with JObj e => str_field (u "text") e | _ => [] end, false)
  | None =>
  match dict_get (u "imageMessage") msg_obj with
  | Some v => (Monday.or_str (match v with JObj e => str_field (u "caption") e | _ => [] end)
                             (u "(Envió una foto)"), false)
  | None =>
      match dict_get (u "audioMessage") msg_obj, dict_get (u "pttMessage") msg_obj with
      | None, None => ([], false)
      | _, _ => ([], true)
      end
  end end end.

(** [_message_looks_human] *)
Definition emoji_patterns : list pystr :=
  map u ["😊"; "👍"; "🙏"; "💪"; "🚚"; "✅"; "❤️"; "🔥"; "👌"; "😉"; "😅"; "🤝"; "📞"; "📱"; "🎉"; "💯"]%string.

Definition human_phrases : list pystr :=
  map u ["un momento"; "déjame verificar"; "déjame revisar"; "te marco"; "te llamo";
   "te hablo"; "estoy revisando"; "dame un segundo"; "aquí adrian"; "soy adrian";
   "con adrian"; "te contacto"; "te escribo"; "ahora te"; "espérame"; "un sec"]%string.

Definition human_typos : list pystr :=
  map u ["aver"; "haber si"; "ps si"; "nel"; "simon"; "sisas"; "ok ok"; "oks"]%string.

Definition _message_looks_human (text : pystr) : bool :=
  match text with
  | [] => false
  | _ => any_in emoji_patterns text || any_in human_phrases (lower text)
         || any_in human_typos (lower text)
  end.

Section Pipeline.

(** [time.time()] during the event, and the settings used. *)
Variable now : Z.
Variable AUTO_REACTIVATE_MINUTES HUMAN_DETECTION_WINDOW_SECONDS : Z.
Variable OWNER_PHONE : pystr.

(** The Evolution API's answer to a POST (number, text, media): [Some
    (status, key.id)], or [None] when the request raises. *)
Variable evo_answer : pystr -> pystr -> option pystr -> option (Z * option pystr).

(** [_handle_audio_transcription msg_id remote_jid] *)
Variable transcribe : pystr -> pystr -> pystr.

(** The outcome of [await store.get(jid)]: [None] when it raises.  The
    store of [src/memory_store.py] is synchronous, so awaiting its result
    raises [TypeError]; an asynchronous store answers [Some] with the
    stored session, if any. *)
Variable store_get : list (pystr * (pystr * ctx)) -> pystr -> option (option (pystr * ctx)).

(** [handle_message user_message inventory state context] with the
    catalog and LLM of the moment (e.g. [Conv.handle_message items fin llm]);
    [None] when it raises. *)
Variable handle : pystr -> pystr -> ctx -> option result.

(** [_is_bot_message] *)
Definition _is_bot_message (g : gstate) (remote_jid msg_id msg_text : pystr) : bool :=
  (negb (seqb msg_id []) && Dedup.mem msg_id (bot_sent_message_ids g))
  || match dict_get remote_jid (bot_sent_texts g) with
     | Some recent => inb msg_text recent
     | None => false
     end
  || (now - match dict_get remote_jid (last_bot_message_time g) with Some t => t | None => 0 end
      <? HUMAN_DETECTION_WINDOW_SECONDS).

(** [bot_state.bot_sent_message_ids.add(msg_id)] inside its [try ... except: pass]. *)
Definition track_id (mid : option pystr) : M unit :=
  match mid with
  | Some ((_ :: _) as m) =>
      g <- get ;;
      match Dedup.add m (bot_sent_message_ids g) with
      | Some b => modify (set_bsent b)
      | None => ret tt
      end
  | _ => ret tt
  end.

(** The photo loop of [send_evolution_message]: [false] once a request
    raised (the [try] then ends). *)
Fixpoint send_media (clean text : pystr) (urls : list pystr) : M bool :=
  match urls with
  | [] => ret true
  | url :: r =>
      let caption := match r with [] => text | _ => [] end in
      emit (EPost clean caption (Some url)) ;;;
      match evo_answer clean caption (Some url) with
      | None => ret false
      | Some (status, mid) =>
          (if 400 <=? status then ret tt else track_id mid) ;;;
          send_media clean text r
      end
  end.

(** [send_evolution_message] *)
Definition send_evolution_message (number_or_jid text : pystr) (media_urls : list pystr) : M unit :=
  let text := strip text in
  match text, media_urls with
  | [], [] => ret tt
  | _, _ =>
      let clean := _clean_phone_or_jid number_or_jid in
      match clean with
      | [] => ret tt
      | _ =>
          match media_urls with
          | _ :: _ => send_media clean text media_urls ;;; ret tt
          | [] =>
              emit (EPost clean text None) ;;;
              match evo_answer clean text None with
              | None => ret tt
              | Some (status, mid) =>
                  if 400 <=? status then ret tt
                  else
                    let jid := clean ++ u "@s.whatsapp.net" in
                    track_id mid ;;;
                    g <- get ;;
                    let q := match dict_get jid (bot_sent_texts g) with Some q => q | None => [] end in
                    modify (set_btexts (dict_set jid (deque_append text q) (bot_sent_texts g))) ;;;
                    g <- get ;;
                    modify (set_btime (dict_set jid now (last_bot_message_time g)))
              end
          end
      end
  end.

Definition notify_keywords : list pystr :=
  map u ["precio"; "cuanto"; "cuánto"; "interesa"; "verlo"; "ubicacion"; "ubicación";
   "dónde"; "donde"; "trato"; "comprar"; "informes"; "info"]%string.

(** [notify_owner] *)
Definition notify_owner (jid user_message bot_reply : pystr) (is_lead : bool) : M unit :=
  match OWNER_PHONE with
  | [] => ret tt
  | _ =>
      let clean_client := _clean_phone_or_jid jid in
      if is_lead then
        send_evolution_message OWNER_PHONE
          (u "*NUEVO LEAD EN MONDAY*" ++ [10; 10] ++ u "Cliente: wa.me/" ++ clean_client ++ [10]
           ++ u "El bot cerró una cita. Revisa el tablero.") []
      else if any_in notify_keywords (lower user_message) then
        send_evolution_message OWNER_PHONE
          (u "*Interés Detectado*" ++ [10] ++ u "Cliente: wa.me/" ++ clean_client ++ [10]
           ++ u "Dijo: " ++ [34] ++ user_message ++ [34; 10]
           ++ u "Bot: " ++ [34] ++ firstn 60 bot_reply ++ u "..." ++ [34]) []
      else ret tt
  end.

(** An inbound event: [key.remoteJid], [key.fromMe], [key.id] and [message]. *)
Record event := mkev {
  ev_remote_jid : pystr;
  ev_from_me : bool;
  ev_msg_id : pystr;
  ev_message : jdict }.

Definition lead_key (remote_jid msg_id : pystr) : pystr :=
  remote_jid ++ u "|" ++ msg_id ++ u "|lead".

(** [try: m except Exception: pass] *)
Definition catch (m : M unit) : M unit :=
  fun s => match m s with (None, s') => (Some tt, s') | r => r end.

(** The lead block at the end of [process_single_event]. *)
Definition emit_lead (remote_jid msg_id user_message reply_text : pystr) (lead : jdict) : M unit :=
  catch (
    let key := lead_key remote_jid msg_id in
    g <- get ;;
    if Dedup.mem key (processed_lead_ids g) then ret tt
    else
      add_to processed_lead_ids set_pl key ;;;
      let lead := dict_set (u "external_id") (JStr msg_id)
                    (dict_set (u "telefono") (JStr (hd [] (split_char 64 remote_jid))) lead) in
      emit (ECreateLead lead) ;;;
      notify_owner remote_jid user_message reply_text true).

(** [process_single_event] (the inventory refresh and the typing delay,
    which change nothing here, are left out). *)
Definition process_single_event (ev : event) : M unit :=
  let remote_jid := strip (ev_remote_jid ev) in
  let msg_id := strip (ev_msg_id ev) in
  match remote_jid with
  | [] => ret tt
  | _ =>
  if endswith (u "@g.us") remote_jid || contains (u "broadcast") remote_jid then ret tt
  else
  g <- get ;;
  if negb (seqb msg_id []) && Dedup.mem msg_id (processed_message_ids g) then ret tt
  else
  (if seqb msg_id [] then ret tt else add_to processed_message_ids set_pm msg_id) ;;;
  if ev_from_me ev then
    let msg_text := strip (fst (_extract_user_message (ev_message ev))) in
    g <- get ;;
    if _is_bot_message g remote_jid msg_id msg_text then ret tt
    else if _message_looks_human msg_text then
      modify (fun g => set_sil (dict_set remote_jid (SilUntil (now + AUTO_REACTIVATE_MINUTES * 60))
                                         (silenced_users g)) g)
    else ret tt
  else
  g <- get ;;
  (* [isinstance(True, int)] holds, so [True] takes the numeric branch
     with value 1 and the [is True] branch is never reached. *)
  let silenced :=
    match dict_get remote_jid (silenced_users g) with
    | Some v => let t := match v with SilUntil t => t | SilTrue => 1 end in
                if now <? t then Some true else Some false
    | None => None
    end in
  match silenced with
  | Some true => ret tt
  | _ =>
  (match silenced with
   | Some false => modify (fun g => set_sil (dict_del remote_jid (silenced_users g)) g)
   | _ => ret tt
   end) ;;;
  let '(user_message, is_audio) := _extract_user_message (ev_message ev) in
  let user_message := strip user_message in
  let user_message := if seqb user_message [] && is_audio then transcribe msg_id remote_jid
                      else user_message in
  if seqb user_message [] && is_audio then
    send_evolution_message remote_jid
      (u "Tuve un problema escuchando el audio. ¿Me lo puedes escribir o mandar de nuevo?") []
  else if seqb user_message [] then ret tt
  else if seqb (lower user_message) (u "/silencio") then
    modify (fun g => set_sil (dict_set remote_jid SilTrue (silenced_users g)) g) ;;;
    send_evolution_message remote_jid (u "Bot desactivado. Un asesor humano te atenderá en breve.") [] ;;;
    match OWNER_PHONE with
    | [] => ret tt
    | _ =>
        send_evolution_message OWNER_PHONE
          (u "*HANDOFF ACTIVADO*" ++ [10; 10] ++ u "El chat con wa.me/"
           ++ hd [] (split_char 64 remote_jid) ++ u " ha sido pausado." ++ [10]
           ++ u "El bot NO responderá hasta que el cliente envíe '/activar'.") []
    end
  else if seqb (lower user_message) (u "/activar") then
    modify (fun g => set_sil (dict_del remote_jid (silenced_users g)) g) ;;;
    send_evolution_message remote_jid (u "Bot activado de nuevo. ¿En qué te ayudo?") []
  else
  g <- get ;;
  match store_get (store g) remote_jid with
  | None => raise
  | Some found =>
  let '(state, context) := match found with Some s => s | None => (u "start", empty_ctx) end in
  let res := match handle user_message state context with
             | Some r => r
             | None => mkres (u "Dame un momento...") state context [] None None None None
             end in
  let reply_text := strip (r_reply res) in
  emit (EStoreUpsert remote_jid (r_new_state res) (r_context res)) ;;;
  modify (fun g => set_store (dict_set remote_jid (r_new_state res, r_context res) (store g)) g) ;;;
  send_evolution_message remote_jid reply_text (r_media_urls res) ;;;
  match r_lead_info res with
  | Some ((_ :: _) as lead) => emit_lead remote_jid msg_id user_message reply_text lead
  | _ => notify_owner remote_jid user_message reply_text false
  end
  end
  end
  end.

End Pipeline.
End Main.

(* ================================================================== *)
(** ** [inventory_service.py]: [_clean_price], [_clean_cell] and the row
    normalisation of [InventoryService.load] *)
Module Inventory.

(** [_clean_price(value)] *)
Definition _clean_price (value : jval) : pystr :=
  match value with
  | JNull => []
  | _ =>
      let s := strip (py_str value) in
      let s2 := strip (replace (u ",") [] (replace (u "$") [] s)) in
      match s2 with [] => s | _ => s2 end
  end.

(** [_clean_cell(v)] *)
Definition _clean_cell (v : jval) : pystr :=
  strip (match v with JNull => [] | _ => py_str v end).

(** A row of [csv.DictReader]: header to cell, in column order; the key of
    the extra fields is [None] and their cell a list, a missing field is
    [None]. *)
Definition csv_row := list (jval * jval).

(** [{ _clean_cell(k): _clean_cell(v) for k, v in (row or {}).items() }] *)
Definition clean_row (row : csv_row) : list (pystr * pystr) :=
  fold_left (fun d kv => Monday.dict_set (_clean_cell (fst kv)) (_clean_cell (snd kv)) d) row [].

(** [row.get(k, default)] *)
Definition row_get (row : list (pystr * pystr)) (k default : pystr) : pystr :=
  match Monday.dict_get k row with Some v => v | None => default end.

Definition accepted_status : list pystr :=
  map u ["disponible"; "available"; "1"; "si"; "sí"; "yes"]%string.

(** One pass of the loop of [load]: [None] for a row it skips ([continue]). *)
Definition normalize_row (raw : csv_row) : option Conv.item :=
  let row := clean_row raw in
  let status := lower (strip (row_get row (u "status") [])) in
  if negb (seqb status []) && negb (inb status accepted_status) then None
  else Some [(u "Marca", row_get row (u "Marca") (u "Foton"));
             (u "Modelo", row_get row (u "Modelo") []);
             (u "Año", row_get row (u "Año") (row_get row (u "Anio") []));
             (u "Precio", _clean_price (JStr (row_get row (u "Precio")
                            (row_get row (u "Precio Distribuidor")
                               (row_get row (u " Precio Distribuidor") [])))));
             (u "photos", row_get row (u "photos") [])].

(** The loop of [load] over the rows read: [normalized.append(item)]. *)
Definition load_rows (rows : list csv_row) : list Conv.item :=
  fold_left (fun normalized raw =>
               match normalize_row raw with
               | Some it => normalized ++ [it]
               | None => normalized
               end) rows [].

End Inventory.

(* ================================================================== *)
(** ** Sample inputs *)
Module Samples.
Import Monday Conv.

Definition demo_cfg : config :=
  mkconfig (Some (u "dedupe")) None None (Some (u "stage")) None None None.

Definition demo_lead : lead_data :=
  mklead (Some (u "5215512345678")) (Some (u "Juan")) (Some (u "MSG1"))
         (Some (u "Tunland G9")) (Some (u "Contado")) None None.

Definition demo_existing : option found_item :=
  Some (mkfound (u "42") s_cotizacion).

(** A configuration with all seven columns. *)
Definition demo_cfg_full : config :=
  mkconfig (Some (u "dedupe")) (Some (u "msgid")) (Some (u "phone")) (Some (u "stage"))
           (Some (u "vehicle")) (Some (u "payment")) (Some (u "appt")).

(** A lead with no payment method. *)
Definition demo_lead_nopay : lead_data :=
  mklead (Some (u "+52 1 55 1234 5678")) (Some (u "Ana")) (Some (u "MSG2"))
         (Some (u "Foton Tunland G9 diesel")) None (Some (u "mañana 10am"))
         (Some [(u "date", u "2026-10-19"); (u "time", u "10:00:00")]).

End Samples.

(* ================================================================== *)
(** ** Predicates used in the statements *)
Module Props.
Import Conv.

(** Whether [handle_message] takes its message as the [/silencio] command. *)
Definition is_silence_cmd (msg : pystr) : bool := seqb (lower (strip msg)) (u "/silencio").

(** The stored photo cursor is absent or non-negative. *)
Definition photo_index_ok (c : ctx) : bool :=
  match c_photo_index c with Some i => 0 <=? i | None => true end.

(** The score [_extract_interest_from_messages] gives one item, on the
    normalized message and reply; [None] for an item it skips (no model, or
    no token left after the noise filter). *)
Definition interest_item_score (msg_norm rep_norm : pystr) (it : item) : option Z :=
  match modelo_of it with
  | [] => None
  | modelo =>
      match model_tokens _noise (_normalize_spanish modelo) with
      | [] => None
      | toks => Some (interest_score msg_norm rep_norm toks)
      end
  end.

(** A score, when there is one, is below [s] (resp. at most [s]). *)
Definition score_below (o : option Z) (s : Z) : Prop :=
  match o with None => True | Some t => t < s end.

Definition score_atmost (o : option Z) (s : Z) : Prop :=
  match o with None => True | Some t => t <= s end.

(** The interest extraction as the spec words it, for comparison with the
    code: the same token scores plus [3] when the item's year
    ([Anio]/[Año]/[anio]) occurs as a word of the user text. *)
Definition year_of (it : item) : pystr :=
  strip (_safe_get it [u "Anio"; u "Año"; u "anio"] []).

Fixpoint interest_loop_with_year (msg_norm rep_norm : pystr) (items : list item)
    (best : option pystr) (best_score : Z) : option pystr * Z :=
  match items with
  | [] => (best, best_score)
  | it :: r =>
      match interest_item_score msg_norm rep_norm it with
      | None => interest_loop_with_year msg_norm rep_norm r best best_score
      | Some s =>
          let y := year_of it in
          let score := s + (match y with
                            | [] => 0
                            | _ => if searchb (word_pat y) msg_norm then 3 else 0
                            end) in
          if best_score <? score
          then interest_loop_with_year msg_norm rep_norm r (Some (modelo_of it)) score
          else interest_loop_with_year msg_norm rep_norm r best best_score
      end
  end.

Definition extract_interest_with_year (user_message reply : pystr) (items : list item)
    : option pystr :=
  match items with
  | [] => None
  | _ =>
      let '(best, best_score) :=
        interest_loop_with_year (_normalize_spanish user_message)
          (_normalize_spanish reply) items None 0 in
      if 2 <=? best_score then best else None
  end.

(** A partial table of code points Python's [str.isalpha] accepts: the
    class of [_lead_is_valid], the Latin-1 letters, the basic Greek and
    Cyrillic letters and the CJK ideographs U+4E00..U+9FA5. *)
Definition alpha_sample (c : Z) : bool :=
  name_letter c || in_range c 192 214 || in_range c 216 246 || in_range c 248 255
  || in_range c 913 929 || in_range c 931 937 || in_range c 945 969
  || in_range c 1040 1103 || in_range c 19968 40869.

(** The validity predicate as the spec words it, for comparison with the
    code, over a test [is_alpha] for an alphabetic character. *)
Definition lead_is_valid_spec (is_alpha : Z -> bool) (lead : jdict) : bool :=
  let nombre := strip (get_str (u "nombre") lead) in
  let interes := strip (get_str (u "interes") lead) in
  let cita := strip (get_str (u "cita") lead) in
  Nat.leb 3 (List.length nombre) && negb (inb (lower nombre) placeholders)
  && existsb is_alpha nombre
  && Nat.leb 2 (List.length interes) && Nat.leb 2 (List.length cita).

End Props.

(* ================================================================== *)
(** ** Sample catalogue and sessions *)
Module SampleConv.
Import Conv.

Definition g9 : item :=
  [(u "Modelo", u "Tunland G9"); (u "Año", u "2025");
   (u "photos", u "http://a/1.jpg|http://a/2.jpg|http://a/3.jpg|http://a/4.jpg")].

Definition g7 : item :=
  [(u "Modelo", u "Tunland G7"); (u "Año", u "2024"); (u "photos", u "http://b/1.jpg")].

Definition demo_items : list item := [g9; g7].

(** A session on its fifth turn. *)
Definition ctx_turn4 : ctx :=
  mkctx (Some (u "C: hola")) (Some (u "Juan Pérez")) None None None (Some 4) None None None None.

(** A session that already knows the name, the interest and the appointment. *)
Definition ctx_lead : ctx :=
  mkctx (Some (u "C: hola")) (Some (u "Juan Pérez")) (Some (u "Tunland G9"))
        (Some (u "Lunes 4:00 PM")) None (Some 4) None None None None.

(** A Tunland G9 with three photos. *)
Definition g9_3 : item :=
  [(u "Modelo", u "Tunland G9"); (u "Año", u "2025");
   (u "photos", u "http://c/1.jpg|http://c/2.jpg|http://c/3.jpg")].

(** A session interested in the Tunland G9, with no photo cursor. *)
Definition ctx_g9 : ctx :=
  mkctx (Some (u "C: hola")) None (Some (u "Tunland G9")) None None (Some 2) None None None None.

(** The same session after a first page of three G9 photos. *)
Definition ctx_g9_at3 : ctx :=
  mkctx (Some (u "C: hola")) None (Some (u "Tunland G9")) None None (Some 3)
        (Some (u "Tunland G9")) (Some 3) None None.

(** A lead whose name is written in Chinese characters only. *)
Definition lead_cjk : jdict :=
  [(u "nombre", Json.JStr (u "李小龙")); (u "interes", Json.JStr (u "Tunland G9"));
   (u "cita", Json.JStr (u "Lunes 4:00 PM"))].

(** A complete lead. *)
Definition lead_ok : jdict :=
  [(u "nombre", Json.JStr (u "  Juan Pérez ")); (u "interes", Json.JStr (u "Tunland G9"));
   (u "cita", Json.JStr (u "Lunes 4:00 PM"))].

End SampleConv.

(* ================================================================== *)
(** ** Pipeline predicates and samples *)
Module MainProps.
Import Conv Main.

(** An action that leaves [processed_message_ids] as it found it. *)
Definition pm_keep {A} (m : M A) : Prop :=
  forall s o s', m s = (o, s') -> processed_message_ids (fst s') = processed_message_ids (fst s).

(** The events [process_single_event] drops before the dedup check. *)
Definition early_drop (ev : event) : bool :=
  match strip (ev_remote_jid ev) with
  | [] => true
  | j => endswith (u "@g.us") j || contains (u "broadcast") j
  end.

(** An Evolution API that accepts every POST. *)
Definition demo_evo (n t : pystr) (m : option pystr) : option (Z * option pystr) :=
  Some (200, Some (u "BOT1")).

(** A session store answering from the stored sessions. *)
Definition demo_store_get (st : list (pystr * (pystr * ctx))) (j : pystr) : option (option (pystr * ctx)) :=
  Some (dict_get j st).

(** A customer's text message, its id padded with spaces. *)
Definition demo_event : event :=
  mkev (u "5215512345678@s.whatsapp.net") false (u " MSG1 ")
       [(u "conversation", JStr (u "hola, quiero info de la tunland g9"))].

(** An action whose every run [s] to [s'] satisfies [R s s']. *)
Definition pres (R : gstate * list effect -> gstate * list effect -> Prop) {A} (m : M A) : Prop :=
  forall s o s', m s = (o, s') -> R s s'.


(** The effect is a WhatsApp post. *)
Definition is_post (e : effect) : Prop := exists n t m, e = EPost n t m.

(** The effects only grow, by posts. *)
Definition posts_only (s s' : gstate * list effect) : Prop :=
  exists l, snd s' = snd s ++ l /\ Forall is_post l.

(** The chat of [demo_event]. *)
Definition demo_jid : pystr := u "5215512345678@s.whatsapp.net".

(** The initial state with [demo_jid] silenced until [t]. *)
Definition silenced_until (t : Z) : gstate :=
  set_sil [(demo_jid, SilUntil t)] (GlobalState []).

(** A human-looking message sent from the business phone. *)
Definition ev_me : event :=
  mkev demo_jid true (u "BOTX") [(u "conversation", JStr (u "te llamo en un momento"))].

End MainProps.

(* ================================================================== *)
(** * Proofs *)

Module StrFacts.

Lemma seqb_eq : forall a b, seqb a b = true <-> a = b.
Proof.
  intros a b; unfold seqb; destruct (list_eq_dec Z.eq_dec a b); split;
    congruence.
Qed.

Lemma seqb_refl : forall a, seqb a a = true.
Proof. intros a; apply seqb_eq; reflexivity. Qed.

Lemma seqb_neq : forall a b, seqb a b = false <-> a <> b.
Proof.
  intros a b; unfold seqb; destruct (list_eq_dec Z.eq_dec a b); split;
    congruence.
Qed.

Lemma lstrip_head s c r : lstrip s = c :: r -> isspace c = false.
Proof.
  induction s as [|x t IH]; simpl; [discriminate|].
  destruct (isspace x) eqn:E; [exact IH|]. intros H; injection H as <- _; exact E.
Qed.

Lemma lstrip_snoc l c : isspace c = false -> exists l', lstrip (l ++ [c]) = l' ++ [c].
Proof.
  intros Hc. induction l as [|x t IH]; simpl.
  - rewrite Hc. exists []. reflexivity.
  - destruct (isspace x); [exact IH|]. exists (x :: t). reflexivity.
Qed.

Lemma lstrip_idem s : lstrip (lstrip s) = lstrip s.
Proof.
  induction s as [|x t IH]; simpl; [reflexivity|].
  destruct (isspace x) eqn:E; [exact IH|]. simpl. rewrite E. reflexivity.
Qed.

(** [s.strip().strip() == s.strip()] *)
Lemma strip_idem s : strip (strip s) = strip s.
Proof.
  assert (Hl : forall t, (forall c r, t = c :: r -> isspace c = false) ->
               lstrip (rstrip t) = rstrip t).
  { intros [|c r] Ht; [reflexivity|].
    pose proof (Ht c r eq_refl) as Hc.
    unfold rstrip. simpl. destruct (lstrip_snoc (rev r) c Hc) as [l' ->].
    rewrite rev_app_distr. simpl. rewrite Hc. reflexivity. }
  unfold strip at 1 2. rewrite Hl by (intros c r E; exact (lstrip_head s c r E)).
  unfold rstrip. rewrite rev_involutive, lstrip_idem. reflexivity.
Qed.

End StrFacts.

Module DedupFacts.
Import Dedup.

Lemma add_wf : forall k b,
  (0 < maxlen b)%nat -> (List.length (data b) <= maxlen b)%nat ->
  exists b', add k b = Some b' /\ maxlen b' = maxlen b
             /\ (List.length (data b') <= maxlen b')%nat.
Proof.
  intros k [d n] Hpos Hle; simpl in *; unfold add, mem; simpl.
  destruct (inb k d).
  - exists (mkbset d n); auto.
  - destruct (Nat.leb n (List.length d)) eqn:E.
    + apply Nat.leb_le in E.
      destruct d as [|x r]; simpl in *; [lia|].
      eexists; split; [reflexivity|]; simpl; split; [reflexivity|].
      rewrite length_app; simpl; lia.
    + apply Nat.leb_gt in E.
      eexists; split; [reflexivity|]; simpl; split; [reflexivity|].
      rewrite length_app; simpl; lia.
Qed.

(** C8: the dedup sets are bounded FIFO sets.  From an empty set of any
    positive capacity (the [GlobalState] capacities are 4000, 8000 and 2000),
    every sequence of insertions succeeds and keeps the size within the
    capacity; and inserting a key that is not present into a full set
    removes exactly the front (oldest-inserted) key and appends the new key
    at the back. *)
Theorem bounded_set_fifo :
  forall (n : nat), (0 < n)%nat ->
    (forall keys, exists b, add_all keys (init n) = Some b
                            /\ maxlen b = n /\ (List.length (data b) <= n)%nat) /\
    (forall b k, maxlen b = n -> List.length (data b) = n -> mem k b = false ->
       exists oldest rest, data b = oldest :: rest
                           /\ add k b = Some (mkbset (rest ++ [k]) n)).
Proof.
  intros n Hn; split.
  - intros keys.
    assert (G : forall ks b, maxlen b = n -> (List.length (data b) <= n)%nat ->
              exists b', add_all ks b = Some b' /\ maxlen b' = n
                         /\ (List.length (data b') <= n)%nat).
    { induction ks as [|k ks IH]; intros b Hm Hl; simpl.
      - exists b; auto.
      - destruct (add_wf k b) as [b' [Ha [Hm' Hl']]]; try lia.
        rewrite Ha; apply IH; lia. }
    apply G; simpl; lia.
  - intros [d m] k Hm Hl Hmem; simpl in *; subst m.
    unfold add; rewrite Hmem; simpl.
    destruct d as [|x r]; simpl in *; [lia|].
    exists x, r; split; [reflexivity|].
    replace (Nat.leb n (S (List.length r))) with true
      by (symmetry; apply Nat.leb_le; lia).
    reflexivity.
Qed.

Lemma bounded_set_fifo_witness :
  (0 < 4000)%nat /\
  exists b, add_all [u "a"; u "b"; u "a"] (init 4000) = Some b /\ maxlen b = 4000%nat
            /\ (List.length (data b) <= 4000)%nat.
Proof.
  split; [lia|].
  apply (proj1 (bounded_set_fifo 4000 ltac:(lia))).
Defined.

(** C10: [add] of a key already present returns the set unchanged. *)
Theorem add_present_unchanged :
  forall k b, mem k b = true -> add k b = Some b.
Proof. intros k b H; unfold add; rewrite H; reflexivity. Qed.

Lemma add_present_unchanged_witness :
  mem (u "m1") (mkbset [u "m0"; u "m1"] 2) = true
  /\ add (u "m1") (mkbset [u "m0"; u "m1"] 2) = Some (mkbset [u "m0"; u "m1"] 2).
Proof.
  split; [reflexivity|].
  apply add_present_unchanged; reflexivity.
Defined.

End DedupFacts.

Module MondayFacts.
Import Samples.
Import Monday StrFacts.

(** Discharges a membership of an operation in a list of other operations. *)
Ltac not_in H :=
  simpl in H; repeat (destruct H as [H|H]; [discriminate|]); contradiction.

(** Case analysis on the branches of the program text inside [H]. *)
Ltac cases_in H :=
  repeat match type of H with
  | context [if ?b then _ else _] => destruct b
  | context [match ?x with Some _ => _ | None => _ end] => destruct x
  | context [match ?x with [] => _ | _ :: _ => _ end] => destruct x
  end.

Lemma dict_get_set : forall {V} c c' (v : V) d,
  dict_get c (dict_set c' v d) = if seqb c c' then Some v else dict_get c d.
Proof.
  intros V c c' v d; induction d as [|[k w] r IH]; simpl.
  - unfold dict_get; simpl; destruct (seqb c c'); reflexivity.
  - destruct (seqb c' k) eqn:E.
    + apply seqb_eq in E; subst k.
      unfold dict_get; simpl; destruct (seqb c c'); reflexivity.
    + unfold dict_get in *; simpl.
      destruct (seqb c k) eqn:E2; [|exact IH].
      apply seqb_eq in E2; subst k.
      destruct (seqb c c') eqn:E3; [|reflexivity].
      apply seqb_eq in E3; subst c'; rewrite seqb_refl in E; discriminate.
Qed.

Lemma dict_get_set_if_other : forall {V} c col b (v : V) d,
  col <> Some c -> dict_get c (set_if col b v d) = dict_get c d.
Proof.
  intros V c col b v d H; unfold set_if.
  destruct col as [c'|]; [|reflexivity].
  destruct b; [|reflexivity].
  rewrite dict_get_set.
  destruct (seqb c c') eqn:E; [|reflexivity].
  apply seqb_eq in E; subst; congruence.
Qed.

Lemma build_stage_get : forall resolve cfg lead stage is_new cur c,
  stage_col_id cfg = Some c -> stage_col_distinct cfg ->
  dict_get c (_build_column_values resolve cfg lead stage is_new cur)
  = stage_entry cfg stage is_new cur.
Proof.
  intros resolve cfg lead stage is_new cur c Hc Hd.
  destruct (Hd c Hc) as (H1 & H2 & H3 & H4 & H5 & H6).
  unfold _build_column_values.
  rewrite !dict_get_set_if_other by assumption.
  rewrite Hc.
  destruct (stage_entry cfg stage is_new cur) as [v|].
  - rewrite dict_get_set, seqb_refl; reflexivity.
  - rewrite !dict_get_set_if_other by assumption; reflexivity.
Qed.

(** C1: funnel-stage writes of the CRM upsert.  On an existing record the
    update writes the stage column only with the candidate stage, and only
    when it is "Sin Interes" or ranks strictly above the stored stage (so the
    stored rank never decreases except through the "Sin Interes" override);
    a record whose stored stage is terminal ("Venta Cerrada", "Venta Caida",
    "Sin Interes") is never updated or renamed: a new item is created. *)
Theorem upsert_stage_rule :
  forall resolve cfg existing group_id created_id lead stage add_note ops res c,
    stage_col_id cfg = Some c -> stage_col_distinct cfg ->
    create_or_update_lead resolve cfg existing group_id created_id lead stage add_note
      = (ops, res) ->
    (forall i vals l, In (OpUpdate i vals) ops -> dict_get c vals = Some (CLabel l) ->
       exists it, existing = Some it /\ is_terminal (current_stage it) = false
                  /\ i = item_id it /\ l = get_or [] stage
                  /\ (l = s_sin_interes \/ stage_rank (current_stage it) < stage_rank l)) /\
    (forall it, existing = Some it -> is_terminal (current_stage it) = true ->
       (forall i v, ~ In (OpUpdate i v) ops) /\ (forall i v, ~ In (OpRename i v) ops) /\
       (_sanitize_phone (get_or [] (telefono lead)) <> [] ->
          exists nm vals, In (OpCreate nm group_id vals) ops /\ res = created_id)).
Proof.
  intros resolve cfg existing group_id created_id lead stage add_note ops res c
         Hc Hd Hrun.
  unfold create_or_update_lead in Hrun.
  destruct (_sanitize_phone (get_or [] (telefono lead))) as [|p ps] eqn:Hp.
  { injection Hrun as <- <-; split.
    - intros i vals l [].
    - intros it _ _; repeat split; try (intros ? ? []). intros H; congruence. }
  destruct existing as [it|].
  - unfold decide in Hrun.
    destruct (is_terminal (current_stage it)) eqn:Ht.
    + (* terminal: new cycle *)
      simpl in Hrun.
      destruct created_id as [[|x xs]|]; injection Hrun as <- <-; split;
        try (intros i vals l Hin; not_in Hin);
        intros it' Heq _; injection Heq as Heq; subst it'; repeat split;
        try (intros i v Hin; not_in Hin);
        intros _; (do 2 eexists; split; [left; reflexivity|reflexivity]).
    + simpl in Hrun.
      set (cv := _build_column_values resolve cfg lead (or_str (get_or [] stage) [])
                   false (current_stage it)) in Hrun.
      injection Hrun as Hops Hres.
      split.
      * intros i vals l Hin Hget; subst ops.
        apply in_app_or in Hin; destruct Hin as [Hin|Hin].
        -- apply in_app_or in Hin; destruct Hin as [Hin|Hin].
           ++ destruct cv as [|e es] eqn:Ecv; [destruct Hin|].
              destruct Hin as [Hin|[]]; injection Hin as <- <-.
              rewrite <- Ecv in Hget; unfold cv in Hget.
              rewrite build_stage_get in Hget by assumption.
              assert (Hst : or_str (get_or [] stage) [] = get_or [] stage)
                by (destruct (get_or [] stage); reflexivity).
              rewrite Hst in Hget.
              unfold stage_entry in Hget; rewrite Hc in Hget.
              exists it; repeat split; auto.
              { destruct (get_or [] stage) as [|z zs]; [discriminate|].
                destruct (seqb (z :: zs) s_sin_interes) eqn:Es.
                - injection Hget as <-; reflexivity.
                - destruct (_should_advance_stage (current_stage it) (z :: zs));
                    [injection Hget as <-; reflexivity|discriminate]. }
              { destruct (get_or [] stage) as [|z zs]; [discriminate|].
                destruct (seqb (z :: zs) s_sin_interes) eqn:Es.
                - injection Hget as <-; left; apply seqb_eq; exact Es.
                - unfold _should_advance_stage in Hget.
                  destruct (stage_rank (current_stage it) <? stage_rank (z :: zs)) eqn:Er;
                    [|discriminate].
                  injection Hget as <-; right; apply Z.ltb_lt; exact Er. }
           ++ cases_in Hin; not_in Hin.
        -- cases_in Hin; not_in Hin.
      * intros it' Heq Ht'; injection Heq as Heq; subst it'; congruence.
  - simpl in Hrun.
    destruct created_id as [[|x xs]|]; injection Hrun as <- <-; split;
      try (intros i vals l Hin; not_in Hin);
      intros it' Heq; discriminate.
Qed.

Lemma upsert_stage_rule_witness :
  let r := create_or_update_lead (fun _ => []) demo_cfg demo_existing None None
             demo_lead (Some s_intencion) None in
  stage_col_id demo_cfg = Some (u "stage") /\ stage_col_distinct demo_cfg /\
  ((forall i vals l, In (OpUpdate i vals) (fst r) ->
      dict_get (u "stage") vals = Some (CLabel l) ->
      exists it, demo_existing = Some it /\ is_terminal (current_stage it) = false
                 /\ i = item_id it /\ l = get_or [] (Some s_intencion)
                 /\ (l = s_sin_interes \/ stage_rank (current_stage it) < stage_rank l)) /\
   (forall it, demo_existing = Some it -> is_terminal (current_stage it) = true ->
      (forall i v, ~ In (OpUpdate i v) (fst r)) /\ (forall i v, ~ In (OpRename i v) (fst r)) /\
      (_sanitize_phone (get_or [] (telefono demo_lead)) <> [] ->
         exists nm vals, In (OpCreate nm None vals) (fst r) /\ snd r = None))).
Proof.
  intros r.
  assert (Hd : stage_col_distinct demo_cfg).
  { intros c Hc; simpl in Hc; injection Hc as <-; simpl;
      repeat split; discriminate. }
  split; [reflexivity|]; split; [exact Hd|].
  apply (upsert_stage_rule (fun _ => []) demo_cfg demo_existing None None demo_lead
           (Some s_intencion) None (fst r) (snd r) (u "stage")); try reflexivity.
  exact Hd.
Defined.

End MondayFacts.

(* ------------------------------------------------------------------ *)
Module ConvFacts.
Import Samples Conv StrFacts Props SampleConv.

(** Case analysis on the [if]s and [match]es of an unfolded definition in
    hypothesis [H]; a scrutinee already a constructor is left to [cbv]. *)
Ltac not_ctor x :=
  lazymatch x with
  | Some _ => fail | None => fail | nil => fail | cons _ _ => fail
  | true => fail | false => fail | pair _ _ => fail | _ => idtac end.

Ltac dif H :=
  match type of H with
  | context [if ?b then _ else _] => not_ctor b; let E := fresh "E" in destruct b eqn:E
  | context [match ?x with _ => _ end] => not_ctor x; let E := fresh "E" in destruct x eqn:E
  end; cbv beta iota in H.

Lemma pick_unfold : forall msg rep items c,
  _pick_media_urls msg rep items c = _pick_media_urls_norm (_normalize_spanish msg) rep items c.
Proof. reflexivity. Qed.

Lemma pick_spec : forall msg rep items c m c',
  _pick_media_urls msg rep items c = Some (m, c') ->
  (m = [] /\ c' = c) \/
  (photo_request (_normalize_spanish msg) c = true /\
   exists i, c' = set_photo_index i c \/ exists nm, c' = set_photo_index i (set_photo_model nm c)).
Proof.
  intros msg rep items c m c' H.
  rewrite pick_unfold in H; generalize dependent (_normalize_spanish msg); intros nm H; unfold _pick_media_urls_norm in H; cbv zeta in H.
  repeat dif H; try discriminate H; injection H as <- <-.
  all: (match goal with
   | |- _ \/ _ /\ exists _, set_photo_index ?z (set_photo_model ?p _) = _ \/ _ =>
       right; split; [| exists z; right; exists p; reflexivity]
   | |- _ \/ _ /\ exists _, set_photo_index ?z _ = _ \/ _ =>
       right; split; [| exists z; left; reflexivity]
   | _ => left; split; reflexivity
   end).
  all: (match goal with E : negb (photo_request _ _) = false |- _ =>
    apply Bool.negb_false_iff in E; exact E end).
Qed.

Lemma py_getitem_in : forall {A} (l : list A) i,
  0 <= i -> i < Z.of_nat (List.length l) -> py_getitem l i <> None.
Proof.
  intros A l i H0 H1. unfold py_getitem.
  replace ((0 <=? i) && (i <? Z.of_nat (Datatypes.length l)))%bool with true
    by (symmetry; apply andb_true_intro; split; [apply Z.leb_le | apply Z.ltb_lt]; lia).
  rewrite nth_error_None. lia.
Qed.

Lemma pick_total : forall msg rep items c,
  (forall i, c_photo_index c = Some i -> 0 <= i) ->
  _pick_media_urls msg rep items c <> None.
Proof.
  intros msg rep items c Hi H.
  rewrite pick_unfold in H; generalize dependent (_normalize_spanish msg); intros nm H;
  unfold _pick_media_urls_norm in H; cbv zeta in H.
  repeat dif H; try discriminate H.
  all: try (match goal with E : context [py_slice ?l ?a ?b] |- _ =>
         destruct (py_slice l a b); discriminate E end).
  all: match goal with E : context [py_getitem ?l ?i] |- _ =>
         destruct (py_getitem l i) eqn:G; [cbv beta iota in E; discriminate E|]; revert G;
         apply py_getitem_in; [| apply Z.ltb_lt; assumption] end.
  all: destruct (c_photo_index c) eqn:Ec; first [lia | exact (Hi _ eq_refl)].
Qed.

Lemma main_path : forall items fin llm msg st c r,
  seqb (lower (strip msg)) (u "/silencio") = false -> seqb st (u "silent") = false ->
  handle_message items fin llm msg st c = Some r ->
  exists rc li lead media nc',
    match llm with
    | None => (apology, get_s (c_last_interest c), None)
    | Some raw => after_llm items msg raw
        (or_keep (_extract_name_from_text msg (get_s (c_history c))) (get_s (c_user_name c)))
        (get_s (c_last_interest c))
        (or_keep (_extract_appointment_from_text msg) (get_s (c_last_appointment c)))
        (or_keep (_extract_payment_from_text msg) (get_s (c_last_payment c)))
    end = (rc, li, lead) /\
    _pick_media_urls msg (strip (sub prefix_pat (fun _ _ => []) (strip rc))) items
      (mkctx (Some (lastn 4000 (strip (get_s (c_history c) ++ (10 :: u "C: ") ++ msg ++ (10 :: u "A: ")
                   ++ strip (sub prefix_pat (fun _ _ => []) (strip rc))))))
         (Some (or_keep (_extract_name_from_text msg (get_s (c_history c))) (get_s (c_user_name c))))
         (Some li)
         (Some (or_keep (_extract_appointment_from_text msg) (get_s (c_last_appointment c))))
         (Some (or_keep (_extract_payment_from_text msg) (get_s (c_last_payment c))))
         (Some (match c_turn_count c with Some n => n + 1 | None => 1 end))
         (c_photo_model c)
         (Some (match c_photo_index c with Some i => i | None => 0 end))
         (c_last_pdf_request_type c) None)
    = Some (media, nc') /\
    r_new_state r = u "chatting" /\
    r_media_urls r = media /\
    r_lead_info r =
      failsafe msg (or_keep (_extract_name_from_text msg (get_s (c_history c))) (get_s (c_user_name c)))
        li (or_keep (_extract_appointment_from_text msg) (get_s (c_last_appointment c)))
        (or_keep (_extract_payment_from_text msg) (get_s (c_last_payment c))) lead /\
    c_turn_count (r_context r) = c_turn_count nc' /\
    (r_reply r =
       _strip_markdown_links
         (match media with
          | [] =>
              if (any_in (map u ["foto"; "fotos"; "imagen"; "imágenes"; "imagenes"]%string) (lower msg)
                 && existsb (fun p => searchb p (_sanitize_reply_if_photos_attached
                      (strip (sub prefix_pat (fun _ _ => []) (strip rc))) media)) photo_promise_patterns)%bool
              then no_photos_reply
              else _sanitize_reply_if_photos_attached (strip (sub prefix_pat (fun _ _ => []) (strip rc))) media
          | _ => _sanitize_reply_if_photos_attached (strip (sub prefix_pat (fun _ _ => []) (strip rc))) media
          end)
     \/ exists pi a b m d, r_pdf_info r = Some pi /\ p_kind pi = PdfUrl a b m d /\ r_reply r = m).
Proof.
  intros items fin llm msg st c r H1 H2 H.
  unfold handle_message in H. rewrite H1, H2 in H. cbv zeta in H.
  destruct (match llm with Some _ => _ | None => _ end) as [[rc li] lead] eqn:Ellm.
  exists rc, li, lead.
  destruct (_pick_media_urls _ _ _ _) as [[media nc']|] eqn:Ep; [|discriminate H].
  exists media, nc'. split; [reflexivity|]. split; [reflexivity|].
  destruct (_detect_pdf_request _ _ _ _) as [pi|] eqn:Epdf.
  - destruct (p_kind pi) eqn:Ek; cbv beta iota in H.
    all: destruct (seqb (p_tipo pi) []); try destruct (negb _ && _)%bool.
    all: injection H as <-; cbn [r_new_state r_media_urls r_lead_info r_context r_reply r_pdf_info].
    all: split; [reflexivity|]; split; [reflexivity|]; split; [reflexivity|];
         split; [reflexivity|].
    all: match goal with
         | Ek : p_kind ?pi = PdfUrl ?a ?b ?m ?d |- _ =>
             right; exists pi, a, b, m, d; split; [reflexivity|]; split; [exact Ek|reflexivity]
         | _ => left; reflexivity
         end.
  - injection H as <-; cbn [r_new_state r_media_urls r_lead_info r_context r_reply r_pdf_info].
    split; [reflexivity|]; split; [reflexivity|]; split; [reflexivity|];
    split; [reflexivity|]. left; reflexivity.
Qed.


Lemma handle_some : forall items fin llm msg st c,
  seqb (lower (strip msg)) (u "/silencio") = false -> seqb st (u "silent") = false ->
  (forall i, c_photo_index c = Some i -> 0 <= i) ->
  exists r, handle_message items fin llm msg st c = Some r.
Proof.
  intros items fin llm msg st c H1 H2 Hi.
  unfold handle_message. rewrite H1, H2. cbv zeta.
  destruct (match llm with Some _ => _ | None => _ end) as [[rc li] lead].
  destruct (_pick_media_urls _ _ _ _) as [[media nc']|] eqn:Ep.
  - destruct (_detect_pdf_request _ _ _ _) as [pi|]; [|eexists; reflexivity].
    destruct (p_kind pi); cbv beta iota;
      destruct (seqb (p_tipo pi) []); try destruct (negb _ && _)%bool; eexists; reflexivity.
  - exfalso; revert Ep; apply pick_total.
    intros i; cbn [c_photo_index]; intros E; injection E as <-.
    destruct (c_photo_index c) eqn:Ec; [exact (Hi _ eq_refl) | lia].
Qed.


(** C9: in the silent state, any message other than the [/silencio]
    command gets an empty reply, state ["silent"], no media, no lead, and
    the context exactly as it was given (no field updated). *)
Theorem silent_state_frame :
  forall items fin llm msg context,
    is_silence_cmd msg = false ->
    handle_message items fin llm msg (u "silent") context
    = Some (mkres [] (u "silent") context [] None None None None).
Proof.
  intros items fin llm msg context H.
  unfold handle_message; unfold is_silence_cmd in H; rewrite H; reflexivity.
Qed.

(** C9, witness: a session with history, a turn count, a name, an
    interest and an appointment keeps all of them while silent. *)
Lemma silent_state_frame_witness :
  is_silence_cmd (u "hola, sigo aquí") = false /\
  handle_message SampleConv.demo_items [] None (u "hola, sigo aquí") (u "silent")
    SampleConv.ctx_lead
  = Some (mkres [] (u "silent") SampleConv.ctx_lead [] None None None None).
Proof.
  split; [vm_compute; reflexivity|].
  apply silent_state_frame; vm_compute; reflexivity.
Defined.

(** [photo_request] reads only the stored photo model of the context. *)
Lemma photo_request_model : forall m c1 c2,
  c_photo_model c1 = c_photo_model c2 -> photo_request m c1 = photo_request m c2.
Proof. intros m c1 c2 E; unfold photo_request; rewrite E; reflexivity. Qed.

Lemma apology_clean : strip (sub prefix_pat (fun _ _ => []) (strip apology)) = apology.
Proof. vm_compute; reflexivity. Qed.

Lemma apology_sanitized : forall media, _sanitize_reply_if_photos_attached apology media = apology.
Proof. intros [|x l]; [reflexivity | vm_compute; reflexivity]. Qed.

Lemma apology_no_promise : existsb (fun p => searchb p apology) photo_promise_patterns = false.
Proof. vm_compute; reflexivity. Qed.

Lemma apology_no_links : _strip_markdown_links apology = apology.
Proof. vm_compute; reflexivity. Qed.

(** C5 (amended): the [turn_count] of the returned context is the incoming
    one plus 1 (1 when absent) on every path but two: in the silent state
    the context is returned unchanged, and the [/silencio] command returns a
    fresh context without [turn_count]. *)
Theorem turn_count_update : forall items fin llm msg st c r,
  handle_message items fin llm msg st c = Some r ->
  c_turn_count (r_context r) =
    if is_silence_cmd msg then None
    else if seqb st (u "silent") then c_turn_count c
    else Some (match c_turn_count c with Some n => n + 1 | None => 1 end).
Proof.
  intros items fin llm msg st c r H. unfold is_silence_cmd.
  destruct (seqb (lower (strip msg)) (u "/silencio")) eqn:H1.
  - unfold handle_message in H; rewrite H1 in H; injection H as <-; reflexivity.
  - destruct (seqb st (u "silent")) eqn:H2.
    + unfold handle_message in H; rewrite H1, H2 in H; injection H as <-; reflexivity.
    + destruct (main_path items fin llm msg st c r H1 H2 H)
        as (rc & li & lead & media & nc' & _ & Ep & _ & _ & _ & Ht & _).
      rewrite Ht. apply pick_spec in Ep.
      destruct Ep as [[_ ->] | [_ [i [-> | [nm ->]]]]]; reflexivity.
Qed.

Lemma turn_count_update_witness :
  match handle_message demo_items [] None (u "hola") (u "chatting") ctx_turn4 with
  | Some r => c_turn_count (r_context r) = Some 5
  | None => False
  end.
Proof.
  destruct (handle_message demo_items [] None (u "hola") (u "chatting") ctx_turn4) as [r|] eqn:E.
  - rewrite (turn_count_update _ _ _ _ _ _ _ E). vm_compute. reflexivity.
  - vm_compute in E. discriminate E.
Defined.

(** C5: the [/silencio] command resets [turn_count] (4 before, absent after). *)
Lemma turn_count_silencio_reset :
  c_turn_count ctx_turn4 = Some 4 /\
  match handle_message demo_items [] None (u "/silencio") (u "chatting") ctx_turn4 with
  | Some r => c_turn_count (r_context r) = None
  | None => False
  end.
Proof. split; vm_compute; reflexivity. Qed.

Lemma target_a_in msg li items it n : target_a msg li items = Some (it, n) -> In it items.
Proof.
  unfold target_a. destruct li; [discriminate|]. cbv zeta.
  destruct (existsb _ _); [|discriminate].
  destruct (find _ items) eqn:E; [|discriminate].
  intros H; injection H as <- _. exact (proj1 (find_some _ _ E)).
Qed.

Lemma loop_b_in msg rep items best bs it n s :
  loop_b msg rep items best bs = (Some (it, n), s) -> In it items \/ best = Some (it, n).
Proof.
  revert best bs. induction items as [|i r IH]; intros best bs; simpl.
  - intros H; injection H as <- _; auto.
  - destruct (modelo_of i).
    + intros H; destruct (IH _ _ H); auto.
    + destruct (bs <? _).
      * intros H; destruct (IH _ _ H) as [Hr|Hb]; [auto|injection Hb as <- _; auto].
      * intros H; destruct (IH _ _ H); auto.
Qed.

Lemma target_b_in msg rep items it n : target_b msg rep items = Some (it, n) -> In it items.
Proof.
  unfold target_b. destruct (loop_b msg rep items None 0) as [[p|] s] eqn:E;
    destruct (3 <=? s); try discriminate.
  intros H; injection H as ->. destruct (loop_b_in _ _ _ _ _ _ _ _ E) as [Hi|]; [exact Hi|discriminate].
Qed.

Lemma target_c_in li items it n : target_c li items = Some (it, n) -> In it items.
Proof.
  unfold target_c. destruct li; [discriminate|].
  destruct (find _ items) eqn:E; [|discriminate].
  intros H; injection H as <- _. exact (proj1 (find_some _ _ E)).
Qed.

Lemma some_pair_fst {A B} (a a' : A) (b b' : B) : Some (a, b) = Some (a', b') -> a' = a.
Proof. intros H. injection H as -> _. reflexivity. Qed.

Lemma slice_head_nonempty (x : pystr) xs :
  py_slice (x :: xs) 0 (Z.min 3 (Z.of_nat (List.length (x :: xs)))) <> [].
Proof.
  unfold py_slice. cbv zeta. cbn [List.length].
  replace (0 <? 0) with false by reflexivity.
  replace (Z.min 3 (Z.of_nat (S (List.length xs))) <? 0) with false
    by (symmetry; apply Z.ltb_ge; lia).
  replace (Z.to_nat (Z.min 0 (Z.of_nat (S (List.length xs))))) with 0%nat by lia.
  destruct (Z.to_nat (Z.min (Z.min 3 (Z.of_nat (S (List.length xs)))) (Z.of_nat (S (List.length xs)))
                      - Z.min 0 (Z.of_nat (S (List.length xs))))) eqn:E; [lia|].
  simpl. discriminate.
Qed.

Lemma pick_nonempty msg rep items c m c' :
  _pick_media_urls msg rep items c = Some (m, c') ->
  photo_request (_normalize_spanish msg) c = true ->
  any_in gps_keywords (_normalize_spanish msg) = false ->
  (forall it, In it items -> _extract_photos_from_item it <> []) ->
  target_c (get_s (c_last_interest c)) items <> None ->
  m <> [].
Proof.
  intros H Hp Hg Hph Ht.
  rewrite pick_unfold in H. revert H Hp Hg.
  generalize (_normalize_spanish msg) as nm. intros nm H Hp Hg.
  unfold _pick_media_urls_norm in H.
  rewrite Hg in H.
  destruct items as [|i0 is]; [destruct (get_s (c_last_interest c)); contradiction|].
  rewrite Hp in H. cbv zeta in H. cbn [negb] in H.
  assert (Htg : exists ti tn,
    match target_a nm (get_s (c_last_interest c)) (i0 :: is) with
    | Some t => Some t
    | None => match target_b nm (_normalize_spanish rep) (i0 :: is) with
              | Some t => Some t
              | None => target_c (get_s (c_last_interest c)) (i0 :: is)
              end
    end = Some (ti, tn) /\ In ti (i0 :: is)).
  { destruct (target_a _ _ _) as [[ti tn]|] eqn:Ea.
    { exists ti, tn; split; [reflexivity|exact (target_a_in _ _ _ _ _ Ea)]. }
    destruct (target_b _ _ _) as [[ti tn]|] eqn:Eb.
    { exists ti, tn; split; [reflexivity|exact (target_b_in _ _ _ _ _ Eb)]. }
    destruct (target_c _ _) as [[ti tn]|] eqn:Ec; [|contradiction].
    exists ti, tn; split; [reflexivity|exact (target_c_in _ _ _ _ Ec)]. }
  destruct Htg as (ti & tn & Etg & Hin). rewrite Etg in H.
  destruct (_extract_photos_from_item ti) as [|x xs] eqn:Eu; [exfalso; exact (Hph ti Hin Eu)|].
  repeat dif H; try discriminate H.
  all: apply some_pair_fst in H; subst m.
  all: try discriminate.
  all: match goal with |- ?l <> [] => match goal with E : _ = Some (l, _) |- _ => revert E end end.
  all: repeat match goal with
              | |- context [if ?b then _ else _] => not_ctor b; destruct b
              | |- context [match ?x with _ => _ end] => not_ctor x; destruct x eqn:?
              end.
  all: intros Es; lazymatch type of Es with
       | None = _ => discriminate Es
       | _ => apply some_pair_fst in Es; rewrite Es
       end.
  all: lazymatch goal with
       | |- py_slice _ _ _ <> [] => apply slice_head_nonempty
       | |- _ => discriminate
       end.
Qed.

(** [get_s] of a value already read by [get_s] reads it unchanged. *)
Lemma get_s_idem o : get_s (Some (get_s o)) = get_s o.
Proof. destruct o as [x|]; [apply strip_idem|reflexivity]. Qed.

(** C4 (amended): when the LLM call raises, [handle_message] still returns
    (state ["chatting"]) and its reply is the fixed apology, unless a PDF is
    attached, whose message then replaces it; but the lead is the failsafe
    lead built from the name, interest, appointment and payment known so
    far (not always [None]), and the photos are chosen by the same picker
    as on any other turn: attached only when the message asks for them
    ([photo_request]), and attached when it does, names no location, the
    session's interest names an item of the catalog and every item has
    photos. *)
Theorem llm_failure_result : forall items fin msg st c,
  is_silence_cmd msg = false -> seqb st (u "silent") = false -> photo_index_ok c = true ->
  exists r, handle_message items fin None msg st c = Some r /\
    r_new_state r = u "chatting" /\
    (r_reply r = apology \/
     exists pi a b m d, r_pdf_info r = Some pi /\ p_kind pi = PdfUrl a b m d /\ r_reply r = m) /\
    r_lead_info r =
      failsafe msg
        (or_keep (_extract_name_from_text msg (get_s (c_history c))) (get_s (c_user_name c)))
        (get_s (c_last_interest c))
        (or_keep (_extract_appointment_from_text msg) (get_s (c_last_appointment c)))
        (or_keep (_extract_payment_from_text msg) (get_s (c_last_payment c))) None /\
    (r_media_urls r <> [] -> photo_request (_normalize_spanish msg) c = true) /\
    (photo_request (_normalize_spanish msg) c = true ->
     any_in gps_keywords (_normalize_spanish msg) = false ->
     (forall it, In it items -> _extract_photos_from_item it <> []) ->
     target_c (get_s (c_last_interest c)) items <> None ->
     r_media_urls r <> []).
Proof.
  intros items fin msg st c H1 H2 Hi. unfold is_silence_cmd in H1.
  assert (Hi' : forall i, c_photo_index c = Some i -> 0 <= i).
  { intros i E; unfold photo_index_ok in Hi; rewrite E in Hi; apply Z.leb_le; exact Hi. }
  destruct (handle_some items fin None msg st c H1 H2 Hi') as [r Hr].
  exists r; split; [exact Hr|].
  destruct (main_path items fin None msg st c r H1 H2 Hr)
    as (rc & li & lead & media & nc' & El & Ep & Hs & Hm & Hl & _ & Hrep).
  injection El as <- <- <-.
  split; [exact Hs|]. split; [|split; [exact Hl|]].
  - destruct Hrep as [Hrep | Hrep]; [left | right; exact Hrep].
    rewrite Hrep, apology_clean, apology_sanitized.
    destruct media; [|exact apology_no_links].
    rewrite apology_no_promise, Bool.andb_false_r. exact apology_no_links.
  - rewrite Hm. split.
    + intros Hne. pose proof Ep as Ep'. apply pick_spec in Ep'.
      destruct Ep' as [[-> _] | [Hp _]]; [congruence|].
      rewrite <- Hp. apply photo_request_model. reflexivity.
    + intros Hp Hg Hph Ht. apply (pick_nonempty _ _ _ _ _ _ Ep);
        [rewrite <- Hp; apply photo_request_model; reflexivity | exact Hg | exact Hph |].
      cbn [c_last_interest]. rewrite get_s_idem. exact Ht.
Qed.

Lemma llm_failure_result_witness :
  is_silence_cmd (u "mándame fotos") = false /\ seqb (u "chatting") (u "silent") = false /\
  photo_index_ok ctx_lead = true /\
  exists r, handle_message demo_items [] None (u "mándame fotos") (u "chatting") ctx_lead = Some r /\
    r_new_state r = u "chatting" /\
    (r_reply r = apology \/
     exists pi a b m d, r_pdf_info r = Some pi /\ p_kind pi = PdfUrl a b m d /\ r_reply r = m) /\
    r_lead_info r =
      failsafe (u "mándame fotos")
        (or_keep (_extract_name_from_text (u "mándame fotos") (get_s (c_history ctx_lead)))
           (get_s (c_user_name ctx_lead)))
        (get_s (c_last_interest ctx_lead))
        (or_keep (_extract_appointment_from_text (u "mándame fotos")) (get_s (c_last_appointment ctx_lead)))
        (or_keep (_extract_payment_from_text (u "mándame fotos")) (get_s (c_last_payment ctx_lead))) None /\
    (r_media_urls r <> [] -> photo_request (_normalize_spanish (u "mándame fotos")) ctx_lead = true) /\
    (photo_request (_normalize_spanish (u "mándame fotos")) ctx_lead = true ->
     any_in gps_keywords (_normalize_spanish (u "mándame fotos")) = false ->
     (forall it, In it demo_items -> _extract_photos_from_item it <> []) ->
     target_c (get_s (c_last_interest ctx_lead)) demo_items <> None ->
     r_media_urls r <> []).
Proof.
  split; [vm_compute; reflexivity|]. split; [vm_compute; reflexivity|].
  split; [vm_compute; reflexivity|].
  apply llm_failure_result; vm_compute; reflexivity.
Defined.

(** C4: with the LLM failing on "mándame fotos" in a session that knows the
    name, the interest (Tunland G9) and the appointment, the reply is the
    apology but a lead is returned and three photos are attached. *)
Lemma llm_failure_lead_and_media :
  match handle_message demo_items [] None (u "mándame fotos") (u "chatting") ctx_lead with
  | Some r => r_reply r = apology /\ r_lead_info r <> None /\ List.length (r_media_urls r) = 3%nat
  | None => False
  end.
Proof. vm_compute. split; [reflexivity|]. split; [discriminate | reflexivity]. Qed.

Lemma py_getitem_nth : forall {A} (l : list A) i d,
  0 <= i -> i < Z.of_nat (List.length l) -> py_getitem l i = Some (nth (Z.to_nat i) l d).
Proof.
  intros A l i d H0 H1. unfold py_getitem.
  replace ((0 <=? i) && (i <? Z.of_nat (Datatypes.length l)))%bool with true
    by (symmetry; apply andb_true_intro; split; [apply Z.leb_le | apply Z.ltb_lt]; lia).
  apply nth_error_nth'. lia.
Qed.

Lemma firstn_min_length : forall {A} n (l : list A),
  firstn (Nat.min n (List.length l)) l = firstn n l.
Proof.
  intros A n l. destruct (Nat.le_ge_cases n (List.length l)).
  - rewrite Nat.min_l by lia. reflexivity.
  - rewrite Nat.min_r by lia. rewrite firstn_all, firstn_all2 by lia. reflexivity.
Qed.

Lemma py_slice_page : forall {A} (l : list A) i,
  0 <= i -> i < Z.of_nat (List.length l) ->
  py_slice l i (Z.min (i + 3) (Z.of_nat (List.length l))) = firstn 3 (skipn (Z.to_nat i) l).
Proof.
  intros A l i H0 H1. unfold py_slice.
  replace (i <? 0) with false by (symmetry; apply Z.ltb_ge; lia).
  replace (Z.min (i + 3) (Z.of_nat (Datatypes.length l)) <? 0) with false
    by (symmetry; apply Z.ltb_ge; lia).
  rewrite (Z.min_l i) by lia.
  rewrite <- (firstn_min_length 3 (skipn _ l)), length_skipn.
  f_equal. lia.
Qed.

Lemma py_slice_past_end : forall {A} (l : list A) i,
  Z.of_nat (List.length l) <= i ->
  py_slice l i (Z.min (i + 3) (Z.of_nat (List.length l))) = [].
Proof.
  intros A l i H. unfold py_slice.
  replace (i <? 0) with false by (symmetry; apply Z.ltb_ge; lia).
  replace (Z.min (i + 3) (Z.of_nat (Datatypes.length l)) <? 0) with false
    by (symmetry; apply Z.ltb_ge; lia).
  replace (Z.to_nat _) with 0%nat by lia. reflexivity.
Qed.

Lemma py_slice_first_page : forall {A} (l : list A),
  py_slice l 0 (Z.min 3 (Z.of_nat (List.length l))) = firstn 3 l.
Proof.
  intros A l. unfold py_slice.
  replace (0 <? 0) with false by reflexivity.
  replace (Z.min 3 (Z.of_nat (Datatypes.length l)) <? 0) with false
    by (symmetry; apply Z.ltb_ge; lia).
  rewrite (Z.min_l 0) by lia. cbn [skipn Z.to_nat].
  rewrite <- (firstn_min_length 3 l). f_equal. lia.
Qed.

(** C7 (amended): once a photo target is resolved (priority A, B, then C)
    and has photos, the cursor [i0] is the stored one when the target is the
    stored photo model and 0 when it changes.  "otra/más/siguiente" returns
    the one photo at [i0] and stores [i0 + 1], but wraps to the first photo
    (stored cursor 1) when [i0] is past the end; any other photo request
    returns the page of up to three photos from [i0] and stores its end,
    restarting from the first page when [i0] is past the end. *)
Theorem photo_cursor : forall user_message rep items c it name,
  let msg := _normalize_spanish user_message in
  let urls := _extract_photos_from_item it in
  let len := Z.of_nat (List.length urls) in
  let same := seqb (_normalize_spanish name) (_normalize_spanish (get_s (c_photo_model c))) in
  let i0 := if same then match c_photo_index c with Some i => i | None => 0 end else 0 in
  let c' := if same then c else set_photo_model name c in
  any_in gps_keywords msg = false -> (0 < List.length items)%nat -> photo_request msg c = true ->
  match target_a msg (get_s (c_last_interest c)) items with
  | Some t => Some t
  | None =>
      match target_b msg (_normalize_spanish rep) items with
      | Some t => Some t
      | None => target_c (get_s (c_last_interest c)) items
      end
  end = Some (it, name) ->
  (0 < List.length urls)%nat -> (0 <=? i0) = true ->
  _pick_media_urls user_message rep items c =
    if any_in (map u ["otra"; "mas"; "más"; "siguiente"]%string) msg then
      if i0 <? len then Some ([nth (Z.to_nat i0) urls []], set_photo_index (i0 + 1) c')
      else Some ([hd [] urls], set_photo_index 1 c')
    else if i0 <? len then Some (firstn 3 (skipn (Z.to_nat i0) urls), set_photo_index (Z.min (i0 + 3) len) c')
    else Some (firstn 3 urls, set_photo_index (Z.min 3 len) c').
Proof.
  intros user_message rep items c it name. cbv zeta.
  intros Hg Hn Hp Ht Hu Hi.
  rewrite pick_unfold. unfold _pick_media_urls_norm.
  rewrite Hg. destruct items as [|x xs]; [simpl in Hn; lia|].
  rewrite Hp. cbn [negb]. cbv zeta. rewrite Ht.
  destruct (_extract_photos_from_item it) as [|u0 us]; [simpl in Hu; lia|].
  destruct (seqb (_normalize_spanish name) (_normalize_spanish (get_s (c_photo_model c)))); cbn [negb].
  all: set (i := match c_photo_index c with Some i => i | None => 0 end) in *.
  all: apply Z.leb_le in Hi.
  all: destruct (any_in (map u ["otra"; "mas"; "más"; "siguiente"]%string) _).
  all: match goal with |- context [?k <? Z.of_nat (List.length ?l)] =>
         destruct (k <? Z.of_nat (List.length l)) eqn:El;
         [apply Z.ltb_lt in El | apply Z.ltb_ge in El] end.
  - rewrite (py_getitem_nth (u0 :: us) _ [] Hi El). reflexivity.
  - reflexivity.
  - rewrite (py_slice_page _ _ Hi El).
    destruct (firstn 3 (skipn _ _)) eqn:Ef; [|reflexivity].
    apply (f_equal (@List.length _)) in Ef. rewrite length_firstn, length_skipn in Ef.
    cbn [List.length] in *. lia.
  - rewrite (py_slice_past_end _ _ El), py_slice_first_page. reflexivity.
  - rewrite (py_getitem_nth (u0 :: us) _ [] Hi El). reflexivity.
  - reflexivity.
  - rewrite (py_slice_page _ _ Hi El).
    destruct (firstn 3 (skipn _ _)) eqn:Ef; [|reflexivity].
    apply (f_equal (@List.length _)) in Ef. rewrite length_firstn, length_skipn in Ef.
    cbn [List.length] in *. lia.
  - rewrite (py_slice_past_end _ _ El), py_slice_first_page. reflexivity.
Qed.

Lemma photo_cursor_witness :
  _pick_media_urls (u "otra foto") [] demo_items ctx_g9_at3
  = Some ([u "http://a/4.jpg"], set_photo_index 4 ctx_g9_at3).
Proof.
  rewrite (photo_cursor (u "otra foto") [] demo_items ctx_g9_at3 g9 (u "Tunland G9"));
    first [vm_compute; reflexivity | vm_compute; lia].
Defined.

(** C7: with three G9 photos, "mándame fotos" stores cursor 3 and the next
    "otra foto" returns the first photo again and stores cursor 1, not the
    photo at cursor 3 with cursor 4. *)
Lemma photo_cursor_wraps :
  match _pick_media_urls (u "mándame fotos") [] [g9_3] ctx_g9 with
  | Some (m1, c1) =>
      List.length m1 = 3%nat /\ c_photo_index c1 = Some 3 /\
      match _pick_media_urls (u "otra foto") [] [g9_3] c1 with
      | Some (m2, c2) => m2 = [u "http://c/1.jpg"] /\ c_photo_index c2 = Some 1
      | None => False
      end
  | None => False
  end.
Proof. vm_compute. repeat split. Qed.

(** One step of the interest loop, through [interest_item_score]. *)
Lemma interest_loop_cons (m r : pystr) (it : item) (rest : list item) b bs :
  interest_loop m r (it :: rest) b bs =
  match interest_item_score m r it with
  | None => interest_loop m r rest b bs
  | Some s => if bs <? s then interest_loop m r rest (Some (modelo_of it)) s
              else interest_loop m r rest b bs
  end.
Proof.
  cbn [interest_loop]. unfold interest_item_score.
  destruct (modelo_of it); [reflexivity|].
  destruct (model_tokens _ _); reflexivity.
Qed.

(** The interest loop keeps the first item of strictly highest score. *)
Lemma interest_loop_spec (m r : pystr) (items : list item) :
  forall b bs b' bs', interest_loop m r items b bs = (b', bs') ->
  (b' = b /\ bs' = bs /\ Forall (fun y => score_atmost (interest_item_score m r y) bs) items) \/
  (exists pre it post, items = pre ++ it :: post /\
     interest_item_score m r it = Some bs' /\ bs < bs' /\ b' = Some (modelo_of it) /\
     Forall (fun y => score_below (interest_item_score m r y) bs') pre /\
     Forall (fun y => score_atmost (interest_item_score m r y) bs') post).
Proof.
  induction items as [|it rest IH]; intros b bs b' bs' H.
  - injection H as <- <-. left. auto.
  - rewrite interest_loop_cons in H.
    destruct (interest_item_score m r it) as [s|] eqn:Es.
    + destruct (Z.ltb_spec bs s).
      * destruct (IH _ _ _ _ H) as [(-> & -> & Hf) | (pre & it' & post & -> & E1 & Hlt & -> & Hp & Hq)].
        -- right. exists [], it, rest. repeat split; auto.
        -- right. exists (it :: pre), it', post. repeat split; auto; try lia.
           constructor; auto. rewrite Es. simpl. lia.
      * destruct (IH _ _ _ _ H) as [(-> & -> & Hf) | (pre & it' & post & -> & E1 & Hlt & -> & Hp & Hq)].
        -- left. repeat split. constructor; auto. rewrite Es. simpl. lia.
        -- right. exists (it :: pre), it', post. repeat split; auto.
           constructor; auto. rewrite Es. simpl. lia.
    + destruct (IH _ _ _ _ H) as [(-> & -> & Hf) | (pre & it' & post & -> & E1 & Hlt & -> & Hp & Hq)].
      * left. repeat split. constructor; auto. rewrite Es. exact I.
      * right. exists (it :: pre), it', post. repeat split; auto.
        constructor; auto. rewrite Es. exact I.
Qed.

(** A first argmax is unique. *)
Lemma argmax_unique (f : item -> option Z) (pre1 post1 pre2 post2 : list item) a b s1 s2 :
  pre1 ++ a :: post1 = pre2 ++ b :: post2 ->
  f a = Some s1 -> f b = Some s2 ->
  Forall (fun y => score_below (f y) s1) pre1 -> Forall (fun y => score_atmost (f y) s1) post1 ->
  Forall (fun y => score_below (f y) s2) pre2 -> Forall (fun y => score_atmost (f y) s2) post2 ->
  a = b /\ s1 = s2.
Proof.
  revert pre2. induction pre1 as [|x pre1 IH]; intros [|y pre2] E Ea Eb H1 H2 H3 H4; simpl in E.
  - injection E as -> _. rewrite Ea in Eb. injection Eb as ->. auto.
  - injection E as -> E. exfalso.
    assert (In b post1) as Hin by (rewrite E; apply in_or_app; right; left; reflexivity).
    rewrite Forall_forall in H2. specialize (H2 _ Hin). rewrite Eb in H2.
    inversion H3 as [|? ? Hy _]. subst. rewrite Ea in Hy. simpl in *. lia.
  - injection E as -> E. exfalso.
    assert (In a post2) as Hin by (rewrite <- E; apply in_or_app; right; left; reflexivity).
    rewrite Forall_forall in H4. specialize (H4 _ Hin). rewrite Ea in H4.
    inversion H1 as [|? ? Hy _]. subst. rewrite Eb in Hy. simpl in *. lia.
  - injection E as -> E. inversion H1; inversion H3; subst.
    eapply (IH pre2); eauto.
Qed.

(** C6 (amended). [_extract_interest_from_messages] scores each item by its
    normalized model tokens, 2 per token found as a word of the user text and
    1 per token found in the reply, with no year bonus. It returns the model
    of the first item of highest score when that score is at least 2, and
    [None] exactly when every item scores below 2. *)
Theorem interest_first_argmax (user_message reply : pystr) (items : list item) (x : pystr) :
  let sc := interest_item_score (_normalize_spanish user_message) (_normalize_spanish reply) in
  (_extract_interest_from_messages user_message reply items = Some x <->
     exists pre it post s, items = pre ++ it :: post /\ sc it = Some s /\ 2 <= s /\
       modelo_of it = x /\
       Forall (fun y => score_below (sc y) s) pre /\
       Forall (fun y => score_atmost (sc y) s) post) /\
  (_extract_interest_from_messages user_message reply items = None <->
     Forall (fun y => score_below (sc y) 2) items).
Proof.
  cbv zeta. unfold _extract_interest_from_messages.
  generalize (_normalize_spanish user_message) as m. generalize (_normalize_spanish reply) as r.
  intros r m.
  destruct items as [|i0 rest] eqn:Ei.
  - split; split.
    + discriminate.
    + intros (pre & it & post & s & E & _). destruct pre; discriminate E.
    + constructor.
    + reflexivity.
  - rewrite <- Ei.
    destruct (interest_loop m r items None 0) as [b' bs'] eqn:El.
    destruct (interest_loop_spec m r items _ _ _ _ El)
      as [(-> & -> & Hf) | (pre & it & post & E & E1 & Hlt & -> & Hp & Hq)].
    + simpl. split; split.
      * discriminate.
      * intros (pre & it & post & s & E & Es & Hs & _). exfalso.
        rewrite Forall_forall in Hf. specialize (Hf it).
        rewrite E, Es in Hf. simpl in Hf.
        assert (s <= 0) by (apply Hf; apply in_or_app; right; left; reflexivity). lia.
      * intros _. eapply Forall_impl; [|exact Hf]. intros y; unfold score_atmost, score_below.
        destruct (interest_item_score m r y); [lia|auto].
      * reflexivity.
    + destruct (Z.leb_spec 2 bs').
      * split; split.
        -- intros Hx. injection Hx as <-. exists pre, it, post, bs'. auto 10.
        -- intros (pre2 & it2 & post2 & s & E2 & Es & Hs & Hm & Hp2 & Hq2).
           rewrite E in E2.
           destruct (argmax_unique _ _ _ _ _ _ _ _ _ E2 E1 Es Hp Hq Hp2 Hq2) as [-> _].
           rewrite Hm. reflexivity.
        -- discriminate.
        -- intros Hf. exfalso. rewrite Forall_forall in Hf. specialize (Hf it).
           rewrite E1 in Hf. simpl in Hf.
           assert (bs' < 2) by (apply Hf; rewrite E; apply in_or_app; right; left; reflexivity). lia.
      * split; split.
        -- discriminate.
        -- intros (pre2 & it2 & post2 & s & E2 & Es & Hs & Hm & Hp2 & Hq2). exfalso.
           rewrite E in E2.
           destruct (argmax_unique _ _ _ _ _ _ _ _ _ E2 E1 Es Hp Hq Hp2 Hq2) as [_ <-]. lia.
        -- intros _. rewrite E. apply Forall_app. split.
           ++ eapply Forall_impl; [|exact Hp]. intros y; unfold score_atmost, score_below.
              destruct (interest_item_score m r y); [lia|auto].
           ++ constructor; [rewrite E1; simpl; lia|].
              eapply Forall_impl; [|exact Hq]. intros y; unfold score_atmost, score_below.
              destruct (interest_item_score m r y); [lia|auto].
        -- reflexivity.
Qed.

(** C6, counterexample. On "tunland 2024" with a Tunland G9 (2025) listed
    before a Tunland G7 (2024), both models score 2 and the code returns the
    G9; a +3 bonus for the matching year would pick the G7. *)
Lemma interest_no_year_bonus :
  _extract_interest_from_messages (u "tunland 2024") [] demo_items = Some (u "Tunland G9") /\
  extract_interest_with_year (u "tunland 2024") [] demo_items = Some (u "Tunland G7").
Proof. vm_compute. split; reflexivity. Qed.

(** C6, witness: on "tunland 2024" the G9 is the first argmax. *)
Lemma interest_first_argmax_witness :
  exists pre it post s, demo_items = pre ++ it :: post /\
    interest_item_score (_normalize_spanish (u "tunland 2024")) (_normalize_spanish []) it = Some s /\
    2 <= s /\ modelo_of it = u "Tunland G9" /\
    Forall (fun y => score_below (interest_item_score (_normalize_spanish (u "tunland 2024")) (_normalize_spanish []) y) s) pre /\
    Forall (fun y => score_atmost (interest_item_score (_normalize_spanish (u "tunland 2024")) (_normalize_spanish []) y) s) post.
Proof.
  apply (proj1 (proj1 (interest_first_argmax (u "tunland 2024") [] demo_items (u "Tunland G9")))).
  vm_compute. reflexivity.
Defined.


(** A one-character class is found by [re.search] exactly when some
    character of the subject is in it. *)
Lemma search_from_set (p : Z -> bool) (f : nat) (s : pystr) :
  forall pv i, match search_from (S f) (RSet p) pv s i with Some _ => true | None => false end
               = existsb p s.
Proof.
  induction s as [|c t IH]; intros pv i; simpl.
  - reflexivity.
  - destruct (p c); simpl; [reflexivity|]. apply IH.
Qed.

Lemma searchb_set (p : Z -> bool) (s : pystr) : searchb (RSet p) s = existsb p s.
Proof. unfold searchb, search, fuel_for. simpl (4 * _)%nat. apply search_from_set. Qed.

(** C3 (amended). [_lead_is_valid] accepts a lead exactly when, after
    [strip], the name has at least 3 characters, its lower case is not a
    placeholder, it contains a letter of the class [A-Za-z] plus the
    Spanish accented letters [ÁÉÍÓÚÑÜáéíóúñü], and the interest and the
    appointment have at least 2 characters each. It is a function of the
    three fields only. *)
Theorem lead_is_valid_iff (lead : jdict) :
  let nombre := strip (get_str (u "nombre") lead) in
  let interes := strip (get_str (u "interes") lead) in
  let cita := strip (get_str (u "cita") lead) in
  _lead_is_valid lead = true <->
    (3 <= List.length nombre)%nat /\ inb (lower nombre) placeholders = false /\
    existsb name_letter nombre = true /\
    (2 <= List.length interes)%nat /\ (2 <= List.length cita)%nat.
Proof.
  cbv zeta. unfold _lead_is_valid. rewrite searchb_set.
  generalize (strip (get_str (u "nombre") lead)) as n.
  generalize (strip (get_str (u "interes") lead)) as i.
  generalize (strip (get_str (u "cita") lead)) as c.
  intros c i n.
  assert (Hs : forall (s : pystr) k, (k <= List.length s)%nat -> (1 <= k)%nat -> seqb s [] = false).
  { intros s k H1 H2. unfold seqb. destruct (list_eq_dec Z.eq_dec s []); [subst; simpl in H1; lia|reflexivity]. }
  split.
  - intros H.
    destruct (seqb n [] || Nat.ltb (List.length n) 3)%bool eqn:E1; [discriminate|].
    destruct (inb (lower n) placeholders) eqn:E2; [discriminate|].
    destruct (existsb name_letter n) eqn:E3; [|discriminate].
    destruct (seqb i [] || Nat.ltb (List.length i) 2)%bool eqn:E4; [discriminate|].
    destruct (seqb c [] || Nat.ltb (List.length c) 2)%bool eqn:E5; [discriminate|].
    apply Bool.orb_false_iff in E1, E4, E5.
    destruct E1 as [_ E1], E4 as [_ E4], E5 as [_ E5].
    apply Nat.ltb_ge in E1, E4, E5. auto.
  - intros (H1 & H2 & H3 & H4 & H5).
    rewrite (Hs n 3%nat H1 ltac:(lia)), (Hs i 2%nat H4 ltac:(lia)), (Hs c 2%nat H5 ltac:(lia)).
    rewrite H2, H3. simpl.
    rewrite (proj2 (Nat.ltb_ge _ _) H1), (proj2 (Nat.ltb_ge _ _) H4), (proj2 (Nat.ltb_ge _ _) H5).
    reflexivity.
Qed.

(** C3, counterexample. A name of three Chinese characters is alphabetic
    for Python's [str.isalpha], but it contains no letter of the code's class,
    so [_lead_is_valid] rejects the lead while the spec's wording accepts it. *)
Lemma lead_valid_letters_only :
  _lead_is_valid lead_cjk = false /\ lead_is_valid_spec alpha_sample lead_cjk = true.
Proof. vm_compute. split; reflexivity. Qed.

(** C3, witness: the complete sample lead meets every condition. *)
Lemma lead_is_valid_iff_witness :
  (3 <= List.length (strip (get_str (u "nombre") lead_ok)))%nat /\
  inb (lower (strip (get_str (u "nombre") lead_ok))) placeholders = false /\
  existsb name_letter (strip (get_str (u "nombre") lead_ok)) = true /\
  (2 <= List.length (strip (get_str (u "interes") lead_ok)))%nat /\
  (2 <= List.length (strip (get_str (u "cita") lead_ok)))%nat.
Proof.
  apply (proj1 (lead_is_valid_iff lead_ok)). vm_compute. reflexivity.
Defined.

End ConvFacts.

(* ================================================================== *)
(** ** The webhook pipeline *)
Module MainFacts.
Import Conv Main MainProps.

Section Frame.

Variable now AUTO_REACTIVATE_MINUTES HUMAN_DETECTION_WINDOW_SECONDS : Z.
Variable OWNER_PHONE : pystr.
Variable evo_answer : pystr -> pystr -> option pystr -> option (Z * option pystr).
Variable transcribe : pystr -> pystr -> pystr.
Variable store_get : list (pystr * (pystr * ctx)) -> pystr -> option (option (pystr * ctx)).
Variable handle : pystr -> pystr -> ctx -> option result.


(** Frame rules for [processed_message_ids]. *)
Lemma keep_elim {A} (m : M A) s o s' :
  m s = (o, s') -> pm_keep m -> processed_message_ids (fst s') = processed_message_ids (fst s).
Proof. intros H K. exact (K _ _ _ H). Qed.

Lemma keep_ret {A} (a : A) : pm_keep (ret a).
Proof. intros s o s' H. injection H as _ <-. reflexivity. Qed.

Lemma keep_raise {A} : pm_keep (@raise A).
Proof. intros s o s' H. injection H as _ <-. reflexivity. Qed.

Lemma keep_get : pm_keep get.
Proof. intros s o s' H. injection H as _ <-. reflexivity. Qed.

Lemma keep_emit e : pm_keep (emit e).
Proof. intros s o s' H. injection H as _ <-. reflexivity. Qed.

Lemma keep_modify f : (forall g, processed_message_ids (f g) = processed_message_ids g) -> pm_keep (modify f).
Proof. intros Hf s o s' H. injection H as _ <-. apply Hf. Qed.

Lemma keep_bind {A B} (m : M A) (f : A -> M B) :
  pm_keep m -> (forall a, pm_keep (f a)) -> pm_keep (bind m f).
Proof.
  intros Km Kf s o s' H. unfold bind in H.
  destruct (m s) as [[a|] s1] eqn:E.
  - rewrite (Kf a _ _ _ H). exact (Km _ _ _ E).
  - injection H as _ <-. exact (Km _ _ _ E).
Qed.

Lemma keep_catch (m : M unit) : pm_keep m -> pm_keep (catch m).
Proof.
  intros Km s o s' H. unfold catch in H.
  destruct (m s) as [[a|] s1] eqn:E; injection H as _ <-; exact (Km _ _ _ E).
Qed.

Ltac keep :=
  repeat (cbv beta zeta;
  match goal with
  | |- pm_keep (bind _ _) => apply keep_bind; [|intros ?]
  | |- pm_keep (ret _) => apply keep_ret
  | |- pm_keep raise => apply keep_raise
  | |- pm_keep get => apply keep_get
  | |- pm_keep (emit _) => apply keep_emit
  | |- pm_keep (modify _) => apply keep_modify; intros; reflexivity
  | |- pm_keep (catch _) => apply keep_catch
  | |- pm_keep (if ?b then _ else _) => destruct b
  | |- pm_keep (match ?x with _ => _ end) => destruct x
  end).

Lemma keep_add_pl k : pm_keep (add_to processed_lead_ids set_pl k).
Proof. unfold add_to. keep. Qed.

Lemma keep_track mid : pm_keep (track_id mid).
Proof. unfold track_id. keep. Qed.

Lemma keep_send_media clean text urls : pm_keep (send_media evo_answer clean text urls).
Proof.
  induction urls as [|url r IH]; simpl.
  - apply keep_ret.
  - keep; try apply keep_track; exact IH.
Qed.

Lemma keep_send j t m : pm_keep (send_evolution_message now evo_answer j t m).
Proof. unfold send_evolution_message. keep; first [apply keep_send_media | apply keep_track]. Qed.

Lemma keep_notify j um br l : pm_keep (notify_owner now OWNER_PHONE evo_answer j um br l).
Proof. unfold notify_owner. keep; apply keep_send. Qed.

Lemma keep_emit_lead j mid um rt lead : pm_keep (emit_lead now OWNER_PHONE evo_answer j mid um rt lead).
Proof. unfold emit_lead. keep; first [apply keep_add_pl | apply keep_notify]. Qed.


Abbreviation run := (process_single_event now AUTO_REACTIVATE_MINUTES HUMAN_DETECTION_WINDOW_SECONDS
                   OWNER_PHONE evo_answer transcribe store_get handle).


Lemma bind_get_eq {B} (f : gstate -> M B) s : bind get f s = f (fst s) s.
Proof. reflexivity. Qed.

Lemma bind_some {A B} (m : M A) (f : A -> M B) s a s1 :
  m s = (Some a, s1) -> bind m f s = f a s1.
Proof. intros H. unfold bind. rewrite H. reflexivity. Qed.

Lemma seqb_nonempty (s : pystr) : s <> [] -> seqb s [] = false.
Proof. intros H. unfold seqb. destruct (list_eq_dec Z.eq_dec s []); congruence. Qed.

Lemma dedup_add_mem k b b' : Dedup.add k b = Some b' -> Dedup.mem k b' = true.
Proof.
  unfold Dedup.add. destruct (Dedup.mem k b) eqn:E.
  - intros H. injection H as <-. exact E.
  - destruct (Nat.leb _ _); [destruct (Dedup.popitem_first _)|];
      intros H; try discriminate; injection H as <-;
      unfold Dedup.mem, inb; simpl; apply existsb_exists; exists k;
      (split; [apply in_or_app; right; left; reflexivity|]);
      unfold seqb; destruct (list_eq_dec Z.eq_dec k k); congruence.
Qed.

Lemma dedup_add_some k b : (0 < Dedup.maxlen b)%nat -> exists b', Dedup.add k b = Some b'.
Proof.
  intros H. unfold Dedup.add. destruct (Dedup.mem k b); [eauto|].
  destruct (Nat.leb (Dedup.maxlen b) (List.length (Dedup.data b))) eqn:E; [|eauto].
  apply Nat.leb_le in E. destruct (Dedup.data b); simpl in *; [lia|eauto].
Qed.

Lemma early_drop_noop ev s : early_drop ev = true -> run ev s = (Some tt, s).
Proof.
  unfold early_drop, process_single_event. cbv zeta.
  destruct (strip (ev_remote_jid ev)); [reflexivity|].
  intros H. rewrite H. reflexivity.
Qed.

Lemma dup_noop ev g effs :
  strip (ev_msg_id ev) <> [] -> Dedup.mem (strip (ev_msg_id ev)) (processed_message_ids g) = true ->
  run ev (g, effs) = (Some tt, (g, effs)).
Proof.
  intros Hne Hm. unfold process_single_event. cbv zeta.
  destruct (strip (ev_remote_jid ev)); [reflexivity|].
  destruct (_ || _)%bool; [reflexivity|].
  rewrite bind_get_eq. cbn [fst]. rewrite (seqb_nonempty _ Hne), Hm. reflexivity.
Qed.

Lemma run_marks ev g effs o g' effs' :
  strip (ev_msg_id ev) <> [] -> (0 < Dedup.maxlen (processed_message_ids g))%nat ->
  early_drop ev = false -> run ev (g, effs) = (o, (g', effs')) ->
  Dedup.mem (strip (ev_msg_id ev)) (processed_message_ids g') = true.
Proof.
  intros Hne Hmax. unfold early_drop, process_single_event. cbv zeta.
  destruct (strip (ev_remote_jid ev)); [discriminate|].
  intros Hd. rewrite Hd. rewrite bind_get_eq. cbn [fst].
  rewrite (seqb_nonempty _ Hne). simpl negb.
  destruct (Dedup.mem (strip (ev_msg_id ev)) (processed_message_ids g)) eqn:Em.
  - intros H. injection H as _ <- _. exact Em.
  - cbn [negb andb].
    destruct (dedup_add_some (strip (ev_msg_id ev)) _ Hmax) as [b Eb].
    assert (Ea : add_to processed_message_ids set_pm (strip (ev_msg_id ev)) (g, effs)
                 = (Some tt, (set_pm b g, effs))).
    { unfold add_to. rewrite bind_get_eq. cbn [fst]. rewrite Eb. reflexivity. }
    intros H. rewrite (bind_some _ _ _ _ _ Ea) in H. cbv beta in H.
    pose proof (keep_elim _ _ _ _ H) as K. lapply K.
    + cbn [fst processed_message_ids set_pm]. intros ->. exact (dedup_add_mem _ _ _ Eb).
    + clear K H. keep; first [apply keep_send | apply keep_emit_lead | apply keep_notify].
Qed.


Lemma lead_dup_noop j mid um rt lead g effs :
  Dedup.mem (lead_key j mid) (processed_lead_ids g) = true ->
  emit_lead now OWNER_PHONE evo_answer j mid um rt lead (g, effs) = (Some tt, (g, effs)).
Proof.
  intros H. unfold emit_lead, catch. cbv zeta. rewrite bind_get_eq. cbn [fst]. rewrite H. reflexivity.
Qed.

(** C2. An inbound event whose (stripped, non-empty) message id is already
    in [processed_message_ids] is dropped by [process_single_event]: the
    state and the effects (POSTs, session writes, CRM calls) are left as
    they were. After any first run of an event with a non-empty id, a
    second run of the same event is such a no-op (the dedup set having
    room, as its capacity of 4000 gives). The lead block emits nothing and
    changes nothing once the lead key [jid|msg_id|lead] is in
    [processed_lead_ids]. *)
Theorem duplicate_event_discarded :
  (forall ev g effs, strip (ev_msg_id ev) <> [] ->
     Dedup.mem (strip (ev_msg_id ev)) (processed_message_ids g) = true ->
     run ev (g, effs) = (Some tt, (g, effs))) /\
  (forall ev g effs o g' effs', strip (ev_msg_id ev) <> [] ->
     (0 < Dedup.maxlen (processed_message_ids g))%nat ->
     run ev (g, effs) = (o, (g', effs')) ->
     run ev (g', effs') = (Some tt, (g', effs'))) /\
  (forall j mid um rt lead g effs,
     Dedup.mem (lead_key j mid) (processed_lead_ids g) = true ->
     emit_lead now OWNER_PHONE evo_answer j mid um rt lead (g, effs) = (Some tt, (g, effs))).
Proof.
  split; [|split].
  - exact dup_noop.
  - intros ev g effs o g' effs' Hne Hmax H.
    destruct (early_drop ev) eqn:Ed.
    + apply early_drop_noop. exact Ed.
    + apply dup_noop; [exact Hne|]. exact (run_marks _ _ _ _ _ _ Hne Hmax Ed H).
  - exact lead_dup_noop.
Qed.

End Frame.


(** C2, witness: a text event processed twice from the initial state; the
    first run posts a reply, the second changes nothing. *)
Lemma duplicate_event_discarded_witness :
  let run := process_single_event 1000 60 15 [] demo_evo (fun _ _ => [])
               demo_store_get (handle_message SampleConv.demo_items [] None) in
  let s1 := snd (run demo_event (GlobalState [], [])) in
  snd s1 <> [] /\ run demo_event s1 = (Some tt, s1).
Proof.
  cbv zeta.
  destruct (process_single_event 1000 60 15 [] demo_evo (fun _ _ => [])
              demo_store_get (handle_message SampleConv.demo_items [] None)
              demo_event (GlobalState [], [])) as [o [g' e']] eqn:E.
  cbn [snd]. split.
  - vm_compute in E. injection E as _ _ <-. discriminate.
  - exact (proj1 (proj2 (duplicate_event_discarded 1000 60 15 [] demo_evo (fun _ _ => [])
             demo_store_get (handle_message SampleConv.demo_items [] None)))
             demo_event (GlobalState []) [] o g' e' ltac:(vm_compute; discriminate) ltac:(vm_compute; lia) E).
Defined.

End MainFacts.


(* ================================================================== *)
(** ** Further properties of [monday_service.py] *)
Module MondayExtra.
Import Samples.
Import Monday StrFacts MondayFacts.

(** X1: [resolve_payment_to_label] always answers one of the three Monday labels 'De Contado', 'Financiamiento' or 'Por definir'. *)
Lemma payment_label_range (p : pystr) :
  In (resolve_payment_to_label p) [u "De Contado"; u "Financiamiento"; u "Por definir"].
Proof.
  unfold resolve_payment_to_label. destruct p as [|c r]; [simpl; auto|].
  destruct (inb _ [u "contado"; _; _]); [simpl; auto|].
  destruct (inb _ _); simpl; auto.
Qed.

Lemma argmax_fold_range {A} (score : A -> Z) (l : list (pystr * A)) (acc : pystr * Z) :
  In (fst (fold_left (fun (acc : pystr * Z) (e : pystr * A) =>
       let sc := score (snd e) in
       if snd acc <? sc then (fst e, sc) else acc) l acc))
     (fst acc :: map fst l).
Proof.
  revert acc. induction l as [|e l IH]; intros acc; simpl; [auto|].
  destruct (snd acc <? _).
  - destruct (IH (fst e, score (snd e))) as [H|H]; simpl in H; auto.
  - destruct (IH acc) as [H|H]; auto.
Qed.

(** X2: [resolve_vehicle_to_dropdown] answers the empty string or one of the labels of [VEHICLE_DROPDOWN_MAP]. *)
Lemma vehicle_label_range (interest : pystr) :
  resolve_vehicle_to_dropdown interest = [] \/
  In (resolve_vehicle_to_dropdown interest) (map fst VEHICLE_DROPDOWN_MAP).
Proof.
  unfold resolve_vehicle_to_dropdown. destruct interest as [|c r]; [auto|].
  cbv zeta.
  match goal with |- context [fold_left (fun acc e => if snd acc <? fold_left ?g (snd e) 0 then _ else _) _ _] =>
    destruct (argmax_fold_range (fun s => fold_left g s 0) VEHICLE_DROPDOWN_MAP ([], 0)) as [H|H] end.
  - left. exact (eq_sym H).
  - right. exact H.
Qed.

Lemma keys_dict_set {V} (c k : pystr) (v : V) d :
  In k (map fst (dict_set c v d)) -> k = c \/ In k (map fst d).
Proof.
  induction d as [|[k' w] r IH]; simpl.
  - intros [H|[]]; auto.
  - destruct (seqb c k') eqn:E; simpl.
    + apply seqb_eq in E; subst k'. intros [H|H]; auto.
    + intros [H|H]; auto. destruct (IH H); auto.
Qed.

Lemma keys_set_if {V} col b (v : V) d k :
  In k (map fst (set_if col b v d)) -> col = Some k \/ In k (map fst d).
Proof.
  unfold set_if; destruct col as [c|]; [|auto]; destruct b; [|auto].
  intros H; destruct (keys_dict_set c k v d H); subst; auto.
Qed.

(** X3: every key of the column values built by [_build_column_values] is one of the seven configured column ids. *)
Theorem column_keys_configured resolve cfg lead stage is_new cur k :
  In k (map fst (_build_column_values resolve cfg lead stage is_new cur)) ->
  In (Some k) [phone_dedupe_col_id cfg; last_msg_id_col_id cfg; phone_real_col_id cfg;
               stage_col_id cfg; vehicle_col_id cfg; payment_col_id cfg;
               appointment_col_id cfg].
Proof.
  unfold _build_column_values; cbv zeta.
  intros H.
  destruct (keys_set_if _ _ _ _ _ H) as [E|H1]; [simpl; auto 8|]; clear H.
  destruct (keys_set_if _ _ _ _ _ H1) as [E|H2]; [simpl; auto 8|]; clear H1.
  destruct (keys_set_if _ _ _ _ _ H2) as [E|H3]; [simpl; auto 8|]; clear H2.
  destruct (stage_entry cfg stage is_new cur) as [v|] eqn:Es;
  destruct (stage_col_id cfg) as [c|] eqn:Ec;
  [destruct (keys_dict_set _ _ _ _ H3) as [E|H4]; [subst; simpl; auto 8|]| | |];
  try (rename H3 into H4);
  destruct (keys_set_if _ _ _ _ _ H4) as [E|H5]; try (simpl; auto 8; fail); clear H4;
  destruct (keys_set_if _ _ _ _ _ H5) as [E|H6]; try (simpl; auto 8; fail); clear H5;
  destruct (keys_set_if _ _ _ _ _ H6) as [E|H7]; try (simpl; auto 8; fail); clear H6;
  destruct (keys_set_if _ _ _ _ _ H7) as [E|H8]; try (simpl; auto 8; fail); destruct H8.
Qed.

(** X3, witness: the columns written for a new item with every column configured. *)
Lemma column_keys_configured_witness :
  In (u "payment") (map fst (_build_column_values (fun _ => []) demo_cfg_full demo_lead_nopay
                               s_cita true s_cotizacion)) /\
  In (Some (u "payment")) [phone_dedupe_col_id demo_cfg_full; last_msg_id_col_id demo_cfg_full;
    phone_real_col_id demo_cfg_full; stage_col_id demo_cfg_full; vehicle_col_id demo_cfg_full;
    payment_col_id demo_cfg_full; appointment_col_id demo_cfg_full].
Proof.
  assert (Hk : In (u "payment") (map fst (_build_column_values (fun _ => []) demo_cfg_full
                demo_lead_nopay s_cita true s_cotizacion))).
  { vm_compute. repeat first [left; reflexivity | right]. }
  split; [exact Hk|].
  exact (column_keys_configured (fun _ => []) demo_cfg_full demo_lead_nopay s_cita true
           s_cotizacion (u "payment") Hk).
Defined.





(** X5: when the found item's stage is not terminal, [create_or_update_lead] creates nothing: it only updates, renames or notes the found item (a note only for a given [add_note]), and returns that item's id, or [None] for a lead whose phone sanitises to the empty string. *)
Theorem update_targets_found_item resolve cfg it group_id created_id lead stage add_note ops res :
  is_terminal (current_stage it) = false ->
  create_or_update_lead resolve cfg (Some it) group_id created_id lead stage add_note = (ops, res) ->
  (forall op, In op ops ->
     match op with
     | OpCreate _ _ _ => False
     | OpUpdate i _ | OpRename i _ => i = item_id it
     | OpNote i b => i = item_id it /\ add_note = Some b
     end) /\
  res = match _sanitize_phone (get_or [] (telefono lead)) with
        | [] => None | _ => Some (item_id it) end.
Proof.
  intros Ht Hrun. unfold create_or_update_lead in Hrun.
  destruct (_sanitize_phone (get_or [] (telefono lead))) as [|p ps] eqn:Hp.
  { injection Hrun as <- <-; split; [intros op []|reflexivity]. }
  unfold decide in Hrun; rewrite Ht in Hrun; simpl in Hrun.
  injection Hrun as <- <-; split; [|reflexivity].
  intros op Hin.
  apply in_app_or in Hin; destruct Hin as [Hin|Hin].
  - apply in_app_or in Hin; destruct Hin as [Hin|Hin].
    + destruct (_build_column_values _ _ _ _ _ _); [destruct Hin|].
      destruct Hin as [<-|[]]; reflexivity.
    + destruct (seqb _ _); [destruct Hin|]. destruct Hin as [<-|[]]; reflexivity.
  - destruct (item_id it) as [|x xs] eqn:Ei; [destruct Hin|].
    destruct add_note as [[|n ns]|]; simpl in Hin; try contradiction.
    destruct Hin as [<-|[]]. rewrite <- Ei; auto.
Qed.


(** X5, witness: an existing item at Cotizacion, moved to Cita with a note. *)
Lemma update_targets_found_item_witness :
  let r := create_or_update_lead (fun _ => []) demo_cfg_full (Some (mkfound (u "42") s_cotizacion))
             None None demo_lead_nopay (Some s_cita) (Some (u "nota")) in
  is_terminal s_cotizacion = false /\
  (forall op, In op (fst r) ->
     match op with
     | OpCreate _ _ _ => False
     | OpUpdate i _ | OpRename i _ => i = u "42"
     | OpNote i b => i = u "42" /\ Some (u "nota") = Some b
     end) /\
  snd r = match _sanitize_phone (get_or [] (telefono demo_lead_nopay)) with
          | [] => None | _ => Some (u "42") end.
Proof.
  intros r. split; [reflexivity|].
  exact (update_targets_found_item (fun _ => []) demo_cfg_full (mkfound (u "42") s_cotizacion)
           None None demo_lead_nopay (Some s_cita) (Some (u "nota")) (fst r) (snd r)
           eq_refl eq_refl).
Defined.

End MondayExtra.

(* ================================================================== *)
(** ** Further properties of the pipeline of [main.py] *)
Module MainExtra.
Import Conv Main MainProps StrFacts MainFacts.

Section Grows.
Variable now AUTO HDW : Z.
Variable OWNER : pystr.
Variable evo : pystr -> pystr -> option pystr -> option (Z * option pystr).





End Grows.

Section FromMe.
Variable now AUTO HDW : Z.
Variable OWNER : pystr.
Variable evo : pystr -> pystr -> option pystr -> option (Z * option pystr).
Variable transcribe : pystr -> pystr -> pystr.
Variable store_get : list (pystr * (pystr * ctx)) -> pystr -> option (option (pystr * ctx)).
Variable handle : pystr -> pystr -> ctx -> option result.
Abbreviation run := (process_single_event now AUTO HDW OWNER evo transcribe store_get handle).

(** X6: an event sent from the business phone ([fromMe]) produces no effect, touches neither the lead set, the bot-sent sets, the send times nor the session store, and at most silences the chat until [now + AUTO * 60]. *)
Theorem from_me_frame ev g effs o g' effs' :
  ev_from_me ev = true -> run ev (g, effs) = (o, (g', effs')) ->
  effs' = effs /\ processed_lead_ids g' = processed_lead_ids g /\
  bot_sent_message_ids g' = bot_sent_message_ids g /\ bot_sent_texts g' = bot_sent_texts g /\
  last_bot_message_time g' = last_bot_message_time g /\ store g' = store g /\
  (silenced_users g' = silenced_users g \/
   silenced_users g' = dict_set (strip (ev_remote_jid ev)) (SilUntil (now + AUTO * 60)) (silenced_users g)).
Proof.
  intros Hf H. unfold process_single_event in H. cbv zeta in H.
  destruct (strip (ev_remote_jid ev)) as [|j js] eqn:Ej.
  { injection H as _ <- <-. auto 10. }
  destruct (_ || _)%bool.
  { injection H as _ <- <-. auto 10. }
  rewrite bind_get_eq in H; cbn [fst] in H.
  destruct (negb _ && _)%bool.
  { injection H as _ <- <-. auto 10. }
  rewrite Hf in H.
  destruct (seqb (strip (ev_msg_id ev)) []).
  - cbv [bind ret get modify] in H; cbn [fst snd] in H.
    destruct (_is_bot_message _ _ _ _ _ _); [injection H as _ <- <-; auto 10|].
    destruct (_message_looks_human _); injection H as _ <- <-; cbn; auto 10.
  - cbv [bind ret get modify add_to raise] in H; cbn [fst snd] in H.
    destruct (Dedup.add _ _) as [b|]; [|injection H as _ <- <-; auto 10].
    cbn [fst snd] in H.
    destruct (_is_bot_message _ _ _ _ _ _); [injection H as _ <- <-; auto 10|].
    destruct (_message_looks_human _); injection H as _ <- <-; cbn; auto 10.
Qed.
End FromMe.

(** X6, witness: a human-looking message from the business phone. *)
Lemma from_me_frame_witness :
  let r := process_single_event 1000 60 15 [] demo_evo (fun _ _ => []) demo_store_get
             (fun _ _ _ => None) ev_me (GlobalState [], []) in
  snd (snd r) = [] /\ processed_lead_ids (fst (snd r)) = processed_lead_ids (GlobalState []) /\
  bot_sent_message_ids (fst (snd r)) = bot_sent_message_ids (GlobalState []) /\
  bot_sent_texts (fst (snd r)) = bot_sent_texts (GlobalState []) /\
  last_bot_message_time (fst (snd r)) = last_bot_message_time (GlobalState []) /\
  store (fst (snd r)) = store (GlobalState []) /\
  (silenced_users (fst (snd r)) = silenced_users (GlobalState []) \/
   silenced_users (fst (snd r)) = dict_set (strip (ev_remote_jid ev_me)) (SilUntil (1000 + 60 * 60))
                                    (silenced_users (GlobalState []))).
Proof.
  intros r.
  exact (from_me_frame 1000 60 15 [] demo_evo (fun _ _ => []) demo_store_get (fun _ _ _ => None)
           ev_me (GlobalState []) [] (fst r) (fst (snd r)) (snd (snd r)) eq_refl
           ltac:(vm_compute; reflexivity)).
Defined.

Section Silence.
Variable now AUTO HDW : Z.
Variable OWNER : pystr.
Variable evo : pystr -> pystr -> option pystr -> option (Z * option pystr).
Variable transcribe : pystr -> pystr -> pystr.
Variable store_get : list (pystr * (pystr * ctx)) -> pystr -> option (option (pystr * ctx)).
Variable handle : pystr -> pystr -> ctx -> option result.
Abbreviation run := (process_single_event now AUTO HDW OWNER evo transcribe store_get handle).

Lemma set_pm_same g : set_pm (processed_message_ids g) g = g.
Proof. destruct g; reflexivity. Qed.

(** X7: a customer message on a chat silenced with a deadline still in the future (or silenced with [True]) produces no effect and changes nothing but the processed-message set. *)
Theorem silence_respected ev g effs o g' effs' v :
  ev_from_me ev = false ->
  dict_get (strip (ev_remote_jid ev)) (silenced_users g) = Some v ->
  now < match v with SilUntil t => t | SilTrue => 1 end ->
  run ev (g, effs) = (o, (g', effs')) ->
  effs' = effs /\ g' = set_pm (processed_message_ids g') g.
Proof.
  intros Hf Hs Ht H. unfold process_single_event in H. cbv zeta in H.
  destruct (strip (ev_remote_jid ev)) as [|j js] eqn:Ej.
  { injection H as _ <- <-. rewrite set_pm_same; auto. }
  destruct (_ || _)%bool.
  { injection H as _ <- <-. rewrite set_pm_same; auto. }
  rewrite bind_get_eq in H; cbn [fst] in H.
  destruct (negb _ && _)%bool.
  { injection H as _ <- <-. rewrite set_pm_same; auto. }
  rewrite Hf in H.
  apply Z.ltb_lt in Ht.
  destruct (seqb (strip (ev_msg_id ev)) []).
  - cbv [bind ret get] in H; cbn [fst snd] in H.
    rewrite Hs, Ht in H. injection H as _ <- <-. rewrite set_pm_same; auto.
  - cbv [bind ret get modify add_to raise] in H; cbn [fst snd] in H.
    destruct (Dedup.add _ _) as [b|]; [|injection H as _ <- <-; rewrite set_pm_same; auto].
    cbn [fst snd set_pm silenced_users] in H.
    rewrite Hs, Ht in H. injection H as _ <- <-. auto.
Qed.

End Silence.

Section Snd.
Variable now HDW : Z.
Variable evo : pystr -> pystr -> option pystr -> option (Z * option pystr).

Lemma deque_append_spec x q :
  (List.length q <= 10)%nat ->
  (List.length (deque_append x q) <= 10)%nat /\ last (deque_append x q) [] = x.
Proof.
  intros Hq. unfold deque_append.
  destruct (Nat.leb 10 (List.length q)) eqn:E.
  - apply Nat.leb_le in E. destruct q as [|y q]; simpl in *; [lia|].
    rewrite last_last, length_app; simpl; split; [lia|reflexivity].
  - apply Nat.leb_gt in E. rewrite last_last, length_app; simpl; split; [lia|reflexivity].
Qed.

(** X9: a text accepted by the Evolution API (status below 400) is posted once, appended to the chat's bounded record of bot texts (at most 10, the new text last), timestamps the chat with [now], and from then on [_is_bot_message] recognises the same text as the bot's. *)
Theorem sent_text_recorded j t g effs o g' effs' st mid :
  strip t <> [] -> _clean_phone_or_jid j <> [] ->
  evo (_clean_phone_or_jid j) (strip t) None = Some (st, mid) -> st < 400 ->
  (forall q, dict_get (_clean_phone_or_jid j ++ u "@s.whatsapp.net") (bot_sent_texts g) = Some q ->
     (List.length q <= 10)%nat) ->
  send_evolution_message now evo j t [] (g, effs) = (o, (g', effs')) ->
  let jid := _clean_phone_or_jid j ++ u "@s.whatsapp.net" in
  effs' = effs ++ [EPost (_clean_phone_or_jid j) (strip t) None] /\
  (exists q, dict_get jid (bot_sent_texts g') = Some q /\
             (List.length q <= 10)%nat /\ last q [] = strip t) /\
  dict_get jid (last_bot_message_time g') = Some now /\
  forall mid', _is_bot_message now HDW g' jid mid' (strip t) = true.
Proof.
  intros Ht Hc He Hst Hq H jid. fold jid in Hq.
  unfold send_evolution_message in H. cbv zeta in H.
  destruct (strip t) as [|x xs] eqn:Et; [congruence|].
  destruct (_clean_phone_or_jid j) as [|c cs] eqn:Ec; [congruence|].
  cbv [bind emit ret get modify] in H; cbn [fst snd] in H.
  rewrite He in H.
  assert (Hs : (400 <=? st) = false) by (apply Z.leb_gt; exact Hst).
  rewrite Hs in H.
  assert (Htr : exists g1, track_id mid (g, effs ++ [EPost (c :: cs) (x :: xs) None])
                          = (Some tt, (g1, effs ++ [EPost (c :: cs) (x :: xs) None]))
                  /\ bot_sent_texts g1 = bot_sent_texts g).
  { unfold track_id. destruct mid as [[|m ms]|]; try (eexists; split; reflexivity).
    cbv [bind get modify ret]; cbn [fst snd].
    destruct (Dedup.add _ _); eexists; split; reflexivity. }
  destruct Htr as [g1 [Etr Eg1]].
  revert H. fold jid.
  match goal with |- context [track_id mid ?s] => change (track_id mid s) with (track_id mid s) end.
  rewrite Etr. cbn [fst snd set_btexts set_btime bot_sent_texts last_bot_message_time].
  rewrite Eg1. intros H. injection H as _ <- <-.
  cbn [bot_sent_texts last_bot_message_time].
  destruct (deque_append_spec (x :: xs)
              (match dict_get jid (bot_sent_texts g) with Some q => q | None => [] end)) as [D1 D2].
  { destruct (dict_get jid (bot_sent_texts g)) as [q|]; [apply Hq; reflexivity|simpl; lia]. }
  unfold dict_get, dict_set in *.
  cbn [bot_sent_texts set_btime set_btexts last_bot_message_time].
  rewrite !MondayFacts.dict_get_set, seqb_refl.
  split; [reflexivity|]. split; [eexists; split; [reflexivity|split; assumption]|].
  split; [reflexivity|].
  intros mid'. unfold _is_bot_message. cbn [bot_sent_texts set_btime set_btexts].
  unfold dict_get. rewrite MondayFacts.dict_get_set, seqb_refl.
  assert (Hin : inb (x :: xs) (deque_append (x :: xs)
              (match Monday.dict_get jid (bot_sent_texts g) with Some q => q | None => [] end)) = true).
  { unfold inb. apply existsb_exists. exists (x :: xs). split; [|apply seqb_refl].
    unfold deque_append. destruct (Nat.leb _ _); apply in_or_app; right; left; reflexivity. }
  rewrite Hin. destruct (_ && _)%bool; reflexivity.
Qed.
End Snd.

Section SM.
Variable now : Z.
Variable evo : pystr -> pystr -> option pystr -> option (Z * option pystr).

Lemma track_effs mid s : exists g1, track_id mid s = (Some tt, (g1, snd s)).
Proof.
  destruct s as [g effs]. unfold track_id. destruct mid as [[|m ms]|]; try (eexists; reflexivity).
  cbv [bind get modify ret]; cbn [fst snd].
  destruct (Dedup.add _ _); eexists; reflexivity.
Qed.

Lemma send_media_posts clean text urls g effs o g' effs' :
  (forall n t m, evo n t m <> None) -> urls <> [] ->
  send_media evo clean text urls (g, effs) = (o, (g', effs')) ->
  o = Some true /\
  effs' = effs ++ map (fun url => EPost clean [] (Some url)) (removelast urls)
               ++ [EPost clean text (Some (last urls []))].
Proof.
  intros Hevo. revert g effs. induction urls as [|url r IH]; intros g effs Hne H; [congruence|].
  simpl in H. cbv [bind emit] in H; cbn [fst snd] in H.
  destruct (evo clean (match r with [] => text | _ => [] end) (Some url)) as [[st mid]|] eqn:E;
    [|exfalso; exact (Hevo _ _ _ E)].
  assert (Ht : exists g1, (if 400 <=? st then ret tt else track_id mid)
                          (g, effs ++ [EPost clean (match r with [] => text | _ => [] end) (Some url)])
                          = (Some tt, (g1, effs ++ [EPost clean (match r with [] => text | _ => [] end) (Some url)]))).
  { destruct (400 <=? st); [eexists; reflexivity|apply track_effs]. }
  destruct Ht as [g1 Ht]. rewrite Ht in H.
  destruct r as [|url2 r].
  - simpl in H. injection H as <- _ <-. split; [reflexivity|]. simpl. reflexivity.
  - destruct (IH g1 _ ltac:(discriminate) H) as [Ho He]. split; [exact Ho|].
    rewrite He. simpl. rewrite <- app_assoc. reflexivity.
Qed.

(** X10: when every POST succeeds, sending a text with media posts one message per URL in order, with the stripped text as the caption of the last one only. *)
Theorem media_send_posts j t urls g effs o g' effs' :
  (forall n t m, evo n t m <> None) -> urls <> [] -> _clean_phone_or_jid j <> [] ->
  send_evolution_message now evo j t urls (g, effs) = (o, (g', effs')) ->
  effs' = effs ++ map (fun url => EPost (_clean_phone_or_jid j) [] (Some url)) (removelast urls)
               ++ [EPost (_clean_phone_or_jid j) (strip t) (Some (last urls []))].
Proof.
  intros Hevo Hne Hc H. unfold send_evolution_message in H. cbv zeta in H.
  destruct urls as [|url r]; [congruence|].
  destruct (_clean_phone_or_jid j) as [|c cs] eqn:Ec; [congruence|].
  assert (Hs : forall o1 s1, send_media evo (c :: cs) (strip t) (url :: r) (g, effs) = (o1, s1) ->
                 s1 = (g', effs') -> effs' = effs ++ map (fun url => EPost (c :: cs) [] (Some url))
                   (removelast (url :: r)) ++ [EPost (c :: cs) (strip t) (Some (last (url :: r) []))]).
  { intros o1 [g1 e1] E1 Eq. injection Eq as <- <-.
    exact (proj2 (send_media_posts _ _ _ _ _ _ _ _ Hevo Hne E1)). }
  destruct (send_media evo (c :: cs) (strip t) (url :: r) (g, effs)) as [o1 s1] eqn:E1.
  apply (Hs o1 s1 eq_refl).
  destruct (strip t) as [|x xs];
    cbv [bind ret] in H; rewrite E1 in H; destruct o1; injection H as _ <-; reflexivity.
Qed.
End SM.

Section Posts.
Variable now : Z.
Variable OWNER : pystr.
Variable evo : pystr -> pystr -> option pystr -> option (Z * option pystr).

Lemma po_refl s : posts_only s s.
Proof. exists []; rewrite app_nil_r; split; [reflexivity|constructor]. Qed.

Lemma po_trans s1 s2 s3 : posts_only s1 s2 -> posts_only s2 s3 -> posts_only s1 s3.
Proof.
  intros [l1 [E1 P1]] [l2 [E2 P2]]; exists (l1 ++ l2).
  split; [rewrite E2, E1, app_assoc; reflexivity|apply Forall_app; auto].
Qed.

Lemma po_ret {A} (a : A) : pres posts_only (ret a).
Proof. intros s o s' H; injection H as _ <-; apply po_refl. Qed.
Lemma po_raise {A} : pres posts_only (@raise A).
Proof. intros s o s' H; injection H as _ <-; apply po_refl. Qed.
Lemma po_get : pres posts_only get.
Proof. intros s o s' H; injection H as _ <-; apply po_refl. Qed.
Lemma po_emit n t m : pres posts_only (emit (EPost n t m)).
Proof.
  intros s o s' H; injection H as _ <-; exists [EPost n t m].
  split; [reflexivity|repeat constructor]. exists n, t, m; reflexivity.
Qed.
Lemma po_modify f : pres posts_only (modify f).
Proof. intros s o s' H; injection H as _ <-; exists []; rewrite app_nil_r; split; [reflexivity|constructor]. Qed.
Lemma po_bind {A B} (m : M A) (f : A -> M B) :
  pres posts_only m -> (forall a, pres posts_only (f a)) -> pres posts_only (bind m f).
Proof.
  intros Km Kf s o s' H; unfold bind in H.
  destruct (m s) as [[a|] s1] eqn:E.
  - exact (po_trans _ _ _ (Km _ _ _ E) (Kf a _ _ _ H)).
  - injection H as _ <-; exact (Km _ _ _ E).
Qed.

Ltac po :=
  repeat (cbv beta zeta;
  match goal with
  | |- pres posts_only (bind _ _) => apply po_bind; [|intros ?]
  | |- pres posts_only (ret _) => apply po_ret
  | |- pres posts_only raise => apply po_raise
  | |- pres posts_only get => apply po_get
  | |- pres posts_only (emit (EPost _ _ _)) => apply po_emit
  | |- pres posts_only (modify _) => apply po_modify
  | |- pres posts_only (if ?b then _ else _) => destruct b
  | |- pres posts_only (match ?x with _ => _ end) => destruct x
  end).

Lemma po_track mid : pres posts_only (track_id mid).
Proof. unfold track_id. po. Qed.
Lemma po_send_media clean text urls : pres posts_only (send_media evo clean text urls).
Proof.
  induction urls as [|url r IH]; simpl; [apply po_ret|].
  po; try apply po_track; exact IH.
Qed.
Lemma po_send j t m : pres posts_only (send_evolution_message now evo j t m).
Proof. unfold send_evolution_message. po; first [apply po_send_media | apply po_track]. Qed.
Lemma po_notify j um br l : pres posts_only (notify_owner now OWNER evo j um br l).
Proof. unfold notify_owner. po; apply po_send. Qed.
End Posts.

Section EL.
Variable now : Z.
Variable OWNER : pystr.
Variable evo : pystr -> pystr -> option pystr -> option (Z * option pystr).

(** X11: a lead whose key is not yet processed is sent to Monday exactly once, with [external_id] set to the message id and [telefono] to the JID's number part, and with every other field unchanged: the one [ECreateLead] is followed only by WhatsApp posts (the owner's notification); the emission completes normally. *)
Theorem emit_lead_record j mid um rt lead g effs o g' effs' :
  Dedup.mem (lead_key j mid) (processed_lead_ids g) = false ->
  (0 < Dedup.maxlen (processed_lead_ids g))%nat ->
  emit_lead now OWNER evo j mid um rt lead (g, effs) = (o, (g', effs')) ->
  o = Some tt /\
  exists lead' rest, effs' = effs ++ ECreateLead lead' :: rest /\
    (forall e, In e rest -> exists n t m, e = EPost n t m) /\
    dict_get (u "external_id") lead' = Some (JStr mid) /\
    dict_get (u "telefono") lead' = Some (JStr (hd [] (split_char 64 j))) /\
    forall k, k <> u "external_id" -> k <> u "telefono" -> dict_get k lead' = dict_get k lead.
Proof.
  intros Hm Hmax H. unfold emit_lead, catch in H. cbv zeta in H.
  rewrite bind_get_eq in H; cbn [fst] in H. rewrite Hm in H.
  destruct (dedup_add_some (lead_key j mid) _ Hmax) as [b Eb].
  assert (Ea : add_to processed_lead_ids set_pl (lead_key j mid) (g, effs)
               = (Some tt, (set_pl b g, effs))).
  { unfold add_to. rewrite bind_get_eq. cbn [fst]. rewrite Eb. reflexivity. }
  rewrite (bind_some _ _ _ _ _ Ea) in H. cbv beta in H.
  cbv [bind emit] in H. cbn [fst snd] in H.
  set (lead' := dict_set (u "external_id") (JStr mid)
                  (dict_set (u "telefono") (JStr (hd [] (split_char 64 j))) lead)) in H.
  destruct (notify_owner now OWNER evo j um rt true (set_pl b g, effs ++ [ECreateLead lead']))
    as [o1 s1] eqn:En.
  destruct (po_notify _ _ _ _ _ _ _ _ _ _ En) as (l1 & F1 & P1); cbn [snd] in F1.
  assert (Ho : o = Some tt /\ s1 = (g', effs')).
  { destruct o1 as [[]|]; injection H as <- <-; auto. }
  destruct Ho as [-> ->]. cbn [snd] in F1.
  split; [reflexivity|]. exists lead', l1. split; [rewrite F1, <- app_assoc; reflexivity|].
  split; [intros e He; exact (proj1 (Forall_forall _ _) P1 e He)|].
  unfold lead', dict_get, dict_set. rewrite !MondayFacts.dict_get_set, !seqb_refl.
  split; [reflexivity|]. split.
  - destruct (seqb (u "telefono") (u "external_id")) eqn:E; [discriminate|reflexivity].
  - intros k H1 H2.
    destruct (seqb k (u "external_id")) eqn:E1; [apply seqb_eq in E1; contradiction|].
    destruct (seqb k (u "telefono")) eqn:E2; [apply seqb_eq in E2; contradiction|].
    rewrite !MondayFacts.dict_get_set, E1, E2. reflexivity.
Qed.
End EL.

(** X7, witness: a customer message during a silence that lasts until [2000]. *)
Lemma silence_respected_witness :
  let r := process_single_event 1000 60 15 [] demo_evo (fun _ _ => []) demo_store_get
             (handle_message SampleConv.demo_items [] None) demo_event (silenced_until 2000, []) in
  snd (snd r) = [] /\ fst (snd r) = set_pm (processed_message_ids (fst (snd r))) (silenced_until 2000).
Proof.
  intros r.
  exact (silence_respected 1000 60 15 [] demo_evo (fun _ _ => []) demo_store_get
           (handle_message SampleConv.demo_items [] None) demo_event (silenced_until 2000) []
           (fst r) (fst (snd r)) (snd (snd r)) (SilUntil 2000) eq_refl
           ltac:(vm_compute; reflexivity) ltac:(vm_compute; reflexivity)
           ltac:(vm_compute; reflexivity)).
Defined.


(** X9, witness: a text sent to a fresh state. *)
Lemma sent_text_recorded_witness :
  let r := send_evolution_message 1000 demo_evo demo_jid (u " hola ") [] (GlobalState [], []) in
  let jid := _clean_phone_or_jid demo_jid ++ u "@s.whatsapp.net" in
  snd (snd r) = [] ++ [EPost (_clean_phone_or_jid demo_jid) (strip (u " hola ")) None] /\
  (exists q, dict_get jid (bot_sent_texts (fst (snd r))) = Some q /\
             (List.length q <= 10)%nat /\ last q [] = strip (u " hola ")) /\
  dict_get jid (last_bot_message_time (fst (snd r))) = Some 1000 /\
  forall mid', _is_bot_message 1000 15 (fst (snd r)) jid mid' (strip (u " hola ")) = true.
Proof.
  intros r jid.
  exact (sent_text_recorded 1000 15 demo_evo demo_jid (u " hola ") (GlobalState []) []
           (fst r) (fst (snd r)) (snd (snd r)) 200 (Some (u "BOT1"))
           ltac:(vm_compute; discriminate) ltac:(vm_compute; discriminate)
           eq_refl ltac:(lia)
           ltac:(intros q Hq; vm_compute in Hq; discriminate Hq)
           ltac:(vm_compute; reflexivity)).
Defined.

(** X10, witness: a caption with three photos. *)
Lemma media_send_posts_witness :
  let urls := [u "http://a/1.jpg"; u "http://a/2.jpg"; u "http://a/3.jpg"] in
  let r := send_evolution_message 1000 demo_evo demo_jid (u "Fotos") urls (GlobalState [], []) in
  snd (snd r) = [] ++ map (fun url => EPost (_clean_phone_or_jid demo_jid) [] (Some url)) (removelast urls)
                   ++ [EPost (_clean_phone_or_jid demo_jid) (strip (u "Fotos")) (Some (last urls []))].
Proof.
  intros urls r.
  exact (media_send_posts 1000 demo_evo demo_jid (u "Fotos") urls (GlobalState []) []
           (fst r) (fst (snd r)) (snd (snd r))
           ltac:(intros n t m; discriminate) ltac:(discriminate)
           ltac:(vm_compute; discriminate) ltac:(vm_compute; reflexivity)).
Defined.

(** X11, witness: a lead emitted from a fresh state, with an owner to notify. *)
Lemma emit_lead_record_witness :
  let lead := SampleConv.lead_ok in
  let r := emit_lead 1000 (u "5215500000000") demo_evo demo_jid (u "MSG1") (u "hola") (u "listo") lead
             (GlobalState [], []) in
  fst r = Some tt /\
  exists lead' rest, snd (snd r) = [] ++ ECreateLead lead' :: rest /\
    (forall e, In e rest -> exists n t m, e = EPost n t m) /\
    dict_get (u "external_id") lead' = Some (JStr (u "MSG1")) /\
    dict_get (u "telefono") lead' = Some (JStr (hd [] (split_char 64 demo_jid))) /\
    forall k, k <> u "external_id" -> k <> u "telefono" -> dict_get k lead' = dict_get k lead.
Proof.
  intros lead r.
  exact (emit_lead_record 1000 (u "5215500000000") demo_evo demo_jid (u "MSG1") (u "hola") (u "listo") lead
           (GlobalState []) [] (fst r) (fst (snd r)) (snd (snd r))
           ltac:(vm_compute; reflexivity) ltac:(vm_compute; lia) ltac:(vm_compute; reflexivity)).
Defined.

End MainExtra.

(* ================================================================== *)
(** ** Further properties of [conversation_logic.py] *)
Module ConvExtra.
Import Rx Json Conv StrFacts Props ConvFacts SampleConv.

(** X15: for an hour from 0 to 23, [_pretty_time_24_to_12] writes the 12-hour clock hour (12 for 0 and 12) with AM before noon and PM from noon on. *)
Lemma pretty_time_12h (h24 : Z) (mm : pystr) :
  0 <= h24 <= 23 ->
  _pretty_time_24_to_12 h24 mm =
  z_str ((h24 + 11) mod 12 + 1) ++ [58] ++ mm ++
  (if h24 <? 12 then u " AM" else u " PM").
Proof.
  intros H.
  assert (h24 = 0 \/ h24 = 1 \/ h24 = 2 \/ h24 = 3 \/ h24 = 4 \/ h24 = 5 \/ h24 = 6 \/
          h24 = 7 \/ h24 = 8 \/ h24 = 9 \/ h24 = 10 \/ h24 = 11 \/ h24 = 12 \/ h24 = 13 \/
          h24 = 14 \/ h24 = 15 \/ h24 = 16 \/ h24 = 17 \/ h24 = 18 \/ h24 = 19 \/ h24 = 20 \/
          h24 = 21 \/ h24 = 22 \/ h24 = 23) as Hc by lia.
  repeat destruct Hc as [-> | Hc]; subst; reflexivity.
Qed.
(** X15, witness: 15 h is 3 PM. *)
Lemma pretty_time_12h_witness :
  0 <= 15 <= 23 /\ _pretty_time_24_to_12 15 (u "30") =
  z_str ((15 + 11) mod 12 + 1) ++ [58] ++ u "30" ++ (if 15 <? 12 then u " AM" else u " PM").
Proof. split; [lia | apply pretty_time_12h; lia]. Defined.

Lemma photos_http it x : In x (_extract_photos_from_item it) -> prefixb (u "http") x = true.
Proof.
  unfold _extract_photos_from_item. destruct (_safe_get _ _ _); [intros []|].
  intros H. apply in_map_iff in H. destruct H as [y [<- Hy]].
  apply filter_In in Hy. exact (proj2 Hy).
Qed.

Lemma in_firstn_l {A} n (l : list A) x : In x (firstn n l) -> In x l.
Proof. intros H. rewrite <- (firstn_skipn n l). apply in_or_app. left. exact H. Qed.

Lemma in_skipn_l {A} n (l : list A) x : In x (skipn n l) -> In x l.
Proof. intros H. rewrite <- (firstn_skipn n l). apply in_or_app. right. exact H. Qed.

Lemma py_slice_in {A} (l : list A) a b x : In x (py_slice l a b) -> In x l.
Proof. unfold py_slice. cbv zeta. intros H. exact (in_skipn_l _ _ _ (in_firstn_l _ _ _ H)). Qed.

Lemma py_slice_len3 {A} (l : list A) a :
  (List.length (py_slice l a (Z.min (a + 3) (Z.of_nat (List.length l)))) <= 3)%nat.
Proof.
  unfold py_slice. cbv zeta.
  eapply Nat.le_trans; [apply firstn_le_length|].
  set (n := Z.of_nat (List.length l)).
  assert (0 <= n) by lia.
  destruct (a <? 0) eqn:Ea; destruct (Z.min (a + 3) n <? 0) eqn:Eb;
    rewrite ?Z.ltb_lt, ?Z.ltb_ge in Ea, Eb; lia.
Qed.

Lemma py_getitem_in_l {A} (l : list A) i x : py_getitem l i = Some x -> In x l.
Proof.
  unfold py_getitem. cbv zeta.
  destruct (_ && _)%bool; [apply nth_error_In|].
  destruct (_ && _)%bool; [apply nth_error_In|discriminate].
Qed.

(** X12: [_pick_media_urls] returns at most three URLs, each starting with 'http' and each a photo of an item of the catalog. *)
Theorem pick_media_from_catalog msg reply items c urls c' :
  _pick_media_urls msg reply items c = Some (urls, c') ->
  (List.length urls <= 3)%nat /\
  forall x, In x urls -> prefixb (u "http") x = true /\
                         exists it, In it items /\ In x (_extract_photos_from_item it).
Proof.
  intros H. rewrite pick_unfold in H; generalize dependent (_normalize_spanish msg); intros nm H.
  unfold _pick_media_urls_norm in H; cbv zeta in H.
  assert (Triv : (List.length (@nil pystr) <= 3)%nat /\ forall x, In x (@nil pystr) -> False)
    by (split; [simpl; lia|intros x []]).
  destruct (any_in gps_keywords nm).
  { cbv beta iota in H; apply some_pair_fst in H; subst urls. split; [simpl; lia|intros x []]. }
  destruct items as [|i0 items0]; [cbv beta iota in H; apply some_pair_fst in H; subst urls; split; [simpl; lia|intros x []]|].
  destruct (negb (photo_request nm c)).
  { cbv beta iota in H; apply some_pair_fst in H; subst urls. split; [simpl; lia|intros x []]. }
  match type of H with
  | (match ?t with Some _ => _ | None => _ end) = _ =>
      destruct t as [[it tn]|] eqn:Et
  end.
  2: { cbv beta iota in H; apply some_pair_fst in H; subst urls. split; [simpl; lia|intros x []]. }
  assert (Hit : In it (i0 :: items0)).
  { destruct (target_a _ _ _) as [[ia na]|] eqn:Ea.
    - injection Et as -> _. exact (target_a_in _ _ _ _ _ Ea).
    - destruct (target_b _ _ _) as [[ib nb]|] eqn:Eb.
      + injection Et as -> _. exact (target_b_in _ _ _ _ _ Eb).
      + exact (target_c_in _ _ _ _ Et). }
  clear Et.
  assert (Hsub : forall x, In x urls -> In x (_extract_photos_from_item it) ->
      prefixb (u "http") x = true /\ exists it, In it (i0 :: items0) /\ In x (_extract_photos_from_item it)).
  { intros x _ Hx. split; [exact (photos_http _ _ Hx)|exists it; auto]. }
  enough (K : (List.length urls <= 3)%nat /\ forall x, In x urls -> In x (_extract_photos_from_item it))
    by (split; [exact (proj1 K)|intros x Hx; exact (Hsub x Hx (proj2 K x Hx))]).
  clear Hsub.
  generalize dependent (_extract_photos_from_item it). intros l H.
  destruct l as [|p0 ps]; [cbv beta iota in H; apply some_pair_fst in H; subst urls; split; [simpl; lia|intros x []]|].
  set (l := p0 :: ps) in *.
  revert H.
  match goal with |- context [py_getitem l ?pi] => generalize pi as idx end.
  intros idx H.
  destruct (any_in (map u ["otra"; "mas"; "más"; "siguiente"]%string) nm).
  - destruct (idx <? Z.of_nat (List.length l)).
    + destruct (py_getitem l idx) as [x|] eqn:Eg; [|discriminate].
      cbv beta iota in H; apply some_pair_fst in H; subst urls. split; [simpl; lia|].
      intros y [<-|[]]. exact (py_getitem_in_l _ _ _ Eg).
    + cbv beta iota in H; apply some_pair_fst in H; subst urls. split; [simpl; lia|]. intros y [<-|[]]. left; reflexivity.
  - destruct (py_slice l idx (Z.min (idx + 3) (Z.of_nat (List.length l)))) as [|q qs] eqn:Es.
    + cbv beta iota in H; apply some_pair_fst in H; subst urls. split; [apply (py_slice_len3 l 0)|]. apply py_slice_in.
    + cbv beta iota in H; apply some_pair_fst in H; subst urls. rewrite <- Es. split; [apply py_slice_len3|]. apply py_slice_in.
Qed.

(** X12, witness: the photos of the G9 for a session interested in it. *)
Lemma pick_media_from_catalog_witness :
  match _pick_media_urls (u "mándame fotos") [] demo_items ctx_g9 with
  | Some (urls, c') =>
      (List.length urls <= 3)%nat /\
      forall x, In x urls -> prefixb (u "http") x = true /\
                             exists it, In it demo_items /\ In x (_extract_photos_from_item it)
  | None => False
  end.
Proof.
  destruct (_pick_media_urls (u "mándame fotos") [] demo_items ctx_g9) as [[urls c']|] eqn:E.
  - exact (pick_media_from_catalog _ _ _ _ _ _ E).
  - vm_compute in E. discriminate E.
Defined.

Lemma lastn_le n s : (List.length (lastn n s) <= n)%nat.
Proof. unfold lastn. rewrite length_skipn. lia. Qed.

(** X13: when the incoming history has at most 4000 characters, so has the history [handle_message] stores. *)
Theorem history_bounded items fin llm msg st c r :
  (forall h, c_history c = Some h -> (List.length h <= 4000)%nat) ->
  handle_message items fin llm msg st c = Some r ->
  forall h, c_history (r_context r) = Some h -> (List.length h <= 4000)%nat.
Proof.
  intros Hc H. unfold handle_message in H.
  destruct (seqb (lower (strip msg)) (u "/silencio")).
  { injection H as <-. cbn [r_context c_history]. intros h E; injection E as <-. apply lastn_le. }
  destruct (seqb st (u "silent")).
  { injection H as <-. exact Hc. }
  cbv zeta in H.
  destruct (match llm with Some _ => _ | None => _ end) as [[rc li] lead] eqn:Ellm.
  destruct (_pick_media_urls _ _ _ _) as [[media nc']|] eqn:Ep; [|discriminate H].
  assert (Hn : c_history nc' = Some (lastn 4000 (strip (get_s (c_history c) ++ (10 :: u "C: ") ++ msg
                 ++ (10 :: u "A: ") ++ strip (sub prefix_pat (fun _ _ => []) (strip rc)))))).
  { destruct (pick_spec _ _ _ _ _ _ Ep) as [[_ ->]|[_ [i [->|[nm ->]]]]]; reflexivity. }
  assert (Hb : forall h, c_history nc' = Some h -> (List.length h <= 4000)%nat)
    by (rewrite Hn; intros h E; injection E as <-; apply lastn_le).
  clear Hn.
  destruct (_detect_pdf_request _ _ _ _) as [pi|] eqn:Epdf.
  - destruct (p_kind pi) eqn:Ek; cbv beta iota in H.
    all: destruct (seqb (p_tipo pi) []); try destruct (negb _ && _)%bool.
    all: injection H as <-; exact Hb.
  - injection H as <-; exact Hb.
Qed.

(** X13, witness: a fifth turn saying hello. *)
Lemma history_bounded_witness :
  match handle_message demo_items [] None (u "hola") (u "chatting") ctx_turn4 with
  | Some r => forall h, c_history (r_context r) = Some h -> (List.length h <= 4000)%nat
  | None => False
  end.
Proof.
  destruct (handle_message demo_items [] None (u "hola") (u "chatting") ctx_turn4) as [r|] eqn:E.
  - refine (history_bounded _ _ _ _ _ _ _ _ E).
    intros h Hh. vm_compute in Hh. injection Hh as <-. vm_compute. lia.
  - vm_compute in E. discriminate E.
Defined.

Section Funnel.
Import Monday.

(** X14: outside the silence command and the silent state, [handle_message] records one funnel stage, the same in the result and the context, among Contacto, Intencion, Cotizacion, Cita and Sin Interes; it is Sin Interes exactly when disinterest is detected, and Cotizacion only with a PDF sent by URL. *)
Theorem funnel_stage_rule items fin llm msg st c r :
  seqb (lower (strip msg)) (u "/silencio") = false -> seqb st (u "silent") = false ->
  handle_message items fin llm msg st c = Some r ->
  exists s, r_funnel_stage r = Some s /\ c_funnel_stage (r_context r) = Some s /\
    In s [s_contacto; s_intencion; s_cotizacion; s_cita; s_sin_interes] /\
    r_is_disinterest r = Some (_detect_disinterest msg) /\
    (_detect_disinterest msg = true <-> s = s_sin_interes) /\
    (s = s_cotizacion -> exists pi a b m d, r_pdf_info r = Some pi /\ p_kind pi = PdfUrl a b m d).
Proof.
  intros H1 H2 H. unfold handle_message in H. rewrite H1, H2 in H. cbv zeta in H.
  destruct (match llm with Some _ => _ | None => _ end) as [[rc li] lead] eqn:Ellm.
  destruct (_pick_media_urls _ _ _ _) as [[media nc']|] eqn:Ep; [|discriminate H].
  clear Ep Ellm.
  set (base := if seqb _ [] then if seqb li [] then s_contacto else s_intencion else s_cita) in H.
  assert (Hbase : In base [s_contacto; s_intencion; s_cita]).
  { unfold base. destruct (seqb _ []); [destruct (seqb li [])|]; simpl; auto. }
  destruct (_detect_disinterest msg) eqn:Ed.
  - destruct (_detect_pdf_request _ _ _ _) as [pi|] eqn:Epdf.
    + destruct (p_kind pi) eqn:Ek; cbv beta iota in H.
      all: destruct (seqb (p_tipo pi) []); try (rewrite seqb_refl in H; cbn [negb andb] in H).
      all: injection H as <-; eexists; cbn [r_funnel_stage r_context c_funnel_stage set_funnel_stage set_pdf_type r_is_disinterest];
           (split; [reflexivity|]); (split; [reflexivity|]); (split; [simpl; auto 6|]);
           (split; [reflexivity|]); (split; [tauto|]); intros Hc; discriminate Hc.
    + injection H as <-; eexists; cbn [r_funnel_stage r_context c_funnel_stage set_funnel_stage r_is_disinterest];
           (split; [reflexivity|]); (split; [reflexivity|]); (split; [simpl; auto 6|]);
           (split; [reflexivity|]); (split; [tauto|]); intros Hc; discriminate Hc.
  - assert (Hns : base <> s_sin_interes).
    { intros E; rewrite E in Hbase; simpl in Hbase; repeat destruct Hbase as [Hbase|Hbase]; try discriminate; contradiction. }
    assert (Hnc : base <> s_cotizacion).
    { intros E; rewrite E in Hbase; simpl in Hbase; repeat destruct Hbase as [Hbase|Hbase]; try discriminate; contradiction. }
    destruct (_detect_pdf_request _ _ _ _) as [pi|] eqn:Epdf.
    + destruct (p_kind pi) eqn:Ek; cbv beta iota in H.
      all: destruct (seqb (p_tipo pi) []); try (rewrite (proj2 (seqb_neq _ _) Hns) in H; cbn [negb andb] in H).
      all: try destruct (inb base _); cbv beta iota in H.
      all: injection H as <-; eexists; cbn [r_funnel_stage r_context c_funnel_stage set_funnel_stage set_pdf_type r_is_disinterest r_pdf_info];
           (split; [reflexivity|]); (split; [reflexivity|]);
           (split; [simpl in Hbase |- *; tauto|]); (split; [reflexivity|]);
           (split; [split; [discriminate|intros E; discriminate E || contradiction]|]);
           intros Hc; first [contradiction | do 5 eexists; split; [reflexivity|exact Ek]].
    + injection H as <-; eexists; cbn [r_funnel_stage r_context c_funnel_stage set_funnel_stage r_is_disinterest];
           (split; [reflexivity|]); (split; [reflexivity|]); (split; [simpl in Hbase |- *; tauto|]);
           (split; [reflexivity|]); (split; [split; [discriminate|intros E; contradiction]|]);
           intros Hc; contradiction.
Qed.

(** X14, witness: a fifth turn saying hello. *)
Lemma funnel_stage_rule_witness :
  match handle_message demo_items [] None (u "hola") (u "chatting") ctx_turn4 with
  | Some r =>
      exists s, r_funnel_stage r = Some s /\ c_funnel_stage (r_context r) = Some s /\
        In s [Monday.s_contacto; Monday.s_intencion; Monday.s_cotizacion; Monday.s_cita; Monday.s_sin_interes] /\
        r_is_disinterest r = Some (_detect_disinterest (u "hola")) /\
        (_detect_disinterest (u "hola") = true <-> s = Monday.s_sin_interes) /\
        (s = Monday.s_cotizacion -> exists pi a b m d, r_pdf_info r = Some pi /\ p_kind pi = PdfUrl a b m d)
  | None => False
  end.
Proof.
  destruct (handle_message demo_items [] None (u "hola") (u "chatting") ctx_turn4) as [r|] eqn:E.
  - exact (funnel_stage_rule demo_items [] None (u "hola") (u "chatting") ctx_turn4 r ltac:(vm_compute; reflexivity)
             ltac:(vm_compute; reflexivity) E).
  - vm_compute in E. discriminate E.
Defined.

End Funnel.

End ConvExtra.

(* ================================================================== *)
(** ** Properties of [inventory_service.py] *)
Module InventoryFacts.
Import Rx Json StrFacts Inventory.

Lemma replace1_filter c s : replace [c] [] s = filter (fun x => negb (x =? c)) s.
Proof.
  assert (K : forall f s, (List.length s < f)%nat ->
            replace_fuel f [c] [] s = filter (fun x => negb (x =? c)) s).
  { induction f as [|f IH]; intros s' Hl; [simpl in Hl; lia|].
    destruct s' as [|x r]; [reflexivity|]. simpl.
    rewrite andb_true_r, (Z.eqb_sym c x).
    destruct (x =? c) eqn:E; simpl.
    - apply IH. simpl in Hl. lia.
    - f_equal. apply IH. simpl in Hl. lia. }
  unfold replace. apply K. lia.
Qed.

Lemma in_lstrip_l c s : In c (lstrip s) -> In c s.
Proof. induction s as [|x r IH]; simpl; [auto|]. destruct (isspace x); simpl; auto. Qed.

Lemma in_lstrip_r c s : In c s -> isspace c = false -> In c (lstrip s).
Proof.
  induction s as [|x r IH]; simpl; [auto|]. intros [<-|H] Hs.
  - rewrite Hs. left; reflexivity.
  - destruct (isspace x); [auto|right; exact H].
Qed.

Lemma in_strip_l c s : In c (strip s) -> In c s.
Proof.
  unfold strip, rstrip. intros H. apply (proj2 (in_rev _ _)) in H. apply in_lstrip_l in H.
  apply (proj2 (in_rev _ _)) in H. exact (in_lstrip_l _ _ H).
Qed.

Lemma in_strip_r c s : In c s -> isspace c = false -> In c (strip s).
Proof.
  unfold strip, rstrip. intros H Hs. apply (proj1 (in_rev _ _)).
  apply in_lstrip_r; [|exact Hs]. apply (proj1 (in_rev _ _)). exact (in_lstrip_r _ _ H Hs).
Qed.

Lemma space_not_digit c : isspace c = true -> isdigit c = false.
Proof.
  unfold isspace, isdigit, in_range. intros H.
  destruct (48 <=? c) eqn:E1; destruct (c <=? 57) eqn:E2; try reflexivity.
  rewrite Z.leb_le in E1, E2.
  repeat match type of H with
  | (_ || _)%bool = true => apply orb_true_iff in H; destruct H as [H|H]
  end;
  repeat match type of H with
  | (_ && _)%bool = true => apply andb_true_iff in H; destruct H as [H ?]
  end;
  repeat match goal with
  | K : (_ <=? _) = true |- _ => apply Z.leb_le in K
  | K : (_ =? _) = true |- _ => apply Z.eqb_eq in K
  end; lia.
Qed.

Lemma digits_lstrip s : filter isdigit (lstrip s) = filter isdigit s.
Proof.
  induction s as [|x r IH]; simpl; [reflexivity|].
  destruct (isspace x) eqn:E; [rewrite (space_not_digit _ E); exact IH|reflexivity].
Qed.

Lemma filter_rev' {A} (f : A -> bool) l : filter f (rev l) = rev (filter f l).
Proof.
  induction l as [|x r IH]; simpl; [reflexivity|].
  rewrite filter_app, IH. simpl. destruct (f x); simpl; [reflexivity|apply app_nil_r].
Qed.

Lemma digits_strip s : filter isdigit (strip s) = filter isdigit s.
Proof.
  unfold strip, rstrip. rewrite filter_rev', digits_lstrip, filter_rev', rev_involutive.
  apply digits_lstrip.
Qed.

Lemma digits_drop c s : isdigit c = false ->
  filter isdigit (filter (fun x => negb (x =? c)) s) = filter isdigit s.
Proof.
  intros Hc. induction s as [|x r IH]; simpl; [reflexivity|].
  destruct (x =? c) eqn:E; simpl.
  - apply Z.eqb_eq in E; subst x. rewrite Hc. exact IH.
  - destruct (isdigit x); [f_equal|]; exact IH.
Qed.

(** X16: [_clean_price] keeps every digit of the value, in order; and when the value has a character other than '$', ',' and white space, the result has no '$' and no ','. *)
Theorem clean_price_spec v :
  filter isdigit (_clean_price v) = filter isdigit (match v with JNull => [] | _ => py_str v end) /\
  ((exists c, In c (py_str v) /\ c <> 36 /\ c <> 44 /\ isspace c = false) ->
   forall c, In c (_clean_price v) -> c <> 36 /\ c <> 44).
Proof.
  assert (Main : forall t,
    filter isdigit (let s := strip t in
                    let s2 := strip (replace (u ",") [] (replace (u "$") [] s)) in
                    match s2 with [] => s | _ => s2 end) = filter isdigit t /\
    ((exists c, In c t /\ c <> 36 /\ c <> 44 /\ isspace c = false) ->
     forall c, In c (let s := strip t in
                     let s2 := strip (replace (u ",") [] (replace (u "$") [] s)) in
                     match s2 with [] => s | _ => s2 end) -> c <> 36 /\ c <> 44)).
  { intros t. cbv zeta. change (u ",") with [44]. change (u "$") with [36].
    rewrite !replace1_filter.
    split.
    - destruct (strip _) eqn:E.
      + apply digits_strip.
      + rewrite <- E, digits_strip, !digits_drop by reflexivity. apply digits_strip.
    - intros [c0 (Hin & H1 & H2 & Hs)].
      assert (Hc0 : In c0 (strip (filter (fun x => negb (x =? 44))
                     (filter (fun x => negb (x =? 36)) (strip t))))).
      { apply in_strip_r; [|exact Hs].
        apply filter_In; split; [apply filter_In; split|].
        - exact (in_strip_r _ _ Hin Hs).
        - apply negb_true_iff, Z.eqb_neq; exact H1.
        - apply negb_true_iff, Z.eqb_neq; exact H2. }
      destruct (strip (filter _ (filter _ (strip t)))) as [|y ys] eqn:E; [destruct Hc0|].
      rewrite <- E. intros c Hc. apply in_strip_l in Hc.
      apply filter_In in Hc; destruct Hc as [Hc Hn2].
      apply filter_In in Hc; destruct Hc as [_ Hn1].
      apply negb_true_iff, Z.eqb_neq in Hn1, Hn2. auto. }
  destruct v; try exact (Main _).
  split; [reflexivity|]. intros [c [Hc _]]. intros c' [].
Qed.

Lemma load_fold rows acc :
  fold_left (fun normalized raw =>
               match normalize_row raw with
               | Some it => normalized ++ [it]
               | None => normalized
               end) rows acc
  = acc ++ flat_map (fun raw => match normalize_row raw with Some it => [it] | None => [] end) rows.
Proof.
  revert acc. induction rows as [|r rs IH]; intros acc; simpl; [rewrite app_nil_r; reflexivity|].
  rewrite IH. destruct (normalize_row r); [rewrite <- app_assoc; reflexivity|reflexivity].
Qed.

(** X17: the loop of [InventoryService.load] keeps, in order, exactly the rows whose status is empty or accepted, each normalised to exactly the keys Marca, Modelo, Año, Precio and photos: every item comes from such a row, and every such row gives an item. *)
Theorem load_rows_spec rows :
  load_rows rows = flat_map (fun raw => match normalize_row raw with Some it => [it] | None => [] end) rows /\
  (forall it, In it (load_rows rows) ->
    map fst it = [u "Marca"; u "Modelo"; u "Año"; u "Precio"; u "photos"] /\
    exists raw, In raw rows /\ normalize_row raw = Some it /\
      let status := lower (strip (row_get (clean_row raw) (u "status") [])) in
      status = [] \/ In status accepted_status) /\
  (forall raw, In raw rows ->
    let status := lower (strip (row_get (clean_row raw) (u "status") [])) in
    status = [] \/ In status accepted_status ->
    exists it, normalize_row raw = Some it /\ In it (load_rows rows)).
Proof.
  pose proof (load_fold rows []) as E. fold (load_rows rows) in E. simpl app in E.
  split; [exact E|]. split.
  2: { intros raw Hr. cbv zeta.
    set (st := lower (strip (row_get (clean_row raw) (u "status") []))). intros Hs.
    destruct (normalize_row raw) as [it|] eqn:En.
    - exists it. split; [reflexivity|]. rewrite E. apply in_flat_map.
      exists raw. rewrite En. split; [exact Hr|left; reflexivity].
    - exfalso. unfold normalize_row in En. cbv zeta in En. fold st in En.
      destruct Hs as [Hs|Hs].
      + rewrite Hs in En. discriminate En.
      + assert (Hi : inb st accepted_status = true).
        { unfold inb. apply existsb_exists. exists st. split; [exact Hs|apply seqb_refl]. }
        rewrite Hi, andb_false_r in En. discriminate En. }
  intros it Hit. rewrite E in Hit.
  apply in_flat_map in Hit. destruct Hit as [raw [Hr Hi]].
  destruct (normalize_row raw) as [it'|] eqn:En; [|destruct Hi].
  destruct Hi as [<-|[]].
  unfold normalize_row in En. cbv zeta in En.
  destruct (negb _ && negb _)%bool eqn:Ec; [discriminate|].
  split; [injection En as <-; reflexivity|].
  exists raw. split; [exact Hr|]. split.
  - unfold normalize_row. cbv zeta. rewrite Ec. exact En.
  - cbv zeta. apply andb_false_iff in Ec. destruct Ec as [Ec|Ec]; apply negb_false_iff in Ec.
    + left. apply seqb_eq. exact Ec.
    + right. unfold inb in Ec. apply existsb_exists in Ec. destruct Ec as [x [Hx Ex]].
      apply seqb_eq in Ex. rewrite Ex. exact Hx.
Qed.

Lemma strip_head s c r : strip s = c :: r -> isspace c = false.
Proof.
  unfold strip, rstrip. destruct (lstrip s) as [|x t] eqn:E; [simpl; discriminate|].
  pose proof (lstrip_head _ _ _ E) as Hx. simpl.
  destruct (lstrip_snoc (rev t) x Hx) as [l' ->].
  rewrite rev_app_distr. simpl. intros H; injection H as <- _. exact Hx.
Qed.

Lemma clean_row_keys raw k : In k (map fst (clean_row raw)) -> exists v, k = _clean_cell v.
Proof.
  unfold clean_row. assert (K : forall d, (forall k, In k (map fst d) -> exists v, k = _clean_cell v) ->
    forall k, In k (map fst (fold_left (fun d kv => Monday.dict_set (_clean_cell (fst kv)) (_clean_cell (snd kv)) d) raw d)) ->
    exists v, k = _clean_cell v).
  { induction raw as [|kv r IH]; intros d Hd; simpl; [exact Hd|].
    apply IH. intros k' Hk. destruct (MondayExtra.keys_dict_set _ _ _ _ Hk) as [->|H]; [eauto|exact (Hd _ H)]. }
  apply K. intros k' [].
Qed.

Lemma dict_get_absent {V} k (d : list (pystr * V)) : ~ In k (map fst d) -> Monday.dict_get k d = None.
Proof.
  unfold Monday.dict_get. intros H. destruct (find _ d) as [[k' v]|] eqn:E; [|reflexivity].
  apply find_some in E. destruct E as [Hin Hk]. apply seqb_eq in Hk. simpl in Hk. subst k'.
  exfalso. apply H. apply in_map_iff. exists (k, v). auto.
Qed.

(** X18: since [load] strips the headers of every row, a lookup with a key starting with white space (as the fallback [' Precio Distribuidor']) always answers its default. *)
Theorem space_prefixed_header_unread raw k default :
  match k with c :: _ => isspace c = true | [] => False end ->
  row_get (clean_row raw) k default = default.
Proof.
  intros Hk. unfold row_get. rewrite dict_get_absent; [reflexivity|].
  intros Hin. destruct (clean_row_keys _ _ Hin) as [v Ev].
  destruct k as [|c r]; [destruct Hk|]. unfold _clean_cell in Ev.
  pose proof (strip_head _ _ _ (eq_sym Ev)). congruence.
Qed.

(** X18, witness: a sheet whose price column is headed ' Precio Distribuidor'. *)
Lemma space_prefixed_header_unread_witness :
  row_get (clean_row [(JStr (u " Precio Distribuidor"), JStr (u "450,000"))])
    (u " Precio Distribuidor") [] = [].
Proof.
  exact (space_prefixed_header_unread [(JStr (u " Precio Distribuidor"), JStr (u "450,000"))]
           (u " Precio Distribuidor") [] ltac:(vm_compute; reflexivity)).
Defined.

End InventoryFacts.
